(** * Kayak matrix operations: a shallow embedding of [kayak/matrix_ops.py]
      and of the file parsers of [examples/data.py]

    The development follows the Python source class by class.  Numpy
    arrays are records of a shape and a row-major (C order) data list;
    the numpy routines the source calls are given executable models
    written through multi-indices.  The arithmetic on the elements is
    numpy's own and depends on the element type: it is an interface here,
    with an instance on integer-valued int64 and float64 scalars.  Python
    exceptions are values of an error type threaded through a small
    result monad. *)

From Stdlib Require Import List ZArith Lia Bool Arith PeanoNat Permutation.
From Stdlib.Strings Require Byte.
Import ListNotations.

Set Implicit Arguments.

(* ================================================================== *)
(** ** Exceptions and the result monad *)

(** The exceptions the source raises itself carry their message; the ones
    raised by Python or numpy are named after their class. *)
Inductive error : Type :=
| CannotMultiply (a_shape b_shape : list Z)
    (* Exception("Cannot multiply %s by %s matrices.") *)
| NotBroadcastable (a_shape b_shape : list Z)
    (* Exception("Matrices are not broadcastable: %s vs %s") *)
| OneAxisAtATime      (* Exception("Can only sum over one axis at a time.") *)
| NotAParentOfMe      (* Exception("Not a parent of me") *)
| ParentMustBeAOrB    (* Exception("Parent must be A or B") *)
| AssertionError
| IndexError
| TypeError
| ValueError.

Inductive result (T : Type) : Type :=
| Ok (x : T)
| Raise (e : error).

Arguments Ok {T} x.
Arguments Raise {T} e.

Definition bind {T U : Type} (r : result T) (k : T -> result U) : result U :=
  match r with
  | Ok x => k x
  | Raise e => Raise e
  end.

Notation "x <- r ;; k" := (bind r (fun x => k))
  (at level 61, r at next level, right associativity).

Definition is_ok {T : Type} (r : result T) : bool :=
  match r with Ok _ => true | Raise _ => false end.

(* ================================================================== *)
(** ** Row-major multi-indices *)

Definition size_of (s : list nat) : nat := fold_right Nat.mul 1 s.

(** Flat offset of a multi-index in a C-ordered array of shape [s]. *)
Fixpoint ravel (s idx : list nat) : nat :=
  match s, idx with
  | _ :: s', i :: idx' => i * size_of s' + ravel s' idx'
  | _, _ => 0
  end.

(** Multi-index of a flat offset. *)
Fixpoint unravel (s : list nat) (k : nat) : list nat :=
  match s with
  | [] => []
  | _ :: s' => (k / size_of s') :: unravel s' (k mod size_of s')
  end.

Definition valid_index (s idx : list nat) : Prop :=
  Forall2 (fun i d => i < d) idx s.

Fixpoint valid_indexb (s idx : list nat) : bool :=
  match s, idx with
  | [], [] => true
  | d :: s', i :: idx' => (i <? d) && valid_indexb s' idx'
  | _, _ => false
  end.

(* ================================================================== *)
(** ** Arrays *)

(** An array is its shape and its elements in row-major order, the
    elements being numpy scalars of a type [E]. *)
Record ndarray (E : Type) : Type := mk_ndarray {
  nd_shape : list nat;
  nd_data : list E
}.

Definition wf {E : Type} (a : ndarray E) : Prop :=
  length (nd_data a) = size_of (nd_shape a).

Definition ndim {E : Type} (a : ndarray E) : nat := length (nd_shape a).

(** The [.shape] attribute as Python sees it: a tuple of ints. *)
Definition shape_of {E : Type} (a : ndarray E) : list Z := map Z.of_nat (nd_shape a).

(** The element that a read outside the data of an array falls back to in
    the model (numpy raises there; the reads of the model are in range). *)
Class Default (E : Type) : Type := dflt : E.

Definition get {E : Type} {DE : Default E} (a : ndarray E) (idx : list nat) : E :=
  nth (ravel (nd_shape a) idx) (nd_data a) dflt.

(** The array of shape [s] whose element at [idx] is [f idx]. *)
Definition build {E : Type} (s : list nat) (f : list nat -> E) : ndarray E :=
  mk_ndarray s (map (fun k => f (unravel s k)) (seq 0 (size_of s))).

(** numpy's arithmetic on the scalars that arrays hold.  [E] is the type
    of those scalars, whatever their dtype: integers wrap, floats round,
    and an operation on two dtypes promotes as numpy does.  One thing
    only is assumed of the operations: the sum of a single element is
    that element, no addition being made. *)
Class Dtype (E : Type) : Type := {
  e_default :: Default E;
  (** an element of [np.ones(shape)], the float64 one *)
  e_one : E;
  (** [x + y] *)
  e_add : E -> E -> E;
  (** [x * y] *)
  e_mul : E -> E -> E;
  (** the sum that [np.sum] forms of a sequence of elements *)
  e_sum : list E -> E;
  (** the sum of products that [np.dot] forms of two sequences of one
      length *)
  e_dot : list E -> list E -> E;
  e_sum_one : forall x : E, e_sum [x] = x
}.
(* ================================================================== *)
(** ** Python tuples and lists of ints *)

Fixpoint list_eqb {T : Type} (eqb : T -> T -> bool) (l1 l2 : list T) : bool :=
  match l1, l2 with
  | [], [] => true
  | x :: l1', y :: l2' => eqb x y && list_eqb eqb l1' l2'
  | _, _ => false
  end.

(** [t == u] on tuples of ints. *)
Definition tuple_eqb (t u : list Z) : bool := list_eqb Z.eqb t u.

Definition zlen {T : Type} (l : list T) : Z := Z.of_nat (length l).

(** A Python index [i] into a sequence of length [n]: negative indices count
    from the end, anything outside [-n, n) raises. *)
Definition py_pos (e : error) (n : nat) (i : Z) : result nat :=
  if ((- Z.of_nat n <=? i) && (i <? Z.of_nat n))%Z
  then Ok (Z.to_nat (if (i <? 0)%Z then i + Z.of_nat n else i)%Z)
  else Raise e.

(** [t[i]] *)
Definition py_index (t : list Z) (i : Z) : result Z :=
  k <- py_pos IndexError (length t) i ;; Ok (nth k t 0%Z).

Fixpoint set_nth {T : Type} (k : nat) (v : T) (l : list T) : list T :=
  match l, k with
  | [], _ => []
  | _ :: l', O => v :: l'
  | x :: l', S k' => x :: set_nth k' v l'
  end.

(** [t[i] = v] on a list. *)
Definition py_setitem (t : list Z) (i : Z) (v : Z) : result (list Z) :=
  k <- py_pos IndexError (length t) i ;; Ok (set_nth k v t).

Fixpoint map_result {T U : Type} (f : T -> result U) (l : list T) : result (list U) :=
  match l with
  | [] => Ok []
  | x :: l' => y <- f x ;; ys <- map_result f l' ;; Ok (y :: ys)
  end.

(** A tuple of ints used as an array shape: no negative entry. *)
Definition to_shape (t : list Z) : result (list nat) :=
  if forallb (fun d => (0 <=? d)%Z) t then Ok (map Z.to_nat t) else Raise ValueError.

(* ================================================================== *)
(** ** The numpy routines called by the source *)

(** *** Axis permutations *)

Definition gather (l p : list nat) : list nat := map (fun i => nth i l 0) p.

Fixpoint index_of (k : nat) (p : list nat) : nat :=
  match p with
  | [] => 0
  | x :: p' => if x =? k then 0 else S (index_of k p')
  end.

Definition inv_perm (p : list nat) : list nat :=
  map (fun k => index_of k p) (seq 0 (length p)).

(** [p] lists each of [0 .. n-1] once. *)
Definition is_perm (n : nat) (p : list nat) : bool :=
  (length p =? n) && forallb (fun k => existsb (Nat.eqb k) p) (seq 0 n).

(** [axes] is a permutation of [0 .. n-1] written with those numbers. *)
Definition explicit_perm (n : nat) (axes : list Z) : bool :=
  forallb (fun a => (0 <=? a)%Z) axes && is_perm n (map Z.to_nat axes).

Fixpoint insert_by (key : nat -> Z) (i : nat) (l : list nat) : list nat :=
  match l with
  | [] => [i]
  | j :: l' => if (key i <=? key j)%Z then i :: l else j :: insert_by key i l'
  end.

(** [np.argsort(keys)]: the positions of [keys] listed by increasing key
    (positions of equal keys stay in order). *)
Definition np_argsort (keys : list Z) : list Z :=
  map Z.of_nat
    (fold_right (insert_by (fun i => nth i keys 0%Z)) [] (seq 0 (length keys))).

(** *** Axes of a reduction *)

Definition mem_nat (k : nat) (l : list nat) : bool := existsb (Nat.eqb k) l.

Fixpoint drop_axes_from (pos : nat) (axes l : list nat) : list nat :=
  match l with
  | [] => []
  | x :: l' =>
      if mem_nat pos axes then drop_axes_from (S pos) axes l'
      else x :: drop_axes_from (S pos) axes l'
  end.

(** The entries of [l] whose position is not listed in [axes]. *)
Definition drop_axes (axes l : list nat) : list nat := drop_axes_from 0 axes l.

Fixpoint nodupb (l : list nat) : bool :=
  match l with
  | [] => true
  | x :: l' => negb (mem_nat x l') && nodupb l'
  end.

(** *** Broadcasting element-wise operations *)

(** On reversed shapes: trailing dimensions are aligned, a dimension of
    extent 1 stretches, a missing one counts as 1. *)
Fixpoint broadcast_rev (a b : list nat) : option (list nat) :=
  match a, b with
  | [], _ => Some b
  | _, [] => Some a
  | x :: a', y :: b' =>
      match broadcast_rev a' b' with
      | None => None
      | Some r =>
          if x =? y then Some (x :: r)
          else if x =? 1 then Some (y :: r)
          else if y =? 1 then Some (x :: r)
          else None
      end
  end.

Definition np_broadcast_shape (a b : list nat) : option (list nat) :=
  option_map (@rev nat) (broadcast_rev (rev a) (rev b)).

(** The multi-index read in an operand of shape [s] for the element at
    [idx] of the broadcast result. *)
Definition bc_index (s idx : list nat) : list nat :=
  map (fun di => if fst di =? 1 then 0 else snd di)
      (combine s (skipn (length idx - length s) idx)).

(** *** Moving elements *)

Section Movement.

Context {E : Type} {DE : Default E}.

(** Axis [i] of the result is axis [p[i]] of [a]. *)
Definition transpose_by (a : ndarray E) (p : list nat) : ndarray E :=
  build (gather (nd_shape a) p) (fun idx => get a (gather idx (inv_perm p))).

(** [np.transpose(a, axes)]: [axes=None] reverses the axes; an explicit
    [axes] may use negative entries and must name each axis once. *)
Definition np_transpose (a : ndarray E) (axes : option (list Z)) : result (ndarray E) :=
  match axes with
  | None => Ok (transpose_by a (rev (seq 0 (ndim a))))
  | Some ax =>
      p <- map_result (py_pos ValueError (ndim a)) ax ;;
      if is_perm (ndim a) p then Ok (transpose_by a p) else Raise ValueError
  end.

(** [a.T] *)
Definition np_T (a : ndarray E) : ndarray E := transpose_by a (rev (seq 0 (ndim a))).

(** *** Shape manipulation *)

(** [np.expand_dims(a, axis)]: a new axis of extent 1 at position [axis]
    of the result. *)
Definition np_expand_dims (a : ndarray E) (axis : Z) : result (ndarray E) :=
  let pos := (if axis <? 0 then axis + zlen (nd_shape a) + 1 else axis)%Z in
  if ((0 <=? pos) && (pos <=? zlen (nd_shape a)))%Z
  then Ok (mk_ndarray (firstn (Z.to_nat pos) (nd_shape a) ++ 1 ::
                       skipn (Z.to_nat pos) (nd_shape a)) (nd_data a))
  else Raise ValueError.

(** [np.atleast_1d(a)] *)
Definition np_atleast_1d (a : ndarray E) : ndarray E :=
  match nd_shape a with
  | [] => mk_ndarray [1] (nd_data a)
  | _ => a
  end.

(** The entries of a target shape that numpy takes as unknown: the
    negative ones. *)
Definition count_negative (t : list Z) : nat :=
  length (filter (fun d => (d <? 0)%Z) t).

(** [np.reshape(a, new_shape)]: one entry of [new_shape] may be negative
    and is then inferred from the others; the element count must be
    kept. *)
Definition np_reshape (a : ndarray E) (new_shape : list Z) : result (ndarray E) :=
  let n := length (nd_data a) in
  match count_negative new_shape with
  | 0 =>
      s <- to_shape new_shape ;;
      if size_of s =? n then Ok (mk_ndarray s (nd_data a)) else Raise ValueError
  | 1 =>
      let known := filter (fun d => negb (d <? 0)%Z) new_shape in
      let k := size_of (map Z.to_nat known) in
      if (k =? 0) || negb (n mod k =? 0) then Raise ValueError
      else Ok (mk_ndarray
                 (map (fun d => if (d <? 0)%Z then n / k else Z.to_nat d) new_shape)
                 (nd_data a))
  | _ => Raise ValueError
  end.

(** *** Joining and splitting *)

(** All dimensions but the one at [ax] agree. *)
Definition same_except (ax : nat) (s1 s2 : list nat) : bool :=
  list_eqb Nat.eqb (set_nth ax 0 s1) (set_nth ax 0 s2).

(** [np.concatenate((a, b), axis)] *)
Definition np_concatenate (a b : ndarray E) (axis : Z) : result (ndarray E) :=
  if negb (ndim a =? ndim b) then Raise ValueError
  else
    ax <- py_pos ValueError (ndim a) axis ;;
    if same_except ax (nd_shape a) (nd_shape b)
    then
      let na := nth ax (nd_shape a) 0 in
      let nb := nth ax (nd_shape b) 0 in
      Ok (build (set_nth ax (na + nb) (nd_shape a)) (fun idx =>
            let i := nth ax idx 0 in
            if i <? na then get a idx else get b (set_nth ax (i - na) idx)))
    else Raise ValueError.

(** Bound of a Python slice in a sequence of length [n]. *)
Definition slice_bound (n : nat) (i : Z) : nat :=
  if (i <? 0)%Z then Z.to_nat (Z.max (i + Z.of_nat n) 0)
  else Nat.min (Z.to_nat i) n.

(** [np.split(d, [at_], axis)]: the two pieces [d[.., :at_, ..]] and
    [d[.., at_:, ..]] along [axis]. *)
Definition np_split (d : ndarray E) (at_ : Z) (axis : Z) : result (ndarray E * ndarray E) :=
  ax <- py_pos IndexError (ndim d) axis ;;
  let n := nth ax (nd_shape d) 0 in
  let c := slice_bound n at_ in
  Ok (build (set_nth ax c (nd_shape d)) (fun idx => get d idx),
      build (set_nth ax (n - c) (nd_shape d)) (fun idx =>
        get d (set_nth ax (nth ax idx 0 + c) idx))).

End Movement.

(** *** Arithmetic *)

Section Arithmetic.

Context {E : Type} {D : Dtype E}.

(** [np.dot(a, b)]: a 0-d operand scales the other; otherwise the last
    axis of [a] is contracted with the only axis of a 1-d [b] or with the
    second-to-last axis of [b]. *)
Definition np_dot (a b : ndarray E) : result (ndarray E) :=
  match rev (nd_shape a), rev (nd_shape b) with
  | [], _ => Ok (build (nd_shape b) (fun idx => e_mul (get a []) (get b idx)))
  | _, [] => Ok (build (nd_shape a) (fun idx => e_mul (get a idx) (get b [])))
  | ka :: ra, [kb] =>
      if ka =? kb
      then Ok (build (rev ra) (fun I =>
                 e_dot (map (fun k => get a (I ++ [k])) (seq 0 ka))
                       (map (fun k => get b [k]) (seq 0 ka))))
      else Raise ValueError
  | ka :: ra, nb :: kb :: rb =>
      if ka =? kb
      then
        let pa := rev ra in
        let pb := rev rb in
        Ok (build (pa ++ pb ++ [nb]) (fun idx =>
              let I := firstn (length pa) idx in
              let J := firstn (length pb) (skipn (length pa) idx) in
              let m := nth (length pa + length pb) idx 0 in
              e_dot (map (fun k => get a (I ++ [k])) (seq 0 ka))
                    (map (fun k => get b (J ++ [k; m])) (seq 0 ka))))
      else Raise ValueError
  end.

(** [np.outer(a, b)]: both operands are flattened. *)
Definition np_outer (a b : ndarray E) : ndarray E :=
  build [length (nd_data a); length (nd_data b)] (fun idx =>
    e_mul (nth (nth 0 idx 0) (nd_data a) dflt) (nth (nth 1 idx 0) (nd_data b) dflt)).

(** [np.sum(a)]: a 0-d result. *)
Definition np_sum_all (a : ndarray E) : ndarray E :=
  mk_ndarray [] [e_sum (nd_data a)].

(** The flat positions of an array of shape [s] whose multi-index, with
    the coordinates listed in [axes] removed, is [idx'], in increasing
    order. *)
Definition summed_positions (s axes idx' : list nat) : list nat :=
  filter (fun k => list_eqb Nat.eqb (drop_axes axes (unravel s k)) idx')
         (seq 0 (size_of s)).

(** Sum over the axes listed in [axes] (already normalised): the element
    at [idx'] of the result is the sum of the elements of [a] whose
    multi-index, with the summed coordinates removed, is [idx']. *)
Definition sum_over (a : ndarray E) (axes : list nat) : ndarray E :=
  build (drop_axes axes (nd_shape a)) (fun idx' =>
    e_sum (map (fun k => nth k (nd_data a) dflt)
               (summed_positions (nd_shape a) axes idx'))).

(** [np.sum(a, axis=axes)] for a tuple of axes: every axis of the tuple
    must be in range, on a 0-d array too; the empty tuple sums over no
    axis. *)
Definition np_sum_axes (a : ndarray E) (axes : list Z) : result (ndarray E) :=
  axs <- map_result (py_pos ValueError (ndim a)) axes ;;
  if nodupb axs then Ok (sum_over a axs) else Raise ValueError.

(** [np.sum(a, axis=k)] for an int [k].  On a 0-d array numpy lets the
    axes 0 and -1 through and reduces over no axis. *)
Definition np_sum_axis (a : ndarray E) (axis : Z) : result (ndarray E) :=
  if (ndim a =? 0) && ((axis =? 0) || (axis =? -1))%Z
  then Ok (sum_over a [])
  else np_sum_axes a [axis].

(** [np.ones(shape)] *)
Definition np_ones (t : list Z) : result (ndarray E) :=
  s <- to_shape t ;; Ok (build s (fun _ => e_one)).

Definition np_binop (op : E -> E -> E) (a b : ndarray E) : result (ndarray E) :=
  match np_broadcast_shape (nd_shape a) (nd_shape b) with
  | None => Raise ValueError
  | Some s =>
      Ok (build s (fun idx =>
            op (get a (bc_index (nd_shape a) idx)) (get b (bc_index (nd_shape b) idx))))
  end.

(** [a + b] *)
Definition np_add : ndarray E -> ndarray E -> result (ndarray E) := np_binop e_add.

(** [a * b] *)
Definition np_mul : ndarray E -> ndarray E -> result (ndarray E) := np_binop e_mul.

End Arithmetic.

(* ================================================================== *)
(** ** The [util.broadcast] helper *)

Fixpoint broadcast_aligned (a b : list Z) : option (list Z) :=
  match a, b with
  | [], _ => Some b
  | _, [] => Some a
  | x :: a', y :: b' =>
      match broadcast_aligned a' b' with
      | None => None
      | Some r =>
          if (x =? y)%Z then Some (x :: r)
          else if (x =? 1)%Z then Some (y :: r)
          else if (y =? 1)%Z then Some (x :: r)
          else None
      end
  end.

(** Modelled from the spec: [util.broadcast] is imported by
    [matrix_ops.py] but its file is not part of the sources.  Section 4.1:
    the two shapes are right-aligned; an aligned pair is compatible when
    the two dimensions are equal or one of them is 1, and the result takes
    the dimension that is not 1; dimensions missing on the shorter shape
    count as 1; incompatible shapes give [None]. *)
Definition broadcast (shape_a shape_b : list Z) : option (list Z) :=
  option_map (@rev Z) (broadcast_aligned (rev shape_a) (rev shape_b)).

(* ================================================================== *)
(** ** Nodes *)

Section Nodes.

(** The random source and the input bindings are opaque to the matrix
    operations: they are handed to the operands unchanged.  [E] is the
    type of the elements of the arrays. *)
Variables Rng Inputs E : Type.

Context {D : Dtype E}.

(** Modelled from the spec: the base class [Differentiable] is imported
    from the package but its file is not part of the sources.  Sections 3
    and 4.2: a node has an identity (nodes are compared by reference, here
    the handle [node_id]), a [shape(inputs=None)] that needs no data, and a
    [value(rng, inputs)] that is a function of its arguments; both may
    raise.  [local_grad] calls [value()] and [shape()] without arguments,
    which is [None] for each. *)
Record Differentiable : Type := mk_node {
  node_id : nat;
  shape : option Inputs -> result (list Z);
  value : option Rng -> option Inputs -> result (ndarray E)
}.

(** [p is q], and [p == q] (the base class compares by identity). *)
Definition same_node (p q : Differentiable) : bool := node_id p =? node_id q.

(** Modelled from the spec: the leaf classes are not part of the sources.
    Glossary: a leaf is a node with no operands that stands for a bound
    input value; its declared shape is the shape of that value. *)
Definition Leaf (id : nat) (v : ndarray E) : Differentiable :=
  mk_node id (fun _ => Ok (shape_of v)) (fun _ _ => Ok v).

(** *** class MatMult *)

Record MatMult : Type := mk_MatMult {
  mm_id : nat;
  mm_A : Differentiable;
  mm_B : Differentiable
}.

Definition MatMult_compute_value (self : MatMult)
    (rng : option Rng) (inputs : option Inputs) : result (ndarray E) :=
  a <- value (mm_A self) rng inputs ;;
  b <- value (mm_B self) rng inputs ;;
  np_dot a b.

Definition MatMult_local_grad (self : MatMult) (parent : Differentiable)
    (d_out_d_self : ndarray E) : result (ndarray E) :=
  if same_node parent (mm_A self) then
    b_shape <- shape (mm_B self) None ;;
    if length b_shape =? 1 then
      b <- value (mm_B self) None None ;;
      Ok (np_outer d_out_d_self b)
    else
      b <- value (mm_B self) None None ;;
      np_dot d_out_d_self (np_T b)
  else if same_node parent (mm_B self) then
    a_shape <- shape (mm_A self) None ;;
    if length a_shape =? 1 then
      a <- value (mm_A self) None None ;;
      Ok (np_outer a d_out_d_self)
    else
      a <- value (mm_A self) None None ;;
      np_dot (np_T a) d_out_d_self
  else Raise NotAParentOfMe.

Definition MatMult_shape (self : MatMult) (inputs : option Inputs)
    : result (list Z) :=
  b_shape <- shape (mm_B self) inputs ;;
  if length b_shape =? 1 then
    a_shape <- shape (mm_A self) inputs ;;
    a0 <- py_index a_shape 0 ;;
    Ok [a0]
  else
    a_shape <- shape (mm_A self) inputs ;;
    a0 <- py_index a_shape 0 ;;
    b_shape' <- shape (mm_B self) inputs ;;
    b1 <- py_index b_shape' 1 ;;
    Ok [a0; b1].

(** The node seen through the base-class interface. *)
Definition MatMult_node (self : MatMult) : Differentiable :=
  mk_node (mm_id self) (MatMult_shape self) (MatMult_compute_value self).

(** The constructor body once [B] is settled: the inner-dimension check. *)
Definition MatMult_check (self_id : nat) (A B : Differentiable) : result MatMult :=
  a_shape <- shape A None ;;
  a1 <- py_index a_shape 1 ;;
  b_shape <- shape B None ;;
  b0 <- py_index b_shape 0 ;;
  if negb (a1 =? b0)%Z then Raise (CannotMultiply a_shape b_shape)
  else Ok (mk_MatMult self_id A B).

(** [MatMult(A, B, *args)]: further arguments are folded into [B] first.
    [self_id] is the identity of the object being initialised; the nested
    objects take the next ones. *)
Fixpoint MatMult_init (self_id : nat) (A B : Differentiable)
    (args : list Differentiable) : result MatMult :=
  match args with
  | [] => MatMult_check self_id A B
  | C :: args' =>
      inner <- MatMult_init (S self_id) B C args' ;;
      MatMult_check self_id A (MatMult_node inner)
  end.

(** *** class MatSum *)

(** The [axis] argument as the constructor receives it. *)
Inductive axis_arg : Type :=
| AxisNone
| AxisInt (k : Z)
| AxisOther.   (* any value whose type is not int, such as a tuple *)

Record MatSum : Type := mk_MatSum {
  ms_id : nat;
  ms_A : Differentiable;
  ms_axis : option Z
}.

Definition MatSum_init (self_id : nat) (A : Differentiable) (axis : axis_arg)
    : result MatSum :=
  match axis with
  | AxisOther => Raise OneAxisAtATime
  | AxisNone => Ok (mk_MatSum self_id A None)
  | AxisInt k => Ok (mk_MatSum self_id A (Some k))
  end.

Definition MatSum_compute_value (self : MatSum)
    (rng : option Rng) (inputs : option Inputs) : result (ndarray E) :=
  match ms_axis self with
  | None =>
      A_val <- value (ms_A self) rng inputs ;;
      np_reshape (np_sum_all A_val) (repeat 1%Z (length (shape_of A_val)))
  | Some axis =>
      A_val <- value (ms_A self) rng inputs ;;
      s <- np_sum_axis A_val axis ;;
      np_expand_dims s axis
  end.

Definition MatSum_local_grad (self : MatSum) (parent : Differentiable)
    (d_out_d_self : ndarray E) : result (ndarray E) :=
  if negb (same_node parent (ms_A self)) then Raise AssertionError
  else
    a_shape <- shape (ms_A self) None ;;
    ones <- np_ones a_shape ;;
    np_mul d_out_d_self ones.

Definition MatSum_shape (self : MatSum) (inputs : option Inputs)
    : result (list Z) :=
  match ms_axis self with
  | None =>
      a_shape <- shape (ms_A self) inputs ;;
      Ok (repeat 1%Z (length a_shape))
  | Some axis =>
      A_shape <- shape (ms_A self) inputs ;;
      py_setitem A_shape axis 1
  end.

Definition MatSum_node (self : MatSum) : Differentiable :=
  mk_node (ms_id self) (MatSum_shape self) (MatSum_compute_value self).

(** *** class MatAdd *)

Record MatAdd : Type := mk_MatAdd {
  ma_id : nat;
  ma_A : Differentiable;
  ma_B : Differentiable
}.

Definition MatAdd_compute_value (self : MatAdd)
    (rng : option Rng) (inputs : option Inputs) : result (ndarray E) :=
  a <- value (ma_A self) rng inputs ;;
  b <- value (ma_B self) rng inputs ;;
  np_add a b.

(** The loop of [axes_for_sum] over [enumerate(d_out_d_self_shape[::-1])];
    [mat_rev] is [mat_shape] read from its end, so that [pop()] takes its
    head, and [n] is [len(d_out_d_self_shape)]. *)
Fixpoint axes_for_sum_loop (n : Z) (dim : Z) (d_rev mat_rev to_sum : list Z)
    : list Z :=
  match d_rev with
  | [] => to_sum
  | _ :: d_rev' =>
      match mat_rev with
      | [] => axes_for_sum_loop n (dim + 1) d_rev' [] (to_sum ++ [n - dim - 1])%Z
      | m :: mat_rev' =>
          if (m =? 1)%Z
          then axes_for_sum_loop n (dim + 1) d_rev' mat_rev' (to_sum ++ [n - dim - 1])%Z
          else axes_for_sum_loop n (dim + 1) d_rev' mat_rev' to_sum
      end
  end.

Definition axes_for_sum (mat_shape d_out_d_self_shape : list Z) : list Z :=
  rev (axes_for_sum_loop (zlen d_out_d_self_shape) 0
         (rev d_out_d_self_shape) (rev mat_shape) []).

(** [parent.shape()] is read once here; the source calls it up to three
    times, each call returning the same tuple. *)
Definition MatAdd_local_grad (self : MatAdd) (parent : Differentiable)
    (d_out_d_self : ndarray E) : result (ndarray E) :=
  if same_node (ma_A self) (ma_B self) then Raise AssertionError
  else
    p_shape <- shape parent None ;;
    if tuple_eqb (shape_of (np_atleast_1d d_out_d_self)) p_shape
    then Ok d_out_d_self
    else
      let broadcast_axes := axes_for_sum p_shape (shape_of d_out_d_self) in
      s <- np_sum_axes d_out_d_self broadcast_axes ;;
      np_reshape s p_shape.

(** The source returns the result of [broadcast] as it is, [None]
    included.  A [None] shape makes its consumers in this module fail; the
    model raises where it is produced. *)
Definition MatAdd_shape (self : MatAdd) (inputs : option Inputs)
    : result (list Z) :=
  a_shape <- shape (ma_A self) inputs ;;
  b_shape <- shape (ma_B self) inputs ;;
  match broadcast a_shape b_shape with
  | Some s => Ok s
  | None => Raise TypeError
  end.

Definition MatAdd_node (self : MatAdd) : Differentiable :=
  mk_node (ma_id self) (MatAdd_shape self) (MatAdd_compute_value self).

Definition MatAdd_check (self_id : nat) (A B : Differentiable) : result MatAdd :=
  a_shape <- shape A None ;;
  b_shape <- shape B None ;;
  match broadcast a_shape b_shape with
  | None => Raise (NotBroadcastable a_shape b_shape)
  | Some _ => Ok (mk_MatAdd self_id A B)
  end.

Fixpoint MatAdd_init (self_id : nat) (A B : Differentiable)
    (args : list Differentiable) : result MatAdd :=
  match args with
  | [] => MatAdd_check self_id A B
  | C :: args' =>
      inner <- MatAdd_init (S self_id) B C args' ;;
      MatAdd_check self_id A (MatAdd_node inner)
  end.

(** *** class Transpose *)

Record Transpose : Type := mk_Transpose {
  tr_id : nat;
  tr_A : Differentiable;
  tr_axes : option (list Z)
}.

Definition Transpose_init (self_id : nat) (A : Differentiable)
    (axes : option (list Z)) : result Transpose :=
  Ok (mk_Transpose self_id A axes).

Definition Transpose_compute_value (self : Transpose)
    (rng : option Rng) (inputs : option Inputs) : result (ndarray E) :=
  a <- value (tr_A self) rng inputs ;;
  np_transpose a (tr_axes self).

Definition Transpose_local_grad (self : Transpose) (parent : Differentiable)
    (d_out_d_self : ndarray E) : result (ndarray E) :=
  match tr_axes self with
  | None => np_transpose d_out_d_self None
  | Some axes => np_transpose d_out_d_self (Some (np_argsort axes))
  end.

Definition Transpose_shape (self : Transpose) (inputs : option Inputs)
    : result (list Z) :=
  match tr_axes self with
  | None =>
      a_shape <- shape (tr_A self) inputs ;;
      Ok (rev a_shape)
  | Some axes =>
      a_shape <- shape (tr_A self) inputs ;;
      map_result (py_index a_shape) axes
  end.

Definition Transpose_node (self : Transpose) : Differentiable :=
  mk_node (tr_id self) (Transpose_shape self) (Transpose_compute_value self).

(** *** class Reshape *)

Record Reshape : Type := mk_Reshape {
  rs_id : nat;
  rs_A : Differentiable;
  rs_new_shape : list Z
}.

Definition Reshape_init (self_id : nat) (A : Differentiable)
    (new_shape : list Z) : result Reshape :=
  Ok (mk_Reshape self_id A new_shape).

Definition Reshape_compute_value (self : Reshape)
    (rng : option Rng) (inputs : option Inputs) : result (ndarray E) :=
  a <- value (rs_A self) rng inputs ;;
  np_reshape a (rs_new_shape self).

Definition Reshape_local_grad (self : Reshape) (parent : Differentiable)
    (d_out_d_self : ndarray E) : result (ndarray E) :=
  a_shape <- shape (rs_A self) None ;;
  np_reshape d_out_d_self a_shape.

Definition Reshape_shape (self : Reshape) (inputs : option Inputs)
    : result (list Z) :=
  Ok (rs_new_shape self).

Definition Reshape_node (self : Reshape) : Differentiable :=
  mk_node (rs_id self) (Reshape_shape self) (Reshape_compute_value self).

(** *** class Concatenate *)

Record Concatenate : Type := mk_Concatenate {
  ct_id : nat;
  ct_A : Differentiable;
  ct_B : Differentiable;
  ct_axis : Z
}.

Definition Concatenate_compute_value (self : Concatenate)
    (rng : option Rng) (inputs : option Inputs) : result (ndarray E) :=
  a <- value (ct_A self) rng inputs ;;
  b <- value (ct_B self) rng inputs ;;
  np_concatenate a b (ct_axis self).

Definition Concatenate_local_grad (self : Concatenate) (parent : Differentiable)
    (d_out_d_self : ndarray E) : result (ndarray E) :=
  if same_node (ct_A self) (ct_B self) then Raise AssertionError
  else
    a_shape <- shape (ct_A self) None ;;
    a_k <- py_index a_shape (ct_axis self) ;;
    parts <- np_split d_out_d_self a_k (ct_axis self) ;;
    let (local_grad_A, local_grad_B) := parts in
    if same_node parent (ct_A self) then Ok local_grad_A
    else if same_node parent (ct_B self) then Ok local_grad_B
    else Raise ParentMustBeAOrB.

Definition Concatenate_shape (self : Concatenate) (inputs : option Inputs)
    : result (list Z) :=
  a_shape <- shape (ct_A self) inputs ;;
  b_shape <- shape (ct_B self) inputs ;;
  a_k <- py_index a_shape (ct_axis self) ;;
  b_k <- py_index b_shape (ct_axis self) ;;
  py_setitem a_shape (ct_axis self) (a_k + b_k).

Definition Concatenate_node (self : Concatenate) : Differentiable :=
  mk_node (ct_id self) (Concatenate_shape self) (Concatenate_compute_value self).

Fixpoint Concatenate_init (self_id : nat) (axis : Z) (A B : Differentiable)
    (args : list Differentiable) : result Concatenate :=
  match args with
  | [] => Ok (mk_Concatenate self_id A B axis)
  | C :: args' =>
      inner <- Concatenate_init (S self_id) axis B C args' ;;
      Ok (mk_Concatenate self_id A (Concatenate_node inner) axis)
  end.

End Nodes.

Arguments mk_node {Rng Inputs E} node_id shape value.
Arguments Leaf {Rng Inputs E} id v.

(* ================================================================== *)
(** ** An element type for the examples *)

(** Integer-valued numpy scalars of the two usual dtypes: an int64, or a
    float64 whose value is an integer (the float64 of an int64 is one,
    and so are their sums and products). *)
Inductive scalar : Type :=
| I64 (z : Z)
| F64 (z : Z).

(** The int64 that an integer wraps to. *)
Definition wrap64 (z : Z) : Z := ((z + 2 ^ 63) mod 2 ^ 64 - 2 ^ 63)%Z.

(** The float64 nearest to an integer, ties to even: 53 significant bits
    (for integers below the overflow threshold of float64). *)
Definition round53 (z : Z) : Z :=
  let m := Z.abs z in
  let sh := (Z.log2 m - 52)%Z in
  if (sh <=? 0)%Z then z
  else
    let q := Z.shiftr m sh in
    let r := (m - Z.shiftl q sh)%Z in
    let half := Z.shiftl 1 (sh - 1) in
    let q' := if (half <? r)%Z || ((r =? half)%Z && Z.odd q) then (q + 1)%Z else q in
    (Z.sgn z * Z.shiftl q' sh)%Z.

Definition as_float (x : scalar) : Z :=
  match x with
  | I64 z => round53 z
  | F64 z => z
  end.

(** A binary operation: on two int64 it wraps; as soon as one operand is a
    float64 the other is converted and the result is rounded. *)
Definition scalar_op (op : Z -> Z -> Z) (x y : scalar) : scalar :=
  match x, y with
  | I64 a, I64 b => I64 (wrap64 (op a b))
  | _, _ => F64 (round53 (op (as_float x) (as_float y)))
  end.

(** Sums are taken in the order of the sequence, which does not matter
    on int64, nor on float64 as long as the partial sums are below 2^53.
    The sum of no element is 0; the empty sequence does not tell its
    dtype, and the int64 0 is taken. *)
Definition scalar_sum (l : list scalar) : scalar :=
  match l with
  | [] => I64 0
  | x :: l' => fold_left (scalar_op Z.add) l' x
  end.

Definition scalar_dot (r c : list scalar) : scalar :=
  scalar_sum (map (fun xy => scalar_op Z.mul (fst xy) (snd xy)) (combine r c)).

Definition scalar_default : Default scalar := I64 0.

Definition scalar_dtype : Dtype scalar := {|
  e_default := scalar_default;
  e_one := F64 1;
  e_add := scalar_op Z.add;
  e_mul := scalar_op Z.mul;
  e_sum := scalar_sum;
  e_dot := scalar_dot;
  e_sum_one := fun x => eq_refl
|}.

(* ================================================================== *)
(** ** Concrete nodes for the examples *)

(** Nodes over trivial random sources and input bindings, with arrays of
    [scalar]s. *)
Definition node : Type := Differentiable unit unit scalar.

(** The int64 array of shape [s] with the elements [v]. *)
Definition arr (s : list nat) (v : list Z) : ndarray scalar :=
  mk_ndarray s (map I64 v).

Definition leaf (id : nat) (s : list nat) (v : list Z) : node :=
  Leaf id (arr s v).

(** The array of shape [s] filled with the element of [np.ones]. *)
Definition ones {E : Type} {D : Dtype E} (s : list nat) : ndarray E :=
  build s (fun _ => e_one).

(* ================================================================== *)
(** ** Notions used to state the properties *)

(** The elements of [l] at the positions where [mask] is [true]. *)
Fixpoint keep_mask (mask : list bool) (l : list nat) : list nat :=
  match mask, l with
  | b :: mask', x :: l' => if b then x :: keep_mask mask' l' else keep_mask mask' l'
  | _, _ => []
  end.

(** The coordinates of [idx] on the dimensions of [p] that are not 1. *)
Definition squeeze (p idx : list nat) : list nat :=
  keep_mask (map (fun d => negb (d =? 1)) p) idx.

(** The axes of an output of shape [ds] along which an operand of shape
    [p] is broadcast: those the operand's shape does not have, and those
    where it has extent 1. *)
Definition broadcast_axes (p ds : list nat) : list nat :=
  let off := length ds - length p in
  filter (fun i => (i <? off) || (nth (i - off) p 0 =? 1)) (seq 0 (length ds)).

(** The flat positions of an output of shape [ds], in increasing order,
    whose element the forward broadcast forms from the element at [idx]
    of an operand of shape [p]. *)
Definition broadcast_positions (p ds idx : list nat) : list nat :=
  filter (fun k => list_eqb Nat.eqb (bc_index p (unravel ds k)) idx)
         (seq 0 (size_of ds)).

(** An operand of shape [p] broadcasts to the shape [ds]: the dimensions
    of [p], aligned at the end of [ds], are 1 or the dimension of [ds]. *)
Definition broadcasts_to (p ds : list nat) : Prop :=
  exists h t, ds = h ++ t /\ Forall2 (fun x y => x = 1 \/ x = y) p t.

(** The declared shape of a node agrees with its value whenever the value
    can be computed. *)
Definition shape_matches_value {Rng Inputs E : Type} (P : Differentiable Rng Inputs E)
    (rng : option Rng) (inputs : option Inputs) : Prop :=
  forall v, value P rng inputs = Ok v -> shape P inputs = Ok (shape_of v).

(** The node [P] with a value that cannot be evaluated. *)
Definition without_value {Rng Inputs E : Type} (P : Differentiable Rng Inputs E)
    : Differentiable Rng Inputs E :=
  mk_node (node_id P) (shape P) (fun _ _ => Raise ValueError).

(** The positions of [l] are listed by non-decreasing [key]. *)
Inductive key_sorted (key : nat -> Z) : list nat -> Prop :=
| ks_nil : key_sorted key []
| ks_cons i l : (forall j, In j l -> (key i <= key j)%Z) -> key_sorted key l ->
    key_sorted key (i :: l).

(** The test of the loop of [axes_for_sum] at the [j]-th dimension counted
    from the end: the operand's shape [p] is used up, or its dimension
    there is 1. *)
Definition summed_from_end (p : list nat) (j : nat) : bool :=
  (length p <=? j) || (nth j (rev p) 0 =? 1).

(* ================================================================== *)
(** ** Chains of operands *)

(** A chain of matrices multiplies through: the columns [c] of the matrix
    on the left are the rows of the next one, and so on along [rest], a
    list of (rows, columns). *)
Fixpoint chain_ok (c : Z) (rest : list (Z * Z)) : bool :=
  match rest with
  | [] => true
  | (r', c') :: rest' => (c =? r')%Z && chain_ok c' rest'
  end.

(** The columns of the last matrix of the chain. *)
Fixpoint last_cols (c : Z) (rest : list (Z * Z)) : Z :=
  match rest with
  | [] => c
  | (_, c') :: rest' => last_cols c' rest'
  end.

(** [l] without its entry at position [k]. *)
Fixpoint remove_at (k : nat) (l : list nat) : list nat :=
  match l, k with
  | [], _ => []
  | _ :: l', O => l'
  | x :: l', S k' => x :: remove_at k' l'
  end.

Definition nat_sum (l : list nat) : nat := fold_right Nat.add 0 l.

(* ================================================================== *)
(** ** The MNIST file parsers of [examples/data.py] *)

(** The parsers read the decompressed content of a file, here the list of
    its bytes; [gzip.open] and the download are not part of the model. *)

(** What the parsers raise: [struct.error] from [struct.unpack], or the
    exception of [np.reshape]. *)
Inductive data_error : Type :=
| struct_error
| numpy_error (e : error).

Inductive parsed (T : Type) : Type :=
| Parsed (x : T)
| Failed (e : data_error).

Arguments Parsed {T} x.
Arguments Failed {T} e.

Definition byte_val (b : Byte.byte) : Z := Z.of_N (Byte.to_N b).

(** The arrays of the parsers hold uint8 elements, given by their value. *)
Definition uint8_default : Default Z := 0%Z.

(** One field of format [">I"]: four bytes, most significant first. *)
Definition be_uint (bs : list Byte.byte) : Z :=
  fold_left (fun acc b => (acc * 256 + byte_val b)%Z) bs 0%Z.

Fixpoint unpack_fields (n : nat) (s : list Byte.byte) : list Z :=
  match n with
  | O => []
  | S n' => be_uint (firstn 4 s) :: unpack_fields n' (skipn 4 s)
  end.

(** [struct.unpack(">I..I", s)] with [n] fields: [s] must hold exactly
    [4 * n] bytes. *)
Definition struct_unpack (n : nat) (s : list Byte.byte) : option (list Z) :=
  if length s =? 4 * n then Some (unpack_fields n s) else None.

(** [fh.read(n)]: up to [n] bytes, and what is left of the stream. *)
Definition read (n : nat) (fh : list Byte.byte) : list Byte.byte * list Byte.byte :=
  (firstn n fh, skipn n fh).

(** [np.array(array.array("B", s), dtype=np.uint8)] *)
Definition uint8_array (s : list Byte.byte) : ndarray Z :=
  mk_ndarray [length s] (map byte_val s).

Definition parse_labels (fh : list Byte.byte) : parsed (ndarray Z) :=
  let (header, rest) := read 8 fh in
  match struct_unpack 2 header with
  | Some [magic; num_data] => Parsed (uint8_array rest)
  | _ => Failed struct_error
  end.

Definition parse_images (fh : list Byte.byte) : parsed (ndarray Z) :=
  let (header, rest) := read 16 fh in
  match struct_unpack 4 header with
  | Some [magic; num_data; rows; cols] =>
      match np_reshape (uint8_array rest) [num_data; rows; cols] with
      | Ok v => Parsed v
      | Raise e => Failed (numpy_error e)
      end
  | _ => Failed struct_error
  end.
Unset Implicit Arguments.

(* ================================================================== *)
(** ** Index arithmetic *)

Lemma valid_indexb_spec s idx : valid_indexb s idx = true <-> valid_index s idx.
Proof.
  revert idx; induction s as [|d s IH]; intros [|i idx]; simpl.
  - split; [constructor | reflexivity].
  - split; [discriminate | intros H; inversion H].
  - split; [discriminate | intros H; inversion H].
  - rewrite andb_true_iff, Nat.ltb_lt, IH. split.
    + intros [H1 H2]. constructor; assumption.
    + intros H. inversion H; subst. split; assumption.
Qed.

Lemma valid_index_length s idx : valid_index s idx -> length idx = length s.
Proof. apply Forall2_length. Qed.

Lemma ravel_lt s idx : valid_index s idx -> ravel s idx < size_of s.
Proof.
  intros H. induction H as [|i d idx s Hi _ IH]; simpl.
  - lia.
  - change (fold_right Nat.mul 1 s) with (size_of s). nia.
Qed.

Lemma unravel_ravel s idx : valid_index s idx -> unravel s (ravel s idx) = idx.
Proof.
  intros H. induction H as [|i d idx s Hi Hv IH]; simpl.
  - reflexivity.
  - pose proof (ravel_lt _ _ Hv) as Hlt.
    assert (Hnz : size_of s <> 0) by lia.
    f_equal.
    + rewrite Nat.div_add_l by assumption.
      rewrite Nat.div_small by assumption. lia.
    + rewrite Nat.add_comm, Nat.Div0.mod_add.
      rewrite Nat.mod_small by assumption. exact IH.
Qed.

Lemma unravel_valid s k : k < size_of s -> valid_index s (unravel s k).
Proof.
  revert k; induction s as [|d s IH]; intros k Hk; simpl.
  - constructor.
  - simpl in Hk. change (fold_right Nat.mul 1 s) with (size_of s) in Hk.
    assert (Hnz : size_of s <> 0) by nia.
    constructor.
    + apply Nat.Div0.div_lt_upper_bound. nia.
    + apply IH. apply Nat.mod_upper_bound. assumption.
Qed.

Lemma ravel_unravel s k : k < size_of s -> ravel s (unravel s k) = k.
Proof.
  revert k; induction s as [|d s IH]; intros k Hk; simpl.
  - simpl in Hk. lia.
  - simpl in Hk. change (fold_right Nat.mul 1 s) with (size_of s) in Hk.
    assert (Hnz : size_of s <> 0) by nia.
    rewrite IH by (apply Nat.mod_upper_bound; assumption).
    pose proof (Nat.div_mod_eq k (size_of s)). nia.
Qed.

(** *** Arrays given by their entries *)

Section ArrayEntries.

Context {Elt : Type} {DE : Default Elt}.

Lemma build_wf s (f : list nat -> Elt) : wf (build s f).
Proof. unfold wf, build; simpl. rewrite length_map, length_seq. reflexivity. Qed.

Lemma get_build s (f : list nat -> Elt) idx : valid_index s idx -> get (build s f) idx = f idx.
Proof.
  intros H. unfold get, build; simpl.
  pose proof (ravel_lt _ _ H) as Hlt.
  rewrite nth_indep with (d' := f (unravel s 0))
    by (rewrite length_map, length_seq; assumption).
  rewrite (map_nth (fun k => f (unravel s k)) (seq 0 (size_of s)) 0).
  rewrite seq_nth by assumption. simpl.
  rewrite unravel_ravel by assumption. reflexivity.
Qed.

Lemma build_ext s (f g : list nat -> Elt) :
  (forall idx, valid_index s idx -> f idx = g idx) -> build s f = build s g.
Proof.
  intros H. unfold build. f_equal.
  apply map_ext_in. intros k Hk. apply in_seq in Hk.
  apply H. apply unravel_valid. lia.
Qed.

Lemma build_get (a : ndarray Elt) : wf a -> build (nd_shape a) (get a) = a.
Proof.
  destruct a as [s d]. unfold wf, build, get; simpl. intros Hlen.
  f_equal.
  apply nth_ext with (d := dflt) (d' := dflt).
  - rewrite length_map, length_seq. symmetry; assumption.
  - intros n Hn. rewrite length_map, length_seq in Hn.
    rewrite nth_indep with (d' := nth (ravel s (unravel s 0)) d dflt)
      by (rewrite length_map, length_seq; assumption).
    rewrite (map_nth (fun k => nth (ravel s (unravel s k)) d dflt)).
    rewrite seq_nth by assumption. simpl.
    rewrite ravel_unravel by assumption. reflexivity.
Qed.

End ArrayEntries.

(* ================================================================== *)
(** ** Results *)

Lemma bind_ok {T U : Type} (r : result T) (k : T -> result U) (y : U) :
  bind r k = Ok y -> exists x, r = Ok x /\ k x = Ok y.
Proof. destruct r as [x|e]; simpl; [eauto | discriminate]. Qed.

Ltac inv_bind H :=
  let x := fresh "x" in
  let Hx := fresh "Hx" in
  apply bind_ok in H; destruct H as [x [Hx H]].

Lemma py_pos_nat e n k : k < n -> py_pos e n (Z.of_nat k) = Ok k.
Proof.
  intros Hk. unfold py_pos.
  replace ((- Z.of_nat n <=? Z.of_nat k)%Z) with true by (symmetry; apply Z.leb_le; lia).
  replace ((Z.of_nat k <? Z.of_nat n)%Z) with true by (symmetry; apply Z.ltb_lt; lia).
  replace ((Z.of_nat k <? 0)%Z) with false by (symmetry; apply Z.ltb_ge; lia).
  simpl. rewrite Nat2Z.id. reflexivity.
Qed.

Lemma py_pos_ok e n i k : py_pos e n i = Ok k ->
  k < n /\ (- Z.of_nat n <= i < Z.of_nat n)%Z /\
  Z.of_nat k = (if (i <? 0)%Z then i + Z.of_nat n else i)%Z.
Proof.
  unfold py_pos.
  destruct (- Z.of_nat n <=? i)%Z eqn:H1; simpl; [|discriminate].
  destruct (i <? Z.of_nat n)%Z eqn:H2; simpl; [|discriminate].
  apply Z.leb_le in H1. apply Z.ltb_lt in H2.
  intros H; injection H as <-.
  destruct (i <? 0)%Z eqn:H3.
  - apply Z.ltb_lt in H3. repeat split; lia.
  - apply Z.ltb_ge in H3. repeat split; lia.
Qed.

Lemma map_result_py_pos_nat e n q :
  (forall x, In x q -> x < n) -> map_result (py_pos e n) (map Z.of_nat q) = Ok q.
Proof.
  induction q as [|x q IH]; intros H; simpl.
  - reflexivity.
  - rewrite py_pos_nat by (apply H; left; reflexivity). simpl.
    rewrite IH by (intros y Hy; apply H; right; assumption). reflexivity.
Qed.

(* ================================================================== *)
(** ** Axis permutations *)

Lemma is_perm_spec n p :
  is_perm n p = true ->
  length p = n /\ NoDup p /\ (forall x, In x p <-> x < n).
Proof.
  unfold is_perm. rewrite andb_true_iff, Nat.eqb_eq, forallb_forall.
  intros [Hlen Hall].
  assert (Hperm : Permutation (seq 0 n) p).
  { apply NoDup_Permutation_bis.
    - apply seq_NoDup.
    - rewrite length_seq. lia.
    - intros x Hx. specialize (Hall x Hx).
      apply existsb_exists in Hall. destruct Hall as [y [Hy Hxy]].
      apply Nat.eqb_eq in Hxy. subst. assumption. }
  split; [assumption|]. split.
  - eapply Permutation_NoDup; [exact Hperm | apply seq_NoDup].
  - intros x. split; intros Hx.
    + apply Permutation_sym in Hperm.
      apply (Permutation_in _ Hperm) in Hx. apply in_seq in Hx. lia.
    + apply (Permutation_in _ Hperm). apply in_seq. lia.
Qed.

Lemma is_perm_intro n p :
  length p = n -> (forall x, x < n -> In x p) -> is_perm n p = true.
Proof.
  intros Hlen Hin. unfold is_perm.
  rewrite andb_true_iff, Nat.eqb_eq, forallb_forall. split; [assumption|].
  intros x Hx. apply in_seq in Hx. apply existsb_exists.
  exists x. split; [apply Hin; lia | apply Nat.eqb_refl].
Qed.

Lemma index_of_in k p :
  In k p -> index_of k p < length p /\ nth (index_of k p) p 0 = k.
Proof.
  induction p as [|x p IH]; simpl; intros H.
  - contradiction.
  - destruct (x =? k) eqn:E.
    + apply Nat.eqb_eq in E. split; [lia | assumption].
    + apply Nat.eqb_neq in E. destruct H as [H|H]; [contradiction|].
      destruct (IH H). split; [lia | assumption].
Qed.

Lemma index_of_nth p i :
  NoDup p -> i < length p -> index_of (nth i p 0) p = i.
Proof.
  revert i; induction p as [|x p IH]; intros i Hnd Hi; simpl in *.
  - lia.
  - inversion Hnd as [|? ? Hnotin Hnd']; subst.
    destruct i as [|i].
    + rewrite Nat.eqb_refl. reflexivity.
    + destruct (x =? nth i p 0) eqn:E.
      * apply Nat.eqb_eq in E. exfalso. apply Hnotin. rewrite E.
        apply nth_In. lia.
      * f_equal. apply IH; [assumption | lia].
Qed.

Lemma length_gather l p : length (gather l p) = length p.
Proof. apply length_map. Qed.

Lemma length_inv_perm p : length (inv_perm p) = length p.
Proof. unfold inv_perm. rewrite length_map, length_seq. reflexivity. Qed.

Lemma nth_gather l p i : i < length p -> nth i (gather l p) 0 = nth (nth i p 0) l 0.
Proof.
  intros Hi. unfold gather.
  rewrite nth_indep with (d' := (fun j => nth j l 0) 0) by (rewrite length_map; assumption).
  apply (map_nth (fun j => nth j l 0)).
Qed.

Lemma nth_inv_perm p k : k < length p -> nth k (inv_perm p) 0 = index_of k p.
Proof.
  intros Hk. unfold inv_perm.
  rewrite nth_indep with (d' := (fun j => index_of j p) 0)
    by (rewrite length_map, length_seq; assumption).
  rewrite (map_nth (fun j => index_of j p)). rewrite seq_nth by assumption.
  reflexivity.
Qed.

Lemma gather_seq l : gather l (seq 0 (length l)) = l.
Proof.
  apply nth_ext with (d := 0) (d' := 0).
  - rewrite length_gather, length_seq. reflexivity.
  - intros i Hi. rewrite length_gather, length_seq in Hi.
    rewrite nth_gather by (rewrite length_seq; assumption).
    rewrite seq_nth by assumption. reflexivity.
Qed.

Lemma gather_gather l p q :
  (forall i, In i q -> i < length p) ->
  gather (gather l p) q = gather l (gather p q).
Proof.
  intros H. unfold gather at 1 3 4. rewrite map_map.
  apply map_ext_in. intros i Hi.
  apply nth_gather. apply H. assumption.
Qed.

Lemma gather_inv_perm n p :
  is_perm n p = true -> gather p (inv_perm p) = seq 0 n.
Proof.
  intros H. destruct (is_perm_spec _ _ H) as [Hlen [_ Hin]].
  unfold gather, inv_perm. rewrite map_map, Hlen.
  rewrite <- (map_id (seq 0 n)) at 2.
  apply map_ext_in. intros k Hk. apply in_seq in Hk.
  apply index_of_in. apply Hin. lia.
Qed.

Lemma inv_perm_is_perm n p :
  is_perm n p = true -> is_perm n (inv_perm p) = true.
Proof.
  intros H. destruct (is_perm_spec _ _ H) as [Hlen [Hnd Hin]].
  apply is_perm_intro.
  - rewrite length_inv_perm. assumption.
  - intros x Hx.
    (* position x of p holds some k; then k is sent to x *)
    assert (Hk : In (nth x p 0) p) by (apply nth_In; lia).
    apply Hin in Hk.
    replace x with (nth (nth x p 0) (inv_perm p) 0).
    + apply nth_In. rewrite length_inv_perm. lia.
    + rewrite nth_inv_perm by lia. apply index_of_nth; [assumption | lia].
Qed.

Lemma inv_perm_involutive n p :
  is_perm n p = true -> inv_perm (inv_perm p) = p.
Proof.
  intros H. destruct (is_perm_spec _ _ H) as [Hlen [Hnd Hin]].
  pose proof (inv_perm_is_perm _ _ H) as H'.
  destruct (is_perm_spec _ _ H') as [Hlen' [Hnd' Hin']].
  apply nth_ext with (d := 0) (d' := 0).
  - rewrite !length_inv_perm. reflexivity.
  - intros k Hk. rewrite !length_inv_perm in Hk.
    rewrite nth_inv_perm by (rewrite length_inv_perm; assumption).
    assert (Hpk : nth k p 0 < n) by (apply Hin; apply nth_In; assumption).
    replace k with (nth (nth k p 0) (inv_perm p) 0) at 1.
    + apply index_of_nth; [assumption | rewrite length_inv_perm; lia].
    + rewrite nth_inv_perm by lia. apply index_of_nth; assumption.
Qed.

Lemma valid_index_nth s idx i :
  valid_index s idx -> i < length s -> nth i idx 0 < nth i s 0.
Proof.
  intros H. revert i. induction H as [|x d idx s Hx _ IH]; intros i Hi; simpl in *.
  - lia.
  - destruct i; [assumption | apply IH; lia].
Qed.

Lemma valid_index_intro s idx :
  length idx = length s ->
  (forall i, i < length s -> nth i idx 0 < nth i s 0) ->
  valid_index s idx.
Proof.
  revert idx; induction s as [|d s IH]; intros [|x idx] Hlen H; simpl in *;
    try discriminate.
  - constructor.
  - constructor.
    + apply (H 0). lia.
    + apply IH; [lia|]. intros i Hi. apply (H (S i)). lia.
Qed.

Lemma valid_index_gather s idx p :
  valid_index s idx -> (forall i, In i p -> i < length s) ->
  valid_index (gather s p) (gather idx p).
Proof.
  intros Hv Hp. induction p as [|x p IH]; simpl.
  - constructor.
  - constructor.
    + apply valid_index_nth; [assumption | apply Hp; left; reflexivity].
    + apply IH. intros i Hi. apply Hp. right. assumption.
Qed.

(** Transposing by [p] and then by its inverse gives the array back. *)
Lemma transpose_by_inverse {Elt : Type} {DE : Default Elt} (a : ndarray Elt) p :
  wf a -> is_perm (ndim a) p = true ->
  transpose_by (transpose_by a p) (inv_perm p) = a.
Proof.
  intros Hwf Hp.
  destruct (is_perm_spec _ _ Hp) as [Hlen [Hnd Hin]].
  pose proof (inv_perm_is_perm _ _ Hp) as Hq.
  destruct (is_perm_spec _ _ Hq) as [Hlenq [Hndq Hinq]].
  unfold ndim in *.
  assert (Hshape : gather (gather (nd_shape a) p) (inv_perm p) = nd_shape a).
  { rewrite gather_gather by (intros i Hi; apply Hinq in Hi; lia).
    rewrite (gather_inv_perm _ _ Hp). apply gather_seq. }
  unfold transpose_by at 1. simpl nd_shape. rewrite Hshape.
  rewrite (inv_perm_involutive _ _ Hp).
  transitivity (build (nd_shape a) (get a)); [|apply build_get; assumption].
  apply build_ext. intros idx Hidx.
  unfold transpose_by.
  rewrite get_build
    by (apply valid_index_gather; [assumption | intros i Hi; apply Hin; assumption]).
  rewrite gather_gather by (intros i Hi; apply Hinq in Hi; lia).
  rewrite (gather_inv_perm _ _ Hp).
  rewrite <- (valid_index_length _ _ Hidx). rewrite gather_seq. reflexivity.
Qed.

(** The reversal of the axes is its own inverse. *)
Lemma rev_seq_is_perm n : is_perm n (rev (seq 0 n)) = true.
Proof.
  apply is_perm_intro.
  - rewrite length_rev, length_seq. reflexivity.
  - intros x Hx. apply in_rev. rewrite rev_involutive. apply in_seq. lia.
Qed.

Lemma nth_rev_seq n i : i < n -> nth i (rev (seq 0 n)) 0 = n - 1 - i.
Proof.
  intros Hi. rewrite rev_nth by (rewrite length_seq; assumption).
  rewrite length_seq. rewrite seq_nth by lia. lia.
Qed.

Lemma inv_perm_rev_seq n : inv_perm (rev (seq 0 n)) = rev (seq 0 n).
Proof.
  pose proof (rev_seq_is_perm n) as Hp.
  destruct (is_perm_spec _ _ Hp) as [Hlen [Hnd Hin]].
  apply nth_ext with (d := 0) (d' := 0).
  - apply length_inv_perm.
  - intros k Hk. rewrite length_inv_perm, Hlen in Hk.
    rewrite nth_inv_perm by lia.
    rewrite nth_rev_seq by assumption.
    replace k with (nth (n - 1 - k) (rev (seq 0 n)) 0) at 1
      by (rewrite nth_rev_seq by lia; lia).
    apply index_of_nth; [assumption | lia].
Qed.

(* ================================================================== *)
(** ** [np.argsort] of a permutation is its inverse *)

Section Argsort.

Variable key : nat -> Z.

Lemma insert_by_perm i l : Permutation (insert_by key i l) (i :: l).
Proof.
  induction l as [|j l IH]; simpl.
  - apply Permutation_refl.
  - destruct (key i <=? key j)%Z.
    + apply Permutation_refl.
    + eapply Permutation_trans; [apply perm_skip; exact IH | apply perm_swap].
Qed.

Lemma insert_by_sorted i l : key_sorted key l -> key_sorted key (insert_by key i l).
Proof.
  intros H. induction H as [|j l Hj Hl IH]; simpl.
  - constructor; [intros j [] | constructor].
  - destruct (key i <=? key j)%Z eqn:E.
    + apply Z.leb_le in E. constructor.
      * intros k [<-|Hk]; [assumption|]. specialize (Hj k Hk). lia.
      * constructor; assumption.
    + apply Z.leb_gt in E. constructor; [|assumption].
      intros k Hk. apply (Permutation_in _ (insert_by_perm i l)) in Hk.
      destruct Hk as [<-|Hk]; [lia | apply Hj; assumption].
Qed.

Lemma isort_perm l : Permutation (fold_right (insert_by key) [] l) l.
Proof.
  induction l as [|i l IH]; simpl.
  - apply Permutation_refl.
  - eapply Permutation_trans; [apply insert_by_perm | apply perm_skip; exact IH].
Qed.

Lemma isort_sorted l : key_sorted key (fold_right (insert_by key) [] l).
Proof.
  induction l as [|i l IH]; simpl; [constructor | apply insert_by_sorted; exact IH].
Qed.

End Argsort.

(** A list without repetition whose elements are [a .. a+n-1] in
    non-decreasing order is [seq a n]. *)
Lemma sorted_perm_seq l : forall a n,
  Permutation l (seq a n) ->
  (forall i j, i < j < length l -> nth i l 0 <= nth j l 0) ->
  l = seq a n.
Proof.
  induction l as [|x l IH]; intros a n Hperm Hsorted.
  - apply Permutation_nil in Hperm. symmetry. assumption.
  - destruct n as [|n].
    { apply Permutation_sym, Permutation_nil in Hperm. discriminate. }
    assert (Hnd : NoDup (x :: l)).
    { eapply Permutation_NoDup; [apply Permutation_sym; exact Hperm | apply seq_NoDup]. }
    assert (Hx : x = a).
    { assert (Ha : In a (x :: l)).
      { apply (Permutation_in _ (Permutation_sym Hperm)). simpl. left. reflexivity. }
      destruct Ha as [Ha|Ha]; [assumption|].
      apply (In_nth _ _ 0) in Ha. destruct Ha as [k [Hk Hnth]].
      specialize (Hsorted 0 (S k)). simpl in Hsorted. rewrite Hnth in Hsorted.
      assert (Hxin : In x (seq a (S n))).
      { apply (Permutation_in _ Hperm). left. reflexivity. }
      apply in_seq in Hxin.
      assert (x <= a) by (apply Hsorted; lia). lia. }
    subst x. simpl. f_equal.
    apply IH.
    + simpl in Hperm. apply Permutation_cons_inv in Hperm. assumption.
    + intros i j Hij. apply (Hsorted (S i) (S j)). simpl. lia.
Qed.

Lemma key_sorted_nth key l :
  key_sorted key l ->
  forall i j, i < j < length l -> (key (nth i l 0%nat) <= key (nth j l 0%nat))%Z.
Proof.
  intros H. induction H as [|x l Hx Hl IH]; intros i j Hij; simpl in *.
  - lia.
  - destruct j as [|j]; [lia|]. destruct i as [|i].
    + apply Hx. apply nth_In. lia.
    + apply IH. lia.
Qed.

Lemma np_argsort_perm n p :
  is_perm n p = true ->
  np_argsort (map Z.of_nat p) = map Z.of_nat (inv_perm p).
Proof.
  intros Hp. destruct (is_perm_spec _ _ Hp) as [Hlen [Hnd Hin]].
  unfold np_argsort. f_equal. rewrite length_map, Hlen.
  set (key := fun i => nth i (map Z.of_nat p) 0%Z).
  set (q := fold_right (insert_by key) [] (seq 0 n)).
  assert (Hq : Permutation q (seq 0 n)) by apply isort_perm.
  assert (Hqlen : length q = n).
  { rewrite (Permutation_length Hq). apply length_seq. }
  assert (Hqin : forall x, In x q -> x < n).
  { intros x Hx. apply (Permutation_in _ Hq) in Hx. apply in_seq in Hx. lia. }
  assert (Hkey : forall i, i < n -> key i = Z.of_nat (nth i p 0)).
  { intros i Hi. unfold key. change 0%Z with (Z.of_nat 0). apply map_nth. }
  (* the keys read along q are 0, 1, ..., n-1 *)
  assert (Hval : gather p q = seq 0 n).
  { apply sorted_perm_seq.
    - unfold gather. eapply Permutation_trans.
      + apply Permutation_map. exact Hq.
      + change (map (fun i => nth i p 0) (seq 0 n)) with (gather p (seq 0 n)).
        rewrite <- Hlen at 1. rewrite gather_seq.
        apply Permutation_sym.
        apply NoDup_Permutation_bis; [apply seq_NoDup | rewrite length_seq; lia |].
        intros x Hx. apply Hin. apply in_seq in Hx. lia.
    - intros i j Hij. rewrite length_gather in Hij.
      rewrite !nth_gather by lia.
      pose proof (@key_sorted_nth _ _ (isort_sorted key (seq 0 n)) i j) as Hs.
      fold q in Hs. specialize (Hs ltac:(lia)).
      rewrite !Hkey in Hs by (apply Hqin; apply nth_In; lia). lia. }
  apply nth_ext with (d := 0) (d' := 0).
  - rewrite length_inv_perm. lia.
  - intros k Hk. rewrite Hqlen in Hk.
    rewrite nth_inv_perm by lia.
    assert (Hk' : nth k (gather p q) 0 = k) by (rewrite Hval; apply seq_nth; assumption).
    rewrite nth_gather in Hk' by lia.
    rewrite <- Hk' at 2. symmetry.
    apply index_of_nth; [assumption|]. rewrite Hlen. apply Hqin. apply nth_In. lia.
Qed.

Lemma np_transpose_perm {Elt : Type} {DE : Default Elt} (a : ndarray Elt) p :
  is_perm (ndim a) p = true ->
  np_transpose a (Some (map Z.of_nat p)) = Ok (transpose_by a p).
Proof.
  intros Hp. destruct (is_perm_spec _ _ Hp) as [Hlen [Hnd Hin]].
  unfold np_transpose.
  rewrite map_result_py_pos_nat by (intros x Hx; apply Hin; assumption).
  simpl. rewrite Hp. reflexivity.
Qed.

Lemma ndim_transpose_by {Elt : Type} {DE : Default Elt} (a : ndarray Elt) p : length p = ndim a -> ndim (transpose_by a p) = ndim a.
Proof. intros H. unfold ndim. simpl. rewrite length_gather. assumption. Qed.

(* ================================================================== *)
(** ** Shapes as tuples of ints *)

Lemma shape_of_length {Elt : Type} (a : ndarray Elt) : length (shape_of a) = ndim a.
Proof. unfold shape_of, ndim. apply length_map. Qed.

Lemma map_to_nat_of_nat s : map Z.to_nat (map Z.of_nat s) = s.
Proof.
  rewrite map_map. rewrite <- (map_id s) at 2.
  apply map_ext. intros x. apply Nat2Z.id.
Qed.

Lemma map_of_nat_inj s t : map Z.of_nat s = map Z.of_nat t -> s = t.
Proof.
  intros H. rewrite <- (map_to_nat_of_nat s), <- (map_to_nat_of_nat t), H.
  reflexivity.
Qed.

Lemma to_shape_of_nat s : to_shape (map Z.of_nat s) = Ok s.
Proof.
  unfold to_shape.
  replace (forallb (fun d => (0 <=? d)%Z) (map Z.of_nat s)) with true.
  - rewrite map_to_nat_of_nat. reflexivity.
  - symmetry. apply forallb_forall. intros x Hx.
    apply in_map_iff in Hx. destruct Hx as [k [<- _]]. apply Z.leb_le. lia.
Qed.

Lemma to_shape_ok t s : to_shape t = Ok s -> t = map Z.of_nat s.
Proof.
  unfold to_shape. destruct (forallb _ t) eqn:E; [|discriminate].
  intros H; injection H as <-.
  rewrite map_map. rewrite <- (map_id t) at 1.
  apply map_ext_in. intros x Hx.
  rewrite forallb_forall in E. specialize (E x Hx). apply Z.leb_le in E.
  symmetry. apply Z2Nat.id. assumption.
Qed.

Lemma count_negative_of_nat s : count_negative (map Z.of_nat s) = 0.
Proof.
  unfold count_negative. induction s as [|x s IH]; simpl.
  - reflexivity.
  - replace (Z.of_nat x <? 0)%Z with false by (symmetry; apply Z.ltb_ge; lia).
    assumption.
Qed.

Lemma count_negative_repeat_1 n : count_negative (repeat 1%Z n) = 0.
Proof.
  unfold count_negative. induction n as [|n IH]; [reflexivity|].
  cbn [repeat filter]. change (1 <? 0)%Z with false. exact IH.
Qed.

(** A tuple without a negative entry is a shape. *)
Lemma count_negative_0 t : count_negative t = 0 -> t = map Z.of_nat (map Z.to_nat t).
Proof.
  unfold count_negative. induction t as [|x t IH]; cbn [filter map]; [reflexivity|].
  destruct (Z.ltb_spec x 0) as [Hx|Hx]; cbn [length]; [discriminate|].
  intros H. rewrite <- (IH H). rewrite Z2Nat.id by assumption. reflexivity.
Qed.

Lemma tuple_eqb_eq t u : tuple_eqb t u = true <-> t = u.
Proof.
  unfold tuple_eqb. revert u; induction t as [|x t IH]; intros [|y u]; simpl.
  - split; reflexivity.
  - split; discriminate.
  - split; discriminate.
  - rewrite andb_true_iff, Z.eqb_eq, IH. split.
    + intros [-> ->]. reflexivity.
    + intros H; injection H as -> ->. split; reflexivity.
Qed.

Lemma list_eqb_nat_eq (t u : list nat) : list_eqb Nat.eqb t u = true <-> t = u.
Proof.
  revert u; induction t as [|x t IH]; intros [|y u]; simpl.
  - split; reflexivity.
  - split; discriminate.
  - split; discriminate.
  - rewrite andb_true_iff, Nat.eqb_eq, IH. split.
    + intros [-> ->]. reflexivity.
    + intros H; injection H as -> ->. split; reflexivity.
Qed.

(* ================================================================== *)
(** ** [np.reshape] *)

Section Reshape.

Context {Elt : Type}.

Lemma np_reshape_to (a : ndarray Elt) s :
  length (nd_data a) = size_of s ->
  np_reshape a (map Z.of_nat s) = Ok (mk_ndarray s (nd_data a)).
Proof.
  intros H. unfold np_reshape.
  rewrite count_negative_of_nat, to_shape_of_nat. simpl.
  rewrite H, Nat.eqb_refl. reflexivity.
Qed.

Lemma np_reshape_data (a : ndarray Elt) t b : np_reshape a t = Ok b -> nd_data b = nd_data a.
Proof.
  unfold np_reshape.
  destruct (count_negative t) as [|[|c]]; [| |discriminate].
  - destruct (to_shape t) as [s|]; simpl; [|discriminate].
    destruct (size_of s =? _); [|discriminate].
    intros H; injection H as <-. reflexivity.
  - destruct (_ || _); [discriminate|].
    intros H; injection H as <-. reflexivity.
Qed.

Lemma np_reshape_explicit (a : ndarray Elt) t b :
  count_negative t = 0 -> np_reshape a t = Ok b -> shape_of b = t.
Proof.
  unfold np_reshape. intros ->.
  destruct (to_shape t) as [s|] eqn:Es; simpl; [|discriminate].
  destruct (size_of s =? _); [|discriminate].
  intros H; injection H as <-. unfold shape_of; simpl.
  symmetry. apply to_shape_ok. assumption.
Qed.

(** Reshaping back to the shape the data came from. *)
Lemma np_reshape_back (X : ndarray Elt) t Y :
  wf X -> np_reshape X t = Ok Y -> np_reshape Y (shape_of X) = Ok X.
Proof.
  intros Hwf HY. unfold shape_of.
  rewrite np_reshape_to.
  - rewrite (np_reshape_data _ _ _ HY). destruct X; reflexivity.
  - rewrite (np_reshape_data _ _ _ HY). exact Hwf.
Qed.

End Reshape.

Lemma to_shape_of_nat_ones {Elt : Type} {D : Dtype Elt} s :
  np_ones (map Z.of_nat s) = Ok (build s (fun _ => e_one)).
Proof. unfold np_ones. rewrite to_shape_of_nat. reflexivity. Qed.

(* ================================================================== *)
(** ** List update *)

Lemma length_set_nth {T : Type} k (v : T) l : length (set_nth k v l) = length l.
Proof.
  revert k; induction l as [|x l IH]; intros [|k]; simpl; try reflexivity.
  f_equal. apply IH.
Qed.

Lemma nth_set_nth_same {T : Type} k (v d : T) l :
  k < length l -> nth k (set_nth k v l) d = v.
Proof.
  revert k; induction l as [|x l IH]; intros [|k] Hk; simpl in *; try lia.
  - reflexivity.
  - apply IH. lia.
Qed.

Lemma nth_set_nth_other {T : Type} k j (v d : T) l :
  k <> j -> nth j (set_nth k v l) d = nth j l d.
Proof.
  revert k j; induction l as [|x l IH]; intros [|k] [|j] Hkj; simpl;
    try reflexivity; try lia.
  apply IH. lia.
Qed.

Lemma set_nth_twice {T : Type} k (v w : T) l :
  set_nth k v (set_nth k w l) = set_nth k v l.
Proof.
  revert k; induction l as [|x l IH]; intros [|k]; simpl; try reflexivity.
  f_equal. apply IH.
Qed.

Lemma set_nth_nth {T : Type} k (d : T) l : set_nth k (nth k l d) l = l.
Proof.
  revert k; induction l as [|x l IH]; intros [|k]; simpl; try reflexivity.
  f_equal. apply IH.
Qed.

Lemma map_set_nth {T U : Type} (f : T -> U) k v l :
  map f (set_nth k v l) = set_nth k (f v) (map f l).
Proof.
  revert k; induction l as [|x l IH]; intros [|k]; simpl; try reflexivity.
  f_equal. apply IH.
Qed.

Lemma valid_index_set_nth s idx k c i :
  k < length s ->
  valid_index (set_nth k c s) idx -> i < nth k s 0 ->
  valid_index s (set_nth k i idx).
Proof.
  intros Hk Hv Hi.
  pose proof (valid_index_length _ _ Hv) as Hlen. rewrite length_set_nth in Hlen.
  apply valid_index_intro.
  - rewrite length_set_nth. assumption.
  - intros j Hj. destruct (Nat.eq_dec k j) as [<-|Hne].
    + rewrite nth_set_nth_same by lia. assumption.
    + rewrite nth_set_nth_other by assumption.
      pose proof (valid_index_nth _ _ j Hv) as H.
      rewrite length_set_nth, nth_set_nth_other in H by assumption.
      apply H. assumption.
Qed.

(* ================================================================== *)
(** ** [np.split] and [np.concatenate] *)

Lemma slice_bound_nat n a : slice_bound n (Z.of_nat a) = Nat.min a n.
Proof.
  unfold slice_bound.
  replace (Z.of_nat a <? 0)%Z with false by (symmetry; apply Z.ltb_ge; lia).
  rewrite Nat2Z.id. reflexivity.
Qed.

(** Splitting at [a] along axis [ax] an array whose extent there is
    [a + b]: the shapes, the elements, and joining the pieces again. *)
Section JoinSplit.

Context {Elt : Type} {DE : Default Elt}.

Lemma np_split_spec (d : ndarray Elt) axis ax a b :
  wf d ->
  py_pos IndexError (ndim d) axis = Ok ax ->
  nth ax (nd_shape d) 0 = a + b ->
  exists l r,
    np_split d (Z.of_nat a) axis = Ok (l, r) /\
    wf l /\ wf r /\
    nd_shape l = set_nth ax a (nd_shape d) /\
    nd_shape r = set_nth ax b (nd_shape d) /\
    (forall idx, valid_index (nd_shape l) idx -> get l idx = get d idx) /\
    (forall idx, valid_index (nd_shape r) idx ->
       get r idx = get d (set_nth ax (nth ax idx 0 + a) idx)).
Proof.
  intros Hwf Hax Hn. unfold np_split. rewrite Hax. simpl.
  rewrite Hn, slice_bound_nat.
  replace (Nat.min a (a + b)) with a by lia.
  replace (a + b - a) with b by lia.
  eexists; eexists. split; [reflexivity|].
  split; [apply build_wf|]. split; [apply build_wf|].
  split; [reflexivity|]. split; [reflexivity|].
  split; intros idx Hidx; simpl in Hidx; rewrite get_build by assumption;
    reflexivity.
Qed.

Lemma same_except_set_nth ax a b s :
  same_except ax (set_nth ax a s) (set_nth ax b s) = true.
Proof.
  unfold same_except. rewrite !set_nth_twice. apply list_eqb_nat_eq. reflexivity.
Qed.

Lemma np_concatenate_split (d : ndarray Elt) axis ax a b l r :
  wf d ->
  py_pos IndexError (ndim d) axis = Ok ax ->
  nth ax (nd_shape d) 0 = a + b ->
  nd_shape l = set_nth ax a (nd_shape d) ->
  nd_shape r = set_nth ax b (nd_shape d) ->
  (forall idx, valid_index (nd_shape l) idx -> get l idx = get d idx) ->
  (forall idx, valid_index (nd_shape r) idx ->
     get r idx = get d (set_nth ax (nth ax idx 0 + a) idx)) ->
  np_concatenate l r axis = Ok d.
Proof.
  intros Hwf Hax Hn Hl Hr Hgl Hgr.
  destruct (py_pos_ok _ _ _ _ Hax) as [Hlt [Hrange Heq]].
  unfold ndim in Hlt.
  unfold np_concatenate, ndim. rewrite Hl, Hr, !length_set_nth, Nat.eqb_refl. simpl.
  assert (Hax' : py_pos ValueError (length (nd_shape d)) axis = Ok ax).
  { unfold py_pos in *. unfold ndim in Hax.
    destruct ((_ <=? _)%Z && (_ <? _)%Z); [assumption | discriminate]. }
  rewrite Hax'. simpl. rewrite same_except_set_nth.
  rewrite !nth_set_nth_same by assumption.
  rewrite set_nth_twice, <- Hn, set_nth_nth.
  f_equal. transitivity (build (nd_shape d) (get d)); [|apply build_get; assumption].
  apply build_ext. intros idx Hidx.
  pose proof (valid_index_length _ _ Hidx) as Hlen.
  pose proof (valid_index_nth _ _ ax Hidx Hlt) as Hi. rewrite Hn in Hi.
  destruct (nth ax idx 0 <? a) eqn:E.
  - apply Nat.ltb_lt in E. apply Hgl. rewrite Hl.
    rewrite <- (set_nth_nth ax 0 idx).
    apply valid_index_set_nth with (c := a + b).
    + rewrite length_set_nth. assumption.
    + rewrite set_nth_twice, <- Hn, set_nth_nth. assumption.
    + rewrite nth_set_nth_same by assumption. assumption.
  - apply Nat.ltb_ge in E. rewrite Hgr.
    + rewrite nth_set_nth_same by lia. rewrite set_nth_twice.
      replace (nth ax idx 0 - a + a) with (nth ax idx 0) by lia.
      rewrite set_nth_nth. reflexivity.
    + rewrite Hr. apply valid_index_set_nth with (c := a + b).
      * rewrite length_set_nth. assumption.
      * rewrite set_nth_twice, <- Hn, set_nth_nth. assumption.
      * rewrite nth_set_nth_same by assumption. lia.
Qed.

End JoinSplit.
(* ================================================================== *)
(** ** [np.dot], [np.outer] and [.T] on vectors and matrices *)

Lemma valid_index_2_intro m n i j : i < m -> j < n -> valid_index [m; n] [i; j].
Proof. intros Hi Hj. repeat constructor; assumption. Qed.

Lemma valid_index_1_intro m i : i < m -> valid_index [m] [i].
Proof. intros Hi. repeat constructor; assumption. Qed.

Section Products.

Context {Elt : Type} {D : Dtype Elt}.

(** Matrix times matrix: the entry at (i,j) is numpy's sum of products of
    row [i] of [a] and column [j] of [b]. *)
Lemma np_dot_matrix_matrix (a b : ndarray Elt) m k n :
  nd_shape a = [m; k] -> nd_shape b = [k; n] ->
  exists c, np_dot a b = Ok c /\ wf c /\ nd_shape c = [m; n] /\
    forall i j, i < m -> j < n ->
      get c [i; j] = e_dot (map (fun l => get a [i; l]) (seq 0 k))
                           (map (fun l => get b [l; j]) (seq 0 k)).
Proof.
  intros Ha Hb. unfold np_dot. rewrite Ha, Hb. simpl. rewrite Nat.eqb_refl.
  eexists. split; [reflexivity|]. split; [apply build_wf|].
  split; [reflexivity|].
  intros i j Hi Hj. rewrite get_build by (apply valid_index_2_intro; assumption).
  reflexivity.
Qed.

(** Matrix times vector. *)
Lemma np_dot_matrix_vector (a b : ndarray Elt) m k :
  nd_shape a = [m; k] -> nd_shape b = [k] ->
  exists c, np_dot a b = Ok c /\ wf c /\ nd_shape c = [m] /\
    forall i, i < m ->
      get c [i] = e_dot (map (fun l => get a [i; l]) (seq 0 k))
                        (map (fun l => get b [l]) (seq 0 k)).
Proof.
  intros Ha Hb. unfold np_dot. rewrite Ha, Hb. simpl. rewrite Nat.eqb_refl.
  eexists. split; [reflexivity|]. split; [apply build_wf|].
  split; [reflexivity|].
  intros i Hi. rewrite get_build by (apply valid_index_1_intro; assumption).
  reflexivity.
Qed.

(** The transpose of a matrix. *)
Lemma np_T_matrix (a : ndarray Elt) m k :
  nd_shape a = [m; k] ->
  nd_shape (np_T a) = [k; m] /\
  forall i j, i < k -> j < m -> get (np_T a) [i; j] = get a [j; i].
Proof.
  intros Ha. unfold np_T, transpose_by, ndim. rewrite Ha. simpl.
  split; [reflexivity|].
  intros i j Hi Hj. rewrite get_build by (apply valid_index_2_intro; assumption).
  reflexivity.
Qed.

Lemma get_vector (a : ndarray Elt) m i : nd_shape a = [m] -> get a [i] = nth i (nd_data a) dflt.
Proof.
  intros Ha. unfold get. rewrite Ha. simpl. f_equal. lia.
Qed.

(** The outer product of two vectors. *)
Lemma np_outer_vectors (a b : ndarray Elt) m k :
  wf a -> wf b -> nd_shape a = [m] -> nd_shape b = [k] ->
  nd_shape (np_outer a b) = [m; k] /\
  forall i j, i < m -> j < k ->
    get (np_outer a b) [i; j] = e_mul (get a [i]) (get b [j]).
Proof.
  intros Hwa Hwb Ha Hb. unfold wf in *. rewrite Ha in Hwa. rewrite Hb in Hwb.
  simpl in Hwa, Hwb.
  unfold np_outer. rewrite Hwa, Hwb, !Nat.mul_1_r. split; [reflexivity|].
  intros i j Hi Hj. rewrite get_build by (apply valid_index_2_intro; assumption).
  simpl. rewrite (get_vector a m), (get_vector b k) by assumption. reflexivity.
Qed.

End Products.

(* ================================================================== *)
(** ** Broadcasting of shapes *)

Lemma broadcast_aligned_of_nat a : forall b,
  broadcast_aligned (map Z.of_nat a) (map Z.of_nat b) =
  option_map (map Z.of_nat) (broadcast_rev a b).
Proof.
  induction a as [|x a IH]; intros [|y b]; simpl; try reflexivity.
  rewrite IH. destruct (broadcast_rev a b) as [r|]; simpl; [|reflexivity].
  replace (Z.of_nat x =? Z.of_nat y)%Z with (x =? y)
    by (destruct (Nat.eqb_spec x y); symmetry;
        [apply Z.eqb_eq | apply Z.eqb_neq]; lia).
  replace (Z.of_nat x =? 1)%Z with (x =? 1)
    by (destruct (Nat.eqb_spec x 1); symmetry;
        [apply Z.eqb_eq | apply Z.eqb_neq]; lia).
  replace (Z.of_nat y =? 1)%Z with (y =? 1)
    by (destruct (Nat.eqb_spec y 1); symmetry;
        [apply Z.eqb_eq | apply Z.eqb_neq]; lia).
  destruct (x =? y); [reflexivity|].
  destruct (x =? 1); [reflexivity|].
  destruct (y =? 1); reflexivity.
Qed.

(** The helper of the graph code and numpy agree on the broadcast shape. *)
Lemma broadcast_of_nat a b :
  broadcast (map Z.of_nat a) (map Z.of_nat b) =
  option_map (map Z.of_nat) (np_broadcast_shape a b).
Proof.
  unfold broadcast, np_broadcast_shape.
  rewrite <- !map_rev, broadcast_aligned_of_nat.
  destruct (broadcast_rev (rev a) (rev b)); simpl; [|reflexivity].
  rewrite map_rev. reflexivity.
Qed.

Lemma broadcast_some_nat a b ds :
  broadcast (map Z.of_nat a) (map Z.of_nat b) = Some (map Z.of_nat ds) ->
  np_broadcast_shape a b = Some ds.
Proof.
  rewrite broadcast_of_nat. destruct (np_broadcast_shape a b) as [s|]; simpl.
  - intros H. injection H as H. apply map_of_nat_inj in H. subst. reflexivity.
  - discriminate.
Qed.

(** On shapes read from the end: both operands broadcast to the result. *)
Lemma broadcast_rev_compat a : forall b r,
  broadcast_rev a b = Some r ->
  (exists t h, r = t ++ h /\ Forall2 (fun x y => x = 1 \/ x = y) a t) /\
  (exists t h, r = t ++ h /\ Forall2 (fun x y => x = 1 \/ x = y) b t).
Proof.
  induction a as [|x a IH]; intros b r H.
  - simpl in H. injection H as <-. split.
    + exists [], b. split; [reflexivity | constructor].
    + exists b, []. split; [symmetry; apply app_nil_r|].
      induction b; constructor; auto.
  - destruct b as [|y b].
    + simpl in H. injection H as <-. split.
      * exists (x :: a), []. split; [symmetry; apply app_nil_r|].
        clear IH. induction (x :: a); constructor; auto.
      * exists [], (x :: a). split; [reflexivity | constructor].
    + simpl in H. destruct (broadcast_rev a b) as [r'|] eqn:E; [|discriminate].
      destruct (IH b r' E) as [[ta [ha [Hra Hfa]]] [tb [hb [Hrb Hfb]]]].
      destruct (Nat.eqb_spec x y) as [Hxy|Hxy].
      { injection H as <-. subst y. split.
        - exists (x :: ta), ha. split; [simpl; f_equal; assumption|].
          constructor; [right; reflexivity | assumption].
        - exists (x :: tb), hb. split; [simpl; f_equal; assumption|].
          constructor; [right; reflexivity | assumption]. }
      destruct (Nat.eqb_spec x 1) as [Hx1|Hx1].
      { injection H as <-. split.
        - exists (y :: ta), ha. split; [simpl; f_equal; assumption|].
          constructor; [left; assumption | assumption].
        - exists (y :: tb), hb. split; [simpl; f_equal; assumption|].
          constructor; [right; reflexivity | assumption]. }
      destruct (Nat.eqb_spec y 1) as [Hy1|Hy1]; [|discriminate].
      injection H as <-. split.
      * exists (x :: ta), ha. split; [simpl; f_equal; assumption|].
        constructor; [right; reflexivity | assumption].
      * exists (x :: tb), hb. split; [simpl; f_equal; assumption|].
        constructor; [left; assumption | assumption].
Qed.

Lemma Forall2_rev {T U : Type} (R : T -> U -> Prop) l1 l2 :
  Forall2 R l1 l2 -> Forall2 R (rev l1) (rev l2).
Proof.
  intros H. induction H as [|x y l1 l2 Hxy _ IH]; simpl.
  - constructor.
  - apply Forall2_app; [assumption | constructor; [assumption | constructor]].
Qed.

Lemma broadcasts_to_of_rev p ds :
  (exists t h, rev ds = t ++ h /\ Forall2 (fun x y => x = 1 \/ x = y) (rev p) t) ->
  broadcasts_to p ds.
Proof.
  intros [t [h [Hr Hf]]]. exists (rev h), (rev t). split.
  - rewrite <- rev_app_distr, <- Hr, rev_involutive. reflexivity.
  - rewrite <- (rev_involutive p). apply Forall2_rev. assumption.
Qed.

Lemma np_broadcast_shape_compat a b ds :
  np_broadcast_shape a b = Some ds -> broadcasts_to a ds /\ broadcasts_to b ds.
Proof.
  unfold np_broadcast_shape.
  destruct (broadcast_rev (rev a) (rev b)) as [r|] eqn:E; simpl; [|discriminate].
  intros H. injection H as <-.
  destruct (broadcast_rev_compat _ _ _ E) as [Ha Hb].
  split; apply broadcasts_to_of_rev; rewrite rev_involutive; assumption.
Qed.

(** A shape whose dimensions are 1 or those of [s] broadcasts with [s] to
    [s]. *)
Lemma broadcast_rev_onto a : forall s,
  Forall2 (fun x y => x = 1 \/ x = y) a s -> broadcast_rev a s = Some s.
Proof.
  induction a as [|x a IH]; intros s H; inversion H as [|? y ? s' Hxy Hrest]; subst.
  - reflexivity.
  - simpl. rewrite (IH s' Hrest).
    destruct (Nat.eqb_spec x y) as [->|Hne]; [reflexivity|].
    destruct Hxy as [->|Hxy]; [reflexivity | contradiction].
Qed.

Lemma np_broadcast_shape_onto a s :
  Forall2 (fun x y => x = 1 \/ x = y) a s -> np_broadcast_shape a s = Some s.
Proof.
  intros H. unfold np_broadcast_shape.
  rewrite (broadcast_rev_onto _ _ (Forall2_rev _ _ _ H)). simpl.
  rewrite rev_involutive. reflexivity.
Qed.

(* ================================================================== *)
(** ** Summing over axes *)

Lemma length_unravel s k : length (unravel s k) = length s.
Proof.
  revert k; induction s as [|d s IH]; intros k; simpl; [reflexivity|].
  f_equal. apply IH.
Qed.

Lemma mem_nat_in k l : mem_nat k l = true <-> In k l.
Proof.
  unfold mem_nat. rewrite existsb_exists. split.
  - intros [x [Hx E]]. apply Nat.eqb_eq in E. subst. assumption.
  - intros H. exists k. split; [assumption | apply Nat.eqb_refl].
Qed.

Lemma nodupb_NoDup l : NoDup l -> nodupb l = true.
Proof.
  intros H. induction H as [|x l Hx _ IH]; simpl; [reflexivity|].
  rewrite IH, andb_true_r. apply negb_true_iff.
  destruct (mem_nat x l) eqn:E; [|reflexivity].
  apply mem_nat_in in E. contradiction.
Qed.

Lemma drop_axes_from_mask axes l : forall pos,
  drop_axes_from pos axes l =
  keep_mask (map (fun i => negb (mem_nat i axes)) (seq pos (length l))) l.
Proof.
  induction l as [|x l IH]; intros pos; simpl; [reflexivity|].
  rewrite IH. destruct (mem_nat pos axes); reflexivity.
Qed.

Lemma keep_mask_skip off : forall h m t,
  length h = off -> keep_mask (repeat false off ++ m) (h ++ t) = keep_mask m t.
Proof.
  induction off as [|off IH]; intros h m t Hh.
  - destruct h; [reflexivity | discriminate].
  - destruct h as [|x h]; [discriminate|]. simpl. apply IH.
    simpl in Hh. lia.
Qed.

Lemma mem_broadcast_axes p ds i :
  i < length ds ->
  mem_nat i (broadcast_axes p ds) =
  (i <? length ds - length p) || (nth (i - (length ds - length p)) p 0 =? 1).
Proof.
  intros Hi. unfold broadcast_axes.
  set (f := fun i => (i <? length ds - length p) || (nth (i - (length ds - length p)) p 0 =? 1)).
  change (mem_nat i (filter f (seq 0 (length ds))) = f i).
  destruct (f i) eqn:E.
  - apply mem_nat_in. apply filter_In. split; [apply in_seq; lia | assumption].
  - destruct (mem_nat i (filter f (seq 0 (length ds)))) eqn:E'; [|reflexivity].
    apply mem_nat_in in E'. apply filter_In in E'. destruct E' as [_ E'].
    rewrite E in E'. discriminate.
Qed.

Lemma broadcast_axes_mask p ds off :
  length ds = off + length p ->
  map (fun i => negb (mem_nat i (broadcast_axes p ds))) (seq 0 (length ds)) =
  repeat false off ++ map (fun d => negb (d =? 1)) p.
Proof.
  intros Hlen.
  apply nth_ext with (d := true) (d' := true).
  - rewrite length_map, length_seq, length_app, repeat_length, length_map. assumption.
  - intros i Hi. rewrite length_map, length_seq in Hi.
    rewrite nth_indep with (d' := (fun i => negb (mem_nat i (broadcast_axes p ds))) 0)
      by (rewrite length_map, length_seq; assumption).
    rewrite (map_nth (fun i => negb (mem_nat i (broadcast_axes p ds)))).
    rewrite seq_nth by assumption. simpl.
    rewrite mem_broadcast_axes by assumption.
    replace (length ds - length p) with off by lia.
    destruct (Nat.ltb_spec i off) as [Hlt|Hge]; simpl.
    + rewrite app_nth1 by (rewrite repeat_length; assumption).
      symmetry. apply nth_repeat_lt. assumption.
    + rewrite app_nth2 by (rewrite repeat_length; assumption).
      rewrite repeat_length.
      rewrite nth_indep with (d' := (fun d => negb (d =? 1)) 0)
        by (rewrite length_map; lia).
      rewrite (map_nth (fun d => negb (d =? 1))). reflexivity.
Qed.

(** Dropping the broadcast axes from a multi-index of the output leaves the
    coordinates on the operand's dimensions that are not 1. *)
Lemma drop_broadcast_axes p ds h t :
  length (h ++ t) = length ds -> length t = length p ->
  drop_axes (broadcast_axes p ds) (h ++ t) = squeeze p t.
Proof.
  intros Hlen Ht. unfold drop_axes. rewrite drop_axes_from_mask, Hlen.
  rewrite length_app in Hlen.
  rewrite (broadcast_axes_mask p ds (length h)) by lia.
  apply keep_mask_skip. reflexivity.
Qed.

Lemma squeeze_compat p : forall t,
  Forall2 (fun x y => x = 1 \/ x = y) p t -> squeeze p t = squeeze p p.
Proof.
  unfold squeeze. induction p as [|x p IH]; intros t H;
    inversion H as [|? y ? t' Hxy Hrest]; subst; simpl.
  - reflexivity.
  - destruct (Nat.eqb_spec x 1) as [Hx|Hx]; simpl.
    + apply IH. assumption.
    + destruct Hxy as [Hxy|Hxy]; [contradiction|]. subst. f_equal. apply IH. assumption.
Qed.

Lemma size_of_squeeze p : size_of (squeeze p p) = size_of p.
Proof.
  unfold squeeze. induction p as [|x p IH]; simpl; [reflexivity|].
  destruct (Nat.eqb_spec x 1) as [Hx|Hx]; simpl.
  - unfold size_of in *. rewrite IH. subst. lia.
  - unfold size_of in *. simpl. rewrite IH. reflexivity.
Qed.

Lemma squeeze_valid p idx :
  valid_index p idx -> valid_index (squeeze p p) (squeeze p idx).
Proof.
  unfold squeeze. intros H. induction H as [|i d idx p Hi _ IH]; simpl.
  - constructor.
  - destruct (d =? 1); simpl; [assumption | constructor; assumption].
Qed.

Lemma ravel_squeeze p idx :
  valid_index p idx -> ravel (squeeze p p) (squeeze p idx) = ravel p idx.
Proof.
  intros H. induction H as [|i d idx p Hi Hv IH]; simpl.
  - reflexivity.
  - unfold squeeze in *. simpl.
    destruct (Nat.eqb_spec d 1) as [Hd|Hd]; simpl.
    + rewrite IH. assert (i = 0) by lia. subst. lia.
    + rewrite IH. f_equal. f_equal. apply size_of_squeeze.
Qed.

(** The multi-index read in the operand by the forward broadcast is [idx]
    exactly when both agree on the dimensions that are not 1. *)
Lemma bc_index_squeeze p : forall t idx,
  length t = length p -> valid_index p idx ->
  list_eqb Nat.eqb (squeeze p t) (squeeze p idx) =
  list_eqb Nat.eqb
    (map (fun di => if fst di =? 1 then 0 else snd di) (combine p t)) idx.
Proof.
  unfold squeeze. induction p as [|d p IH]; intros t idx Ht Hv;
    inversion Hv as [|i ? idx' ? Hi Hv']; subst.
  - destruct t; [reflexivity | discriminate].
  - destruct t as [|j t]; [discriminate|]. simpl.
    destruct (Nat.eqb_spec d 1) as [Hd|Hd]; simpl.
    + assert (i = 0) by lia. subst i. simpl. apply IH; [simpl in Ht; lia | assumption].
    + f_equal. apply IH; [simpl in Ht; lia | assumption].
Qed.

Lemma bc_index_app p h t :
  length t = length p ->
  bc_index p (h ++ t) = map (fun di => if fst di =? 1 then 0 else snd di) (combine p t).
Proof.
  intros Ht. unfold bc_index. rewrite length_app, Ht.
  replace (length h + length p - length p) with (length h) by lia.
  rewrite skipn_app, skipn_all, Nat.sub_diag. reflexivity.
Qed.

(** The reshaped sum over the broadcast axes, element by element: the
    entry at [idx] is numpy's sum of the entries of [d] at the output
    positions that the forward broadcast fills from [idx]. *)
Lemma broadcast_adjoint {Elt : Type} {D : Dtype Elt} (d : ndarray Elt) p idx :
  wf d -> broadcasts_to p (nd_shape d) -> valid_index p idx ->
  get (mk_ndarray p (nd_data (sum_over d (broadcast_axes p (nd_shape d))))) idx =
  e_sum (map (fun k => nth k (nd_data d) dflt)
             (broadcast_positions p (nd_shape d) idx)).
Proof.
  intros Hwf [h [t [Hds Hf]]] Hidx.
  set (ds := nd_shape d) in *.
  pose proof (Forall2_length Hf) as Hlen.
  assert (Hs' : drop_axes (broadcast_axes p ds) ds = squeeze p p).
  { rewrite Hds at 2. rewrite drop_broadcast_axes.
    - apply squeeze_compat. assumption.
    - rewrite Hds. reflexivity.
    - symmetry. assumption. }
  unfold get, sum_over. simpl. fold ds. rewrite Hs'.
  assert (Hr : ravel p idx < size_of (squeeze p p)).
  { rewrite size_of_squeeze. apply ravel_lt. assumption. }
  match goal with |- nth _ (map ?F _) _ = _ =>
    rewrite nth_indep with (d' := F 0) by (rewrite length_map, length_seq; assumption);
    rewrite (map_nth F)
  end.
  rewrite seq_nth by assumption. simpl.
  rewrite <- (ravel_squeeze p idx Hidx).
  rewrite unravel_ravel by (apply squeeze_valid; assumption).
  f_equal. f_equal. unfold summed_positions, broadcast_positions.
  apply filter_ext_in. intros k Hk.
  pose proof (length_unravel ds k) as HJ.
  set (J := unravel ds k) in *.
  assert (HJs : J = firstn (length h) J ++ skipn (length h) J)
    by (symmetry; apply firstn_skipn).
  assert (Hsk : length (skipn (length h) J) = length p).
  { rewrite length_skipn, HJ, Hds, length_app. lia. }
  rewrite HJs. rewrite drop_broadcast_axes.
  - rewrite bc_index_app by assumption.
    rewrite bc_index_squeeze by assumption. reflexivity.
  - rewrite <- HJs. assumption.
  - assumption.
Qed.

(* ================================================================== *)
(** ** The axes chosen by [axes_for_sum] *)

Lemma skipn_nth_cons {T : Type} (l : list T) k d :
  k < length l -> skipn k l = nth k l d :: skipn (S k) l.
Proof.
  revert k; induction l as [|x l IH]; intros k Hk; simpl in Hk; [lia|].
  destruct k as [|k]; [reflexivity|].
  simpl. apply IH. lia.
Qed.

Lemma rev_seq_map n : rev (seq 0 n) = map (fun i => n - i - 1) (seq 0 n).
Proof.
  apply nth_ext with (d := 0) (d' := 0).
  - rewrite length_rev, length_map. reflexivity.
  - intros i Hi. rewrite length_rev, length_seq in Hi.
    rewrite nth_rev_seq by assumption.
    rewrite nth_indep with (d' := (fun i => n - i - 1) 0)
      by (rewrite length_map, length_seq; assumption).
    rewrite (map_nth (fun i => n - i - 1)). rewrite seq_nth by assumption. lia.
Qed.

Lemma rev_map_filter_seq n (c : nat -> bool) :
  rev (map (fun j => n - j - 1) (filter c (seq 0 n))) =
  filter (fun i => c (n - i - 1)) (seq 0 n).
Proof.
  rewrite <- map_rev, <- filter_rev, rev_seq_map.
  rewrite filter_map_swap, map_map.
  rewrite <- (map_id (filter (fun i => c (n - i - 1)) (seq 0 n))) at 2.
  apply map_ext_in. intros i Hi. apply filter_In in Hi. destruct Hi as [Hi _].
  apply in_seq in Hi. lia.
Qed.

Section AxesLoop.

Variables (p : list nat) (n : nat).

Lemma axes_for_sum_loop_spec d_rev : forall dim to_sum,
  dim + length d_rev = n ->
  axes_for_sum_loop (Z.of_nat n) (Z.of_nat dim) d_rev
    (map Z.of_nat (skipn dim (rev p))) to_sum =
  to_sum ++ map (fun j => Z.of_nat (n - j - 1)) (filter (summed_from_end p) (seq dim (length d_rev))).
Proof.
  induction d_rev as [|x d_rev IH]; intros dim to_sum Hn.
  - simpl. rewrite app_nil_r. reflexivity.
  - cbn [length seq filter axes_for_sum_loop].
    simpl length in Hn.
    replace (Z.of_nat dim + 1)%Z with (Z.of_nat (S dim)) by lia.
    replace (Z.of_nat n - Z.of_nat dim - 1)%Z with (Z.of_nat (n - dim - 1)) by lia.
    assert (Hcond : summed_from_end p dim = (length p <=? dim) || (nth dim (rev p) 0 =? 1))
      by reflexivity.
    destruct (Nat.leb_spec (length p) dim) as [Hle|Hlt].
    + pose proof (IH (S dim) (to_sum ++ [Z.of_nat (n - dim - 1)])) as IH'.
      rewrite skipn_all2 in IH' by (rewrite length_rev; lia).
      rewrite skipn_all2 by (rewrite length_rev; assumption).
      cbn [map]. cbn [map] in IH'.
      rewrite IH' by lia. rewrite Hcond. cbn [orb map].
      rewrite <- app_assoc. reflexivity.
    + rewrite (skipn_nth_cons (rev p) dim 0) by (rewrite length_rev; assumption).
      cbn [map].
      replace (Z.eqb (Z.of_nat (nth dim (rev p) 0)) 1%Z) with (nth dim (rev p) 0 =? 1)
        by (destruct (Nat.eqb_spec (nth dim (rev p) 0) 1); symmetry;
            [apply Z.eqb_eq | apply Z.eqb_neq]; lia).
      rewrite Hcond. cbn [orb].
      destruct (nth dim (rev p) 0 =? 1).
      * rewrite IH by lia. cbn [map]. rewrite <- app_assoc. reflexivity.
      * rewrite IH by lia. reflexivity.
Qed.

End AxesLoop.

(** [axes_for_sum] returns, in increasing order, exactly the axes of the
    output along which the operand is broadcast. *)
Lemma axes_for_sum_broadcast_axes p ds :
  length p <= length ds ->
  axes_for_sum (map Z.of_nat p) (map Z.of_nat ds) = map Z.of_nat (broadcast_axes p ds).
Proof.
  intros Hlen. unfold axes_for_sum, zlen. rewrite length_map.
  rewrite <- !map_rev.
  pose proof (axes_for_sum_loop_spec p (length ds) (map Z.of_nat (rev ds)) 0 []) as H.
  simpl in H. rewrite length_map, length_rev in H.
  rewrite H by reflexivity. clear H.
  rewrite <- (map_map (fun j => length ds - j - 1) Z.of_nat).
  rewrite <- map_rev. f_equal.
  rewrite rev_map_filter_seq. unfold broadcast_axes.
  apply filter_ext_in. intros i Hi. apply in_seq in Hi.
  unfold summed_from_end.
  destruct (Nat.leb_spec (length p) (length ds - i - 1)) as [H1|H1];
    destruct (Nat.ltb_spec i (length ds - length p)) as [H2|H2];
    simpl; try reflexivity; try lia.
  rewrite rev_nth by lia. f_equal. f_equal. lia.
Qed.

Lemma broadcast_axes_lt p ds x : In x (broadcast_axes p ds) -> x < length ds.
Proof.
  unfold broadcast_axes. intros H. apply filter_In in H. destruct H as [H _].
  apply in_seq in H. lia.
Qed.

Lemma broadcast_axes_NoDup p ds : NoDup (broadcast_axes p ds).
Proof. unfold broadcast_axes. apply NoDup_filter. apply seq_NoDup. Qed.

Lemma np_sum_axes_broadcast {Elt : Type} {D : Dtype Elt} (d : ndarray Elt) p :
  np_sum_axes d (map Z.of_nat (broadcast_axes p (nd_shape d))) =
  Ok (sum_over d (broadcast_axes p (nd_shape d))).
Proof.
  unfold np_sum_axes, ndim.
  rewrite map_result_py_pos_nat by (intros x Hx; eapply broadcast_axes_lt; exact Hx).
  simpl. rewrite nodupb_NoDup by apply broadcast_axes_NoDup. reflexivity.
Qed.

Lemma broadcasts_to_length p ds : broadcasts_to p ds -> length p <= length ds.
Proof.
  intros [h [t [-> Hf]]]. rewrite length_app, (Forall2_length Hf). lia.
Qed.

Lemma sum_over_broadcast_size {Elt : Type} {D : Dtype Elt} (d : ndarray Elt) p :
  broadcasts_to p (nd_shape d) ->
  length (nd_data (sum_over d (broadcast_axes p (nd_shape d)))) = size_of p.
Proof.
  intros [h [t [Hds Hf]]]. unfold sum_over. simpl.
  rewrite length_map, length_seq.
  rewrite Hds at 2. rewrite drop_broadcast_axes.
  - rewrite (squeeze_compat _ _ Hf). apply size_of_squeeze.
  - rewrite Hds. reflexivity.
  - symmetry. apply (Forall2_length Hf).
Qed.

Lemma bc_index_valid p idx : valid_index p idx -> bc_index p idx = idx.
Proof.
  intros H. unfold bc_index. rewrite (valid_index_length _ _ H), Nat.sub_diag.
  simpl. induction H as [|i d idx p Hi _ IH]; simpl; [reflexivity|].
  rewrite IH. destruct (Nat.eqb_spec d 1); [f_equal; lia | reflexivity].
Qed.

(** The sum over no axis of a 0-d array is the array. *)
Lemma sum_over_scalar {Elt : Type} {D : Dtype Elt} (d : ndarray Elt) :
  wf d -> nd_shape d = [] ->
  mk_ndarray [] (nd_data (sum_over d (broadcast_axes [] []))) = d.
Proof.
  destruct d as [s v]. unfold wf. simpl. intros Hwf ->. simpl in Hwf.
  destruct v as [|x [|y v]]; try discriminate.
  unfold sum_over, build, summed_positions. cbn. rewrite e_sum_one. reflexivity.
Qed.

(* ================================================================== *)
(** ** Shapes of the results of the numpy routines *)

Lemma np_dot_shape_2d {Elt : Type} {D : Dtype Elt} (a b v : ndarray Elt) m k :
  nd_shape a = [m; k] -> (ndim b = 1 \/ ndim b = 2) ->
  np_dot a b = Ok v ->
  nth 0 (nd_shape b) 0 = k /\
  nd_shape v = if ndim b =? 1 then [m] else [m; nth 1 (nd_shape b) 0].
Proof.
  intros Ha Hb. unfold np_dot, ndim in *. rewrite Ha.
  destruct (nd_shape b) as [|x [|y [|z s]]]; simpl in Hb; try lia; simpl.
  - destruct (Nat.eqb_spec k x); [|discriminate].
    intros H; injection H as <-. split; [symmetry; assumption | reflexivity].
  - destruct (Nat.eqb_spec k x); [|discriminate].
    intros H; injection H as <-. split; [symmetry; assumption | reflexivity].
Qed.

Lemma set_nth_firstn_skipn {T : Type} k (v : T) l :
  k < length l -> set_nth k v l = firstn k l ++ v :: skipn (S k) l.
Proof.
  revert k; induction l as [|x l IH]; intros k Hk; simpl in Hk; [lia|].
  destruct k as [|k]; [reflexivity|].
  simpl. f_equal. apply IH. lia.
Qed.

Lemma drop_axes_from_single ax l : forall pos,
  pos <= ax -> ax - pos < length l ->
  drop_axes_from pos [ax] l = firstn (ax - pos) l ++ skipn (S (ax - pos)) l.
Proof.
  induction l as [|x l IH]; intros pos Hle Hlt; simpl in Hlt; [lia|].
  simpl. destruct (Nat.eqb_spec pos ax) as [->|Hne]; simpl.
  - rewrite Nat.sub_diag. simpl.
    clear IH Hle Hlt. assert (H : forall pos', ax < pos' ->
      drop_axes_from pos' [ax] l = l).
    { induction l as [|y l IHl]; intros pos' Hp; simpl; [reflexivity|].
      destruct (Nat.eqb_spec pos' ax); [lia|]. simpl. f_equal. apply IHl. lia. }
    apply H. lia.
  - replace (ax - pos) with (S (ax - S pos)) by lia. simpl. f_equal.
    apply IH; lia.
Qed.

Lemma drop_axes_single ax l :
  ax < length l -> drop_axes [ax] l = firstn ax l ++ skipn (S ax) l.
Proof.
  intros H. unfold drop_axes. rewrite drop_axes_from_single by lia.
  rewrite Nat.sub_0_r. reflexivity.
Qed.

Lemma py_pos_any_error e e' n i k : py_pos e n i = Ok k -> py_pos e' n i = Ok k.
Proof.
  unfold py_pos. destruct ((_ <=? _)%Z && (_ <? _)%Z); [auto | discriminate].
Qed.

(** Summing over one axis and putting it back with extent 1. *)
(** On a 0-d array [np.sum] takes an axis only by its special case. *)
Lemma np_sum_axis_rank {Elt : Type} {D : Dtype Elt} (a : ndarray Elt) axis :
  ndim a <> 0 -> np_sum_axis a axis = np_sum_axes a [axis].
Proof.
  intros H. unfold np_sum_axis.
  replace (ndim a =? 0) with false by (symmetry; apply Nat.eqb_neq; assumption).
  reflexivity.
Qed.

Lemma np_sum_axis_expand_dims {Elt : Type} {D : Dtype Elt} (a : ndarray Elt) axis s v :
  ndim a <> 0 ->
  np_sum_axis a axis = Ok s -> np_expand_dims s axis = Ok v ->
  exists ax, py_pos IndexError (ndim a) axis = Ok ax /\
             nd_shape v = set_nth ax 1 (nd_shape a).
Proof.
  intros Hrank. rewrite (np_sum_axis_rank a axis Hrank).
  unfold np_sum_axes. simpl. intros Hs Hv.
  destruct (py_pos ValueError (ndim a) axis) as [ax|] eqn:Hax; simpl in Hs;
    [|discriminate].
  injection Hs as <-.
  destruct (py_pos_ok _ _ _ _ Hax) as [Hlt [Hr Heq]]. unfold ndim in *.
  exists ax. split; [eapply py_pos_any_error; exact Hax|].
  unfold np_expand_dims, zlen in Hv. simpl in Hv.
  rewrite drop_axes_single in Hv by assumption.
  assert (Hlen : length (firstn ax (nd_shape a) ++ skipn (S ax) (nd_shape a))
                 = length (nd_shape a) - 1).
  { rewrite length_app, length_firstn, length_skipn. lia. }
  rewrite Hlen in Hv.
  set (pos := (if (axis <? 0)%Z
               then (axis + Z.of_nat (length (nd_shape a) - 1) + 1)%Z else axis)) in *.
  assert (Hpos : pos = Z.of_nat ax).
  { unfold pos. destruct (axis <? 0)%Z; lia. }
  rewrite Hpos in Hv.
  replace ((0 <=? Z.of_nat ax)%Z && (Z.of_nat ax <=? Z.of_nat (length (nd_shape a) - 1))%Z)
    with true in Hv
    by (symmetry; apply andb_true_iff; split; apply Z.leb_le; lia).
  injection Hv as <-. simpl. rewrite Nat2Z.id.
  rewrite set_nth_firstn_skipn by assumption.
  rewrite firstn_app, firstn_firstn, Nat.min_id, length_firstn.
  replace (ax - Nat.min ax (length (nd_shape a))) with 0 by lia.
  rewrite firstn_O, app_nil_r.
  rewrite skipn_app, length_firstn.
  rewrite skipn_all2 by (rewrite length_firstn; lia).
  replace (ax - Nat.min ax (length (nd_shape a))) with 0 by lia.
  reflexivity.
Qed.

Lemma gather_rev_seq s : gather s (rev (seq 0 (length s))) = rev s.
Proof.
  apply nth_ext with (d := 0) (d' := 0).
  - rewrite length_gather, !length_rev, length_seq. reflexivity.
  - intros i Hi. rewrite length_gather, length_rev, length_seq in Hi.
    rewrite nth_gather by (rewrite length_rev, length_seq; assumption).
    rewrite nth_rev_seq by assumption.
    rewrite rev_nth by assumption. f_equal. lia.
Qed.

(** Reading a tuple at the entries of [axes], as [Transpose.shape] does,
    follows the axis normalisation of [np.transpose]. *)
Lemma map_result_py_index_gather s axes : forall p,
  map_result (py_pos ValueError (length s)) axes = Ok p ->
  map_result (py_index (map Z.of_nat s)) axes = Ok (map Z.of_nat (gather s p)).
Proof.
  induction axes as [|x axes IH]; intros p H; simpl in H.
  - injection H as <-. reflexivity.
  - inv_bind H. rename x0 into k. inv_bind H. rename x0 into ks.
    injection H as <-. simpl.
    unfold py_index at 1. rewrite length_map.
    rewrite (py_pos_any_error _ IndexError _ _ _ Hx). simpl.
    rewrite (IH ks Hx0). simpl. f_equal. f_equal.
    change 0%Z with (Z.of_nat 0). apply map_nth.
Qed.

Lemma np_transpose_shape {Elt : Type} {DE : Default Elt} (a : ndarray Elt) axes v :
  np_transpose a axes = Ok v ->
  match axes with
  | None => shape_of v = rev (shape_of a)
  | Some ax => map_result (py_index (shape_of a)) ax = Ok (shape_of v)
  end.
Proof.
  unfold np_transpose. destruct axes as [ax|].
  - intros H. inv_bind H. rename x into p.
    destruct (is_perm (ndim a) p); [|discriminate].
    injection H as <-. unfold shape_of. simpl.
    apply map_result_py_index_gather. assumption.
  - intros H. injection H as <-. unfold shape_of, ndim. simpl.
    rewrite gather_rev_seq. apply map_rev.
Qed.

Lemma np_binop_shape {Elt : Type} {D : Dtype Elt} op (a b v : ndarray Elt) :
  np_binop op a b = Ok v ->
  np_broadcast_shape (nd_shape a) (nd_shape b) = Some (nd_shape v).
Proof.
  unfold np_binop. destruct (np_broadcast_shape _ _) as [s|]; [|discriminate].
  intros H; injection H as <-. reflexivity.
Qed.

Lemma np_concatenate_shape {Elt : Type} {DE : Default Elt} (a b : ndarray Elt) axis v :
  np_concatenate a b axis = Ok v ->
  exists ax, py_pos IndexError (ndim a) axis = Ok ax /\
             ndim b = ndim a /\
             nd_shape v = set_nth ax (nth ax (nd_shape a) 0 + nth ax (nd_shape b) 0)
                            (nd_shape a).
Proof.
  unfold np_concatenate.
  destruct (Nat.eqb_spec (ndim a) (ndim b)) as [Hn|Hn]; simpl; [|discriminate].
  intros H. inv_bind H. rename x into ax.
  destruct (same_except ax _ _); [|discriminate].
  injection H as <-. exists ax. split; [eapply py_pos_any_error; exact Hx|].
  split; [symmetry; assumption | reflexivity].
Qed.

(* ================================================================== *)
(** ** Properties of the node classes *)

Section NodeProperties.

Variables Rng Inputs Elt : Type.

Context {D : Dtype Elt}.

Lemma explicit_perm_spec n axes :
  explicit_perm n axes = true ->
  axes = map Z.of_nat (map Z.to_nat axes) /\ is_perm n (map Z.to_nat axes) = true.
Proof.
  unfold explicit_perm. rewrite andb_true_iff. intros [Hpos Hp]. split; [|assumption].
  rewrite map_map. rewrite <- (map_id axes) at 1.
  apply map_ext_in. intros x Hx.
  rewrite forallb_forall in Hpos. specialize (Hpos x Hx). apply Z.leb_le in Hpos.
  symmetry. apply Z2Nat.id. assumption.
Qed.

Lemma Transpose_round_trip (self : Transpose Rng Inputs Elt) (parent : Differentiable Rng Inputs Elt) X :
  wf X ->
  match tr_axes self with
  | None => True
  | Some axes => explicit_perm (ndim X) axes = true
  end ->
  exists Y, np_transpose X (tr_axes self) = Ok Y /\
            Transpose_local_grad self parent Y = Ok X.
Proof.
  intros Hwf Hax. unfold Transpose_local_grad.
  destruct (tr_axes self) as [axes|].
  - destruct (explicit_perm_spec _ _ Hax) as [Heq Hp].
    set (p := map Z.to_nat axes) in *.
    destruct (is_perm_spec _ _ Hp) as [Hlen _].
    exists (transpose_by X p). split.
    + rewrite Heq. apply np_transpose_perm. assumption.
    + rewrite Heq, (np_argsort_perm _ _ Hp).
      rewrite np_transpose_perm.
      * rewrite transpose_by_inverse by assumption. reflexivity.
      * rewrite ndim_transpose_by by assumption.
        apply inv_perm_is_perm. assumption.
  - exists (transpose_by X (rev (seq 0 (ndim X)))). split; [reflexivity|].
    unfold np_transpose.
    rewrite ndim_transpose_by by (rewrite length_rev, length_seq; reflexivity).
    rewrite <- (inv_perm_rev_seq (ndim X)) at 2.
    rewrite transpose_by_inverse; [reflexivity | assumption | apply rev_seq_is_perm].
Qed.

Lemma Reshape_round_trip (self : Reshape Rng Inputs Elt) (parent : Differentiable Rng Inputs Elt) X Y :
  wf X ->
  shape (rs_A self) None = Ok (shape_of X) ->
  np_reshape X (rs_new_shape self) = Ok Y ->
  Reshape_local_grad self parent Y = Ok X.
Proof.
  intros Hwf Hs HY. unfold Reshape_local_grad. rewrite Hs. simpl.
  eapply np_reshape_back; eassumption.
Qed.

(** The forward passes of Transpose and Reshape apply [np.transpose] and
    [np.reshape] to the operand's value. *)
Lemma Transpose_compute_value_of (self : Transpose Rng Inputs Elt) rng inputs X :
  value (tr_A self) rng inputs = Ok X ->
  Transpose_compute_value self rng inputs = np_transpose X (tr_axes self).
Proof. intros H. unfold Transpose_compute_value. rewrite H. reflexivity. Qed.

Lemma Reshape_compute_value_of (self : Reshape Rng Inputs Elt) rng inputs X :
  value (rs_A self) rng inputs = Ok X ->
  Reshape_compute_value self rng inputs = np_reshape X (rs_new_shape self).
Proof. intros H. unfold Reshape_compute_value. rewrite H. reflexivity. Qed.

(** C9, as the code has it: for Transpose, with axes that list the
    numbers 0..n-1 in some order (none of them written as a negative
    number) or with the default reversal, and for Reshape, the backward
    pass undoes the forward transformation: for every array [X] shaped as
    the operand, the forward transformation of [X] succeeds with some [Y]
    (for Reshape, whenever the target shape is valid for [X], a negative
    entry to be inferred included) and [local_grad] applied to [Y]
    returns [X] itself. *)
Theorem local_grad_inverts_transpose_and_reshape :
  (forall (self : Transpose Rng Inputs Elt) (parent : Differentiable Rng Inputs Elt) (X : ndarray Elt),
     wf X ->
     match tr_axes self with
     | None => True
     | Some axes => explicit_perm (ndim X) axes = true
     end ->
     exists Y, np_transpose X (tr_axes self) = Ok Y /\
               Transpose_local_grad self parent Y = Ok X)
  /\
  (forall (self : Reshape Rng Inputs Elt) (parent : Differentiable Rng Inputs Elt) (X Y : ndarray Elt),
     wf X ->
     shape (rs_A self) None = Ok (shape_of X) ->
     np_reshape X (rs_new_shape self) = Ok Y ->
     Reshape_local_grad self parent Y = Ok X).
Proof.
  split.
  - apply Transpose_round_trip.
  - apply Reshape_round_trip.
Qed.

(* ------------------------------------------------------------------ *)
(** *** Concatenate *)

Lemma py_index_of_nat s i v :
  py_index (map Z.of_nat s) i = Ok v ->
  exists k, py_pos IndexError (length s) i = Ok k /\ k < length s /\
            v = Z.of_nat (nth k s 0).
Proof.
  unfold py_index. rewrite length_map. intros H. inv_bind H.
  injection H as <-. exists x. split; [assumption|].
  destruct (py_pos_ok _ _ _ _ Hx) as [Hlt _]. split; [assumption|].
  change 0%Z with (Z.of_nat 0). apply map_nth.
Qed.

Lemma Concatenate_shape_inv (self : Concatenate Rng Inputs Elt) (d : ndarray Elt) sa sb :
  shape (ct_A self) None = Ok (map Z.of_nat sa) ->
  shape (ct_B self) None = Ok (map Z.of_nat sb) ->
  Concatenate_shape self None = Ok (shape_of d) ->
  exists ax b,
    py_pos IndexError (ndim d) (ct_axis self) = Ok ax /\
    ax < length sa /\
    py_index (map Z.of_nat sb) (ct_axis self) = Ok (Z.of_nat b) /\
    nd_shape d = set_nth ax (nth ax sa 0 + b) sa.
Proof.
  intros HA HB H. unfold Concatenate_shape in H. rewrite HA, HB in H. simpl in H.
  inv_bind H. rename x into a_k. inv_bind H. rename x into b_k.
  destruct (py_index_of_nat _ _ _ Hx) as [ax [Hax [Hlt ->]]].
  destruct (py_index_of_nat _ _ _ Hx0) as [bx [Hbx [Hblt ->]]].
  unfold py_setitem in H. rewrite length_map, Hax in H. simpl in H.
  injection H as H.
  rewrite <- Nat2Z.inj_add, <- map_set_nth in H.
  unfold shape_of in H. apply map_of_nat_inj in H.
  exists ax, (nth bx sb 0). repeat split.
  - unfold ndim. rewrite <- H, length_set_nth. assumption.
  - assumption.
  - assumption.
  - symmetry. assumption.
Qed.

Lemma Concatenate_local_grad_distinct (self : Concatenate Rng Inputs Elt) d sa sb :
  same_node (ct_A self) (ct_B self) = false ->
  shape (ct_A self) None = Ok (map Z.of_nat sa) ->
  shape (ct_B self) None = Ok (map Z.of_nat sb) ->
  wf d ->
  Concatenate_shape self None = Ok (shape_of d) ->
  exists ax b gA gB,
    py_pos IndexError (ndim d) (ct_axis self) = Ok ax /\
    py_index (map Z.of_nat sb) (ct_axis self) = Ok (Z.of_nat b) /\
    Concatenate_local_grad self (ct_A self) d = Ok gA /\
    Concatenate_local_grad self (ct_B self) d = Ok gB /\
    nd_shape gA = set_nth ax (nth ax sa 0) (nd_shape d) /\
    nd_shape gB = set_nth ax b (nd_shape d) /\
    (forall idx, valid_index (nd_shape gA) idx -> get gA idx = get d idx) /\
    (forall idx, valid_index (nd_shape gB) idx ->
       get gB idx = get d (set_nth ax (nth ax idx 0 + nth ax sa 0) idx)) /\
    np_concatenate gA gB (ct_axis self) = Ok d.
Proof.
  intros Hdist HA HB Hwf Hshape.
  destruct (Concatenate_shape_inv _ _ _ _ HA HB Hshape) as [ax [b [Hax [Hlt [Hb Hd]]]]].
  assert (Hn : nth ax (nd_shape d) 0 = nth ax sa 0 + b).
  { rewrite Hd. apply nth_set_nth_same. assumption. }
  destruct (np_split_spec _ _ _ _ _ Hwf Hax Hn)
    as [l [r [Hsplit [Hwl [Hwr [Hl [Hr [Hgl Hgr]]]]]]]].
  assert (HAk : py_index (map Z.of_nat sa) (ct_axis self) = Ok (Z.of_nat (nth ax sa 0))).
  { unfold py_index. rewrite length_map.
    replace (length sa) with (ndim d)
      by (unfold ndim; rewrite Hd, length_set_nth; reflexivity).
    rewrite Hax. simpl. f_equal. change 0%Z with (Z.of_nat 0). apply map_nth. }
  exists ax, b, l, r.
  split; [assumption|]. split; [assumption|].
  unfold Concatenate_local_grad. rewrite Hdist, HA. simpl. rewrite HAk. simpl.
  rewrite Hsplit. simpl.
  assert (HAA : same_node (ct_A self) (ct_A self) = true) by apply Nat.eqb_refl.
  assert (HBB : same_node (ct_B self) (ct_B self) = true) by apply Nat.eqb_refl.
  assert (HBA : same_node (ct_B self) (ct_A self) = false).
  { unfold same_node in *. rewrite Nat.eqb_sym. assumption. }
  rewrite HAA, HBA, HBB.
  repeat split; try assumption.
  eapply np_concatenate_split; eassumption.
Qed.

(** C8: for a Concatenate node with distinct operands [A] and [B] and a
    gradient [d] shaped as the node's output, [local_grad] splits [d] along
    the concatenation axis at [A]'s extent on that axis: parent [A] gets
    the part before the boundary, parent [B] the part from the boundary on
    (whose extent is [B]'s), and joining the two parts along the axis gives
    [d] again.  With [A] of shape (2,3), [B] of shape (2,2), axis 1 and [d]
    the ones of shape (2,5), the parts are the ones of shape (2,3) and of
    shape (2,2).  When [A] and [B] are the same node, [local_grad] fails. *)
Theorem Concatenate_local_grad_splits_at_A_extent :
  (forall (self : Concatenate Rng Inputs Elt) (d : ndarray Elt) (sa sb : list nat),
     same_node (ct_A self) (ct_B self) = false ->
     shape (ct_A self) None = Ok (map Z.of_nat sa) ->
     shape (ct_B self) None = Ok (map Z.of_nat sb) ->
     wf d ->
     Concatenate_shape self None = Ok (shape_of d) ->
     exists ax b gA gB,
       py_pos IndexError (ndim d) (ct_axis self) = Ok ax /\
       py_index (map Z.of_nat sb) (ct_axis self) = Ok (Z.of_nat b) /\
       Concatenate_local_grad self (ct_A self) d = Ok gA /\
       Concatenate_local_grad self (ct_B self) d = Ok gB /\
       nd_shape gA = set_nth ax (nth ax sa 0) (nd_shape d) /\
       nd_shape gB = set_nth ax b (nd_shape d) /\
       (forall idx, valid_index (nd_shape gA) idx -> get gA idx = get d idx) /\
       (forall idx, valid_index (nd_shape gB) idx ->
          get gB idx = get d (set_nth ax (nth ax idx 0 + nth ax sa 0) idx)) /\
       np_concatenate gA gB (ct_axis self) = Ok d)
  /\
  (forall (id : nat) (va vb : list Elt),
     length va = 6 -> length vb = 4 ->
     let A : Differentiable Rng Inputs Elt := Leaf 0 (mk_ndarray [2; 3] va) in
     let B : Differentiable Rng Inputs Elt := Leaf 1 (mk_ndarray [2; 2] vb) in
     exists self,
       Concatenate_init id 1 A B [] = Ok self /\
       Concatenate_shape self None = Ok [2; 5]%Z /\
       Concatenate_local_grad self A (ones [2; 5]) = Ok (ones [2; 3]) /\
       Concatenate_local_grad self B (ones [2; 5]) = Ok (ones [2; 2]))
  /\
  (forall (self : Concatenate Rng Inputs Elt) (parent : Differentiable Rng Inputs Elt) (d : ndarray Elt),
     same_node (ct_A self) (ct_B self) = true ->
     Concatenate_local_grad self parent d = Raise AssertionError).
Proof.
  split; [|split].
  - apply Concatenate_local_grad_distinct.
  - intros id va vb Hva Hvb A B. eexists. split; [reflexivity|].
    split; [reflexivity|]. split; reflexivity.
  - intros self parent d H. unfold Concatenate_local_grad. rewrite H. reflexivity.
Qed.

(* ------------------------------------------------------------------ *)
(** *** MatMult *)

Lemma same_node_refl (p : Differentiable Rng Inputs Elt) : same_node p p = true.
Proof. apply Nat.eqb_refl. Qed.

Lemma same_node_sym (p q : Differentiable Rng Inputs Elt) : same_node p q = same_node q p.
Proof. apply Nat.eqb_sym. Qed.

Lemma py_index_ok t i v :
  py_index t i = Ok v -> (- zlen t <= i < zlen t)%Z.
Proof.
  unfold py_index. intros H. inv_bind H.
  destruct (py_pos_ok _ _ _ _ Hx) as [_ [Hr _]]. exact Hr.
Qed.

Lemma py_index_nat t k :
  k < length t -> py_index t (Z.of_nat k) = Ok (nth k t 0%Z).
Proof. intros Hk. unfold py_index. rewrite py_pos_nat by assumption. reflexivity. Qed.

(** What the inner-dimension check lets through. *)
Lemma MatMult_check_ok id (A B : Differentiable Rng Inputs Elt) self :
  MatMult_check id A B = Ok self ->
  self = mk_MatMult id A B /\
  exists sa sb,
    shape A None = Ok sa /\ shape B None = Ok sb /\
    2 <= length sa /\ 1 <= length sb /\
    nth 1 sa 0%Z = nth 0 sb 0%Z.
Proof.
  unfold MatMult_check. intros H.
  inv_bind H. rename x into sa. inv_bind H. rename x into a1.
  inv_bind H. rename x into sb. inv_bind H. rename x into b0.
  destruct (a1 =? b0)%Z eqn:E; simpl in H; [|discriminate].
  apply Z.eqb_eq in E. injection H as <-.
  split; [reflexivity|]. exists sa, sb.
  pose proof (py_index_ok _ _ _ Hx0) as Ha. pose proof (py_index_ok _ _ _ Hx2) as Hb.
  unfold zlen in *.
  assert (E1 : py_index sa 1 = Ok (nth 1 sa 0%Z)) by (apply (py_index_nat sa 1); lia).
  assert (E0 : py_index sb 0 = Ok (nth 0 sb 0%Z)) by (apply (py_index_nat sb 0); lia).
  rewrite E1 in Hx0. rewrite E0 in Hx2.
  injection Hx0 as <-. injection Hx2 as <-.
  repeat split; try assumption; lia.
Qed.

Lemma MatMult_init_ok id (A B : Differentiable Rng Inputs Elt) args self :
  MatMult_init id A B args = Ok self ->
  mm_A self = A /\
  exists sa sb,
    shape (mm_A self) None = Ok sa /\ shape (mm_B self) None = Ok sb /\
    2 <= length sa /\ 1 <= length sb /\
    nth 1 sa 0%Z = nth 0 sb 0%Z.
Proof.
  intros H.
  assert (Hc : exists B', MatMult_check id A B' = Ok self).
  { destruct args as [|C args]; simpl in H.
    - exists B. assumption.
    - inv_bind H. eexists. eassumption. }
  destruct Hc as [B' Hc].
  destruct (MatMult_check_ok _ _ _ _ Hc) as [-> Hs]. simpl.
  split; [reflexivity | assumption].
Qed.

Lemma MatMult_local_grad_A (self : MatMult Rng Inputs Elt) d sb :
  shape (mm_B self) None = Ok sb ->
  MatMult_local_grad self (mm_A self) d =
    if length sb =? 1
    then b <- value (mm_B self) None None ;; Ok (np_outer d b)
    else b <- value (mm_B self) None None ;; np_dot d (np_T b).
Proof.
  intros Hsb. unfold MatMult_local_grad.
  rewrite same_node_refl, Hsb. reflexivity.
Qed.

Lemma MatMult_local_grad_B (self : MatMult Rng Inputs Elt) d sa :
  same_node (mm_A self) (mm_B self) = false ->
  shape (mm_A self) None = Ok sa ->
  MatMult_local_grad self (mm_B self) d =
    if length sa =? 1
    then a <- value (mm_A self) None None ;; Ok (np_outer a d)
    else a <- value (mm_A self) None None ;; np_dot (np_T a) d.
Proof.
  intros Hd Hsa. unfold MatMult_local_grad.
  rewrite same_node_sym, Hd, same_node_refl, Hsa. reflexivity.
Qed.

(** The two gradients on matrices. *)
Lemma MatMult_local_grad_matrix (self : MatMult Rng Inputs Elt) d sa a b m k n :
  same_node (mm_A self) (mm_B self) = false ->
  shape (mm_A self) None = Ok sa -> length sa <> 1 ->
  shape (mm_B self) None = Ok (shape_of b) ->
  value (mm_A self) None None = Ok a -> value (mm_B self) None None = Ok b ->
  nd_shape a = [m; k] -> nd_shape b = [k; n] -> nd_shape d = [m; n] ->
  exists gA gB,
    MatMult_local_grad self (mm_A self) d = Ok gA /\
    MatMult_local_grad self (mm_B self) d = Ok gB /\
    nd_shape gA = [m; k] /\ nd_shape gB = [k; n] /\
    (forall i j, i < m -> j < k ->
       get gA [i; j] = e_dot (map (fun l => get d [i; l]) (seq 0 n))
                             (map (fun l => get b [j; l]) (seq 0 n))) /\
    (forall i j, i < k -> j < n ->
       get gB [i; j] = e_dot (map (fun l => get a [l; i]) (seq 0 m))
                             (map (fun l => get d [l; j]) (seq 0 m))).
Proof.
  intros Hdist Hsa Hra Hsb Hva Hvb Ha Hb Hd.
  rewrite (MatMult_local_grad_A self d _ Hsb).
  rewrite (MatMult_local_grad_B self d sa Hdist Hsa).
  replace (length sa =? 1) with false by (symmetry; apply Nat.eqb_neq; assumption).
  replace (length (shape_of b) =? 1) with false
    by (unfold shape_of; rewrite length_map, Hb; reflexivity).
  rewrite Hva, Hvb. simpl.
  destruct (np_T_matrix b k n Hb) as [HTb HTbg].
  destruct (np_T_matrix a m k Ha) as [HTa HTag].
  destruct (np_dot_matrix_matrix d (np_T b) m n k Hd HTb) as [gA [HA [_ [HAs HAg]]]].
  destruct (np_dot_matrix_matrix (np_T a) d k m n HTa Hd) as [gB [HB [_ [HBs HBg]]]].
  exists gA, gB. repeat split; try assumption.
  - intros i j Hi Hj. rewrite HAg by assumption. f_equal.
    apply map_ext_in. intros l Hl. apply in_seq in Hl. apply HTbg; lia.
  - intros i j Hi Hj. rewrite HBg by assumption. f_equal.
    apply map_ext_in. intros l Hl. apply in_seq in Hl. apply HTag; lia.
Qed.

(** The two gradients when [B] is a vector. *)
Lemma MatMult_local_grad_vector (self : MatMult Rng Inputs Elt) d sa a b m k :
  same_node (mm_A self) (mm_B self) = false ->
  shape (mm_A self) None = Ok sa -> length sa <> 1 ->
  shape (mm_B self) None = Ok (shape_of b) ->
  value (mm_A self) None None = Ok a -> value (mm_B self) None None = Ok b ->
  wf b -> wf d ->
  nd_shape a = [m; k] -> nd_shape b = [k] -> nd_shape d = [m] ->
  exists gA gB,
    MatMult_local_grad self (mm_A self) d = Ok gA /\
    MatMult_local_grad self (mm_B self) d = Ok gB /\
    nd_shape gA = [m; k] /\ nd_shape gB = [k] /\
    (forall i j, i < m -> j < k -> get gA [i; j] = e_mul (get d [i]) (get b [j])) /\
    (forall i, i < k ->
       get gB [i] = e_dot (map (fun l => get a [l; i]) (seq 0 m))
                          (map (fun l => get d [l]) (seq 0 m))).
Proof.
  intros Hdist Hsa Hra Hsb Hva Hvb Hwb Hwd Ha Hb Hd.
  rewrite (MatMult_local_grad_A self d _ Hsb).
  rewrite (MatMult_local_grad_B self d sa Hdist Hsa).
  replace (length sa =? 1) with false by (symmetry; apply Nat.eqb_neq; assumption).
  replace (length (shape_of b) =? 1) with true
    by (unfold shape_of; rewrite length_map, Hb; reflexivity).
  rewrite Hva, Hvb. simpl.
  destruct (np_T_matrix a m k Ha) as [HTa HTag].
  destruct (np_outer_vectors d b m k Hwd Hwb Hd Hb) as [HOs HOg].
  destruct (np_dot_matrix_vector (np_T a) d k m HTa Hd) as [gB [HB [_ [HBs HBg]]]].
  exists (np_outer d b), gB. repeat split; try assumption.
  intros i Hi. rewrite HBg by assumption. f_equal.
  apply map_ext_in. intros l Hl. apply in_seq in Hl. apply HTag; lia.
Qed.

(** C1, as the code has it: for a MatMult node that was constructed and
    whose operands [A] and [B] are two different nodes,
    [local_grad(A, d)] is the outer product of [d] with [B]'s value when
    [B]'s shape has rank 1 and the product [d . B^T] when it has rank at
    least 2; [local_grad(B, d)] is the outer product of [A]'s value with
    [d] when [A]'s shape has rank 1 and [A^T . d] when it has rank at least
    2.  The products are numpy's, in the arithmetic of the element type.
    On matrices they pair the usual rows and columns: with [A] of shape
    (m,k), [B] of shape (k,n) and [d] of shape (m,n), the gradient for [A]
    has shape (m,k) and its entry (i,j) is the sum of products of row [i]
    of [d] and row [j] of [B]; the one for [B] has shape (k,n) and its
    entry (i,j) is the sum of products of column [i] of [A] and column
    [j] of [d]; with [B] a vector of shape (k,) and [d] of shape (m,), the
    gradient for [A] has the entries [d[i] * B[j]] and the one for [B]
    the sums of products of column [i] of [A] and [d]. *)
Theorem MatMult_local_grad_products
    (id : nat) (A B : Differentiable Rng Inputs Elt) (args : list (Differentiable Rng Inputs Elt)) (self : MatMult Rng Inputs Elt)
    (d : ndarray Elt) :
  MatMult_init id A B args = Ok self ->
  same_node (mm_A self) (mm_B self) = false ->
  wf d ->
  exists sa sb,
    shape (mm_A self) None = Ok sa /\ shape (mm_B self) None = Ok sb /\
    (length sb = 1 ->
       MatMult_local_grad self (mm_A self) d =
         (b <- value (mm_B self) None None ;; Ok (np_outer d b))) /\
    (2 <= length sb ->
       MatMult_local_grad self (mm_A self) d =
         (b <- value (mm_B self) None None ;; np_dot d (np_T b))) /\
    (length sa = 1 ->
       MatMult_local_grad self (mm_B self) d =
         (a <- value (mm_A self) None None ;; Ok (np_outer a d))) /\
    (2 <= length sa ->
       MatMult_local_grad self (mm_B self) d =
         (a <- value (mm_A self) None None ;; np_dot (np_T a) d)) /\
    (forall a b m k n,
       value (mm_A self) None None = Ok a -> value (mm_B self) None None = Ok b ->
       nd_shape a = [m; k] -> shape_of b = sb -> nd_shape b = [k; n] ->
       nd_shape d = [m; n] ->
       exists gA gB,
         MatMult_local_grad self (mm_A self) d = Ok gA /\
         MatMult_local_grad self (mm_B self) d = Ok gB /\
         nd_shape gA = [m; k] /\ nd_shape gB = [k; n] /\
         (forall i j, i < m -> j < k ->
            get gA [i; j] = e_dot (map (fun l => get d [i; l]) (seq 0 n))
                                  (map (fun l => get b [j; l]) (seq 0 n))) /\
         (forall i j, i < k -> j < n ->
            get gB [i; j] = e_dot (map (fun l => get a [l; i]) (seq 0 m))
                                  (map (fun l => get d [l; j]) (seq 0 m)))) /\
    (forall a b m k,
       value (mm_A self) None None = Ok a -> value (mm_B self) None None = Ok b ->
       wf b ->
       nd_shape a = [m; k] -> shape_of b = sb -> nd_shape b = [k] ->
       nd_shape d = [m] ->
       exists gA gB,
         MatMult_local_grad self (mm_A self) d = Ok gA /\
         MatMult_local_grad self (mm_B self) d = Ok gB /\
         nd_shape gA = [m; k] /\ nd_shape gB = [k] /\
         (forall i j, i < m -> j < k ->
            get gA [i; j] = e_mul (get d [i]) (get b [j])) /\
         (forall i, i < k ->
            get gB [i] = e_dot (map (fun l => get a [l; i]) (seq 0 m))
                               (map (fun l => get d [l]) (seq 0 m)))).
Proof.
  intros Hinit Hdist Hwd.
  destruct (MatMult_init_ok _ _ _ _ _ Hinit) as [_ [sa [sb [Hsa [Hsb [Hra [Hrb _]]]]]]].
  exists sa, sb. split; [assumption|]. split; [assumption|].
  pose proof (MatMult_local_grad_A self d sb Hsb) as HgA.
  pose proof (MatMult_local_grad_B self d sa Hdist Hsa) as HgB.
  assert (HsaF : (length sa =? 1) = false) by (apply Nat.eqb_neq; lia).
  rewrite HsaF in HgB.
  split; [|split; [|split; [|split; [|split]]]].
  - intros H1. rewrite HgA, H1. reflexivity.
  - intros H2. rewrite HgA.
    replace (length sb =? 1) with false by (symmetry; apply Nat.eqb_neq; lia).
    reflexivity.
  - intros H1. lia.
  - intros _. exact HgB.
  - intros a b m k n Hva Hvb Ha Hbs Hb Hd. subst sb.
    apply (MatMult_local_grad_matrix self d sa a b m k n); try assumption. lia.
  - intros a b m k Hva Hvb Hwb Ha Hbs Hb Hd. subst sb.
    apply (MatMult_local_grad_vector self d sa a b m k); try assumption. lia.
Qed.

(** C10, as the code has it: a MatMult node that passed construction has
    an operand [A] whose shape has at least two dimensions, so the branch
    of [local_grad] for a rank-1 [A] is never taken, and, when [B] is not
    the node [A] itself, [local_grad(B, d)] is [A^T . d]. *)
Theorem MatMult_accepted_A_has_rank_2
    (id : nat) (A B : Differentiable Rng Inputs Elt) (args : list (Differentiable Rng Inputs Elt)) (self : MatMult Rng Inputs Elt) :
  MatMult_init id A B args = Ok self ->
  exists sa,
    shape (mm_A self) None = Ok sa /\
    2 <= length sa /\
    (length sa =? 1) = false /\
    forall d,
      same_node (mm_A self) (mm_B self) = false ->
      MatMult_local_grad self (mm_B self) d =
        (a <- value (mm_A self) None None ;; np_dot (np_T a) d).
Proof.
  intros Hinit.
  destruct (MatMult_init_ok _ _ _ _ _ Hinit) as [_ [sa [sb [Hsa [Hsb [Hra _]]]]]].
  exists sa. split; [assumption|]. split; [assumption|].
  assert (HsaF : (length sa =? 1) = false) by (apply Nat.eqb_neq; lia).
  split; [assumption|].
  intros d Hdist. rewrite (MatMult_local_grad_B self d sa Hdist Hsa), HsaF.
  reflexivity.
Qed.

(* ------------------------------------------------------------------ *)
(** *** MatAdd *)

Lemma MatAdd_shape_inv (self : MatAdd Rng Inputs Elt) (d : ndarray Elt) sa sb :
  shape (ma_A self) None = Ok (map Z.of_nat sa) ->
  shape (ma_B self) None = Ok (map Z.of_nat sb) ->
  MatAdd_shape self None = Ok (shape_of d) ->
  np_broadcast_shape sa sb = Some (nd_shape d).
Proof.
  intros HA HB H. unfold MatAdd_shape in H. rewrite HA, HB in H. simpl in H.
  destruct (broadcast _ _) as [s|] eqn:E; [|discriminate].
  injection H as ->. apply broadcast_some_nat. assumption.
Qed.

Lemma MatAdd_local_grad_spec (self : MatAdd Rng Inputs Elt) (P : Differentiable Rng Inputs Elt) d p :
  same_node (ma_A self) (ma_B self) = false ->
  shape P None = Ok (map Z.of_nat p) ->
  wf d ->
  broadcasts_to p (nd_shape d) ->
  exists g,
    MatAdd_local_grad self P d = Ok g /\
    wf g /\
    nd_shape g = p /\
    (nd_shape d = p -> g = d) /\
    (nd_shape d <> p \/ nd_shape d = [] ->
       (exists s,
          np_sum_axes d (axes_for_sum (map Z.of_nat p) (shape_of d)) = Ok s /\
          np_reshape s (map Z.of_nat p) = Ok g) /\
       (forall idx, valid_index p idx ->
          get g idx =
          e_sum (map (fun k => nth k (nd_data d) dflt)
                     (broadcast_positions p (nd_shape d) idx)))).
Proof.
  intros Hdist HP Hwf Hbc.
  pose proof (broadcasts_to_length _ _ Hbc) as Hlen.
  unfold MatAdd_local_grad. rewrite Hdist, HP. simpl.
  destruct (tuple_eqb (shape_of (np_atleast_1d d)) (map Z.of_nat p)) eqn:Heq.
  - apply tuple_eqb_eq in Heq.
    assert (Hd : nd_shape d = p /\ nd_shape d <> []).
    { unfold np_atleast_1d in Heq. destruct (nd_shape d) as [|x s] eqn:Es.
      - simpl in Hlen. destruct p; [|simpl in Hlen; lia].
        unfold shape_of in Heq. simpl in Heq. discriminate.
      - unfold shape_of in Heq. rewrite Es in Heq. apply map_of_nat_inj in Heq.
        split; [assumption | discriminate]. }
    destruct Hd as [Hd Hne].
    exists d. split; [reflexivity|]. split; [assumption|]. split; [assumption|].
    split; [reflexivity|]. intros [H|H]; contradiction.
  - unfold shape_of at 1.
    rewrite axes_for_sum_broadcast_axes by assumption.
    rewrite np_sum_axes_broadcast. simpl.
    rewrite np_reshape_to by (apply sum_over_broadcast_size; assumption).
    eexists. split; [reflexivity|].
    split; [unfold wf; simpl; apply sum_over_broadcast_size; assumption|].
    split; [reflexivity|]. split.
    + intros Hd.
      destruct (nd_shape d) as [|x s] eqn:Es.
      * subst p. apply sum_over_scalar; assumption.
      * exfalso. unfold np_atleast_1d in Heq. rewrite Es in Heq.
        unfold shape_of in Heq. rewrite Es, Hd in Heq.
        assert (tuple_eqb (map Z.of_nat p) (map Z.of_nat p) = true)
          by (apply tuple_eqb_eq; reflexivity).
        congruence.
    + intros _. split.
      * exists (sum_over d (broadcast_axes p (nd_shape d))). split.
        -- unfold shape_of. rewrite axes_for_sum_broadcast_axes by assumption.
           apply np_sum_axes_broadcast.
        -- apply np_reshape_to. apply sum_over_broadcast_size. assumption.
      * intros idx Hidx. apply broadcast_adjoint; assumption.
Qed.

(** C2, as the code has it: for a MatAdd node whose two operands are
    different nodes, each operand [P] and every gradient [d] shaped as the
    node's broadcast output, [local_grad(P, d)] succeeds with an array of
    [P]'s shape; it is [d] itself when [d] has [P]'s shape; otherwise,
    and for a [d] without axes, it is [d] summed over the axes picked by
    [axes_for_sum] and reshaped to [P]'s shape, those axes being exactly
    the output axes on which [P]'s shape has no dimension or the dimension
    1, and it has the index structure of the adjoint of the forward
    broadcast: its entry at [idx] is numpy's sum, in the arithmetic of the
    element type, of the entries of [d] at exactly the output positions
    where the forward pass reads [P] at [idx]. *)
Theorem MatAdd_local_grad_undoes_broadcast
    (self : MatAdd Rng Inputs Elt) (P : Differentiable Rng Inputs Elt) (d : ndarray Elt) (sa sb p : list nat) :
  same_node (ma_A self) (ma_B self) = false ->
  shape (ma_A self) None = Ok (map Z.of_nat sa) ->
  shape (ma_B self) None = Ok (map Z.of_nat sb) ->
  P = ma_A self \/ P = ma_B self ->
  shape P None = Ok (map Z.of_nat p) ->
  wf d ->
  MatAdd_shape self None = Ok (shape_of d) ->
  exists g,
    MatAdd_local_grad self P d = Ok g /\
    nd_shape g = p /\
    (nd_shape d = p -> g = d) /\
    axes_for_sum (map Z.of_nat p) (shape_of d) =
      map Z.of_nat (broadcast_axes p (nd_shape d)) /\
    (nd_shape d <> p \/ nd_shape d = [] ->
       (exists s,
          np_sum_axes d (axes_for_sum (map Z.of_nat p) (shape_of d)) = Ok s /\
          np_reshape s (map Z.of_nat p) = Ok g) /\
       (forall idx, valid_index p idx ->
          get g idx =
          e_sum (map (fun k => nth k (nd_data d) dflt)
                     (broadcast_positions p (nd_shape d) idx)))).
Proof.
  intros Hdist HA HB HP HPs Hwf Hshape.
  pose proof (MatAdd_shape_inv _ _ _ _ HA HB Hshape) as Hb.
  destruct (np_broadcast_shape_compat _ _ _ Hb) as [Hca Hcb].
  assert (Hbc : broadcasts_to p (nd_shape d)).
  { destruct HP as [-> | ->].
    - rewrite HA in HPs. injection HPs as HPs. apply map_of_nat_inj in HPs.
      subst. assumption.
    - rewrite HB in HPs. injection HPs as HPs. apply map_of_nat_inj in HPs.
      subst. assumption. }
  destruct (MatAdd_local_grad_spec self P d p Hdist HPs Hwf Hbc)
    as [g [Hg [_ [Hgs [Hgd Hsum]]]]].
  exists g. split; [assumption|]. split; [assumption|]. split; [assumption|].
  split; [|assumption].
  apply axes_for_sum_broadcast_axes. apply broadcasts_to_length. assumption.
Qed.

(* ------------------------------------------------------------------ *)
(** *** Declared shapes and computed values *)

Lemma py_index_shape_of (a : ndarray Elt) i k :
  py_pos IndexError (ndim a) i = Ok k ->
  py_index (shape_of a) i = Ok (Z.of_nat (nth k (nd_shape a) 0)).
Proof.
  intros H. unfold py_index. rewrite shape_of_length, H. simpl.
  f_equal. unfold shape_of. change 0%Z with (Z.of_nat 0). apply map_nth.
Qed.

Lemma MatMult_shape_value (self : MatMult Rng Inputs Elt) rng inputs a b v :
  shape_matches_value (mm_A self) rng inputs ->
  shape_matches_value (mm_B self) rng inputs ->
  value (mm_A self) rng inputs = Ok a ->
  value (mm_B self) rng inputs = Ok b ->
  ndim a = 2 -> (ndim b = 1 \/ ndim b = 2) ->
  MatMult_compute_value self rng inputs = Ok v ->
  MatMult_shape self inputs = Ok (shape_of v).
Proof.
  intros HA HB Ha Hb Hra Hrb Hv.
  unfold MatMult_compute_value in Hv. rewrite Ha, Hb in Hv. simpl in Hv.
  unfold MatMult_shape. rewrite (HA a Ha), (HB b Hb). simpl.
  rewrite shape_of_length.
  assert (Has : exists m k, nd_shape a = [m; k]).
  { unfold ndim in Hra. destruct (nd_shape a) as [|m [|k [|z s]]]; try discriminate.
    exists m, k. reflexivity. }
  destruct Has as [m [k Has]].
  destruct (np_dot_shape_2d a b v m k Has Hrb Hv) as [_ Hvs].
  rewrite (py_index_shape_of a 0 0) by (rewrite Hra; reflexivity).
  assert (Hvz : shape_of v =
                if ndim b =? 1 then [Z.of_nat m]
                else [Z.of_nat m; Z.of_nat (nth 1 (nd_shape b) 0)]).
  { unfold shape_of. rewrite Hvs. destruct (ndim b =? 1); reflexivity. }
  rewrite Hvz, Has. simpl.
  destruct (Nat.eqb_spec (ndim b) 1) as [H1|H1]; [reflexivity|].
  rewrite (py_index_shape_of b 1 1)
    by (replace (ndim b) with 2 by lia; reflexivity).
  reflexivity.
Qed.

Lemma MatSum_shape_value (self : MatSum Rng Inputs Elt) rng inputs v :
  shape_matches_value (ms_A self) rng inputs ->
  (ms_axis self <> None ->
   forall a, value (ms_A self) rng inputs = Ok a -> ndim a <> 0) ->
  MatSum_compute_value self rng inputs = Ok v ->
  MatSum_shape self inputs = Ok (shape_of v).
Proof.
  intros HA Hrank Hv. unfold MatSum_compute_value in Hv. unfold MatSum_shape.
  destruct (ms_axis self) as [axis|].
  - inv_bind Hv. rename x into a. inv_bind Hv. rename x into s.
    rewrite (HA a Hx). simpl.
    assert (Hnz : ndim a <> 0) by (apply Hrank; [discriminate | assumption]).
    destruct (np_sum_axis_expand_dims a axis s v Hnz Hx0 Hv) as [ax [Hax Hvs]].
    unfold py_setitem. rewrite shape_of_length, Hax. simpl.
    unfold shape_of. rewrite Hvs, map_set_nth. reflexivity.
  - inv_bind Hv. rename x into a. rewrite (HA a Hx). simpl.
    f_equal. symmetry. apply np_reshape_explicit with (a := np_sum_all a).
    + apply count_negative_repeat_1.
    + assumption.
Qed.

Lemma MatAdd_shape_value (self : MatAdd Rng Inputs Elt) rng inputs v :
  shape_matches_value (ma_A self) rng inputs ->
  shape_matches_value (ma_B self) rng inputs ->
  MatAdd_compute_value self rng inputs = Ok v ->
  MatAdd_shape self inputs = Ok (shape_of v).
Proof.
  intros HA HB Hv. unfold MatAdd_compute_value in Hv.
  inv_bind Hv. rename x into a. inv_bind Hv. rename x into b.
  unfold MatAdd_shape. rewrite (HA a Hx), (HB b Hx0). simpl.
  unfold shape_of. rewrite broadcast_of_nat.
  rewrite (np_binop_shape _ _ _ _ Hv). reflexivity.
Qed.

Lemma Transpose_shape_value (self : Transpose Rng Inputs Elt) rng inputs v :
  shape_matches_value (tr_A self) rng inputs ->
  Transpose_compute_value self rng inputs = Ok v ->
  Transpose_shape self inputs = Ok (shape_of v).
Proof.
  intros HA Hv. unfold Transpose_compute_value in Hv.
  inv_bind Hv. rename x into a.
  unfold Transpose_shape. rewrite (HA a Hx).
  pose proof (np_transpose_shape _ _ _ Hv) as H.
  destruct (tr_axes self); simpl; [assumption | rewrite H; reflexivity].
Qed.

Lemma Reshape_shape_value (self : Reshape Rng Inputs Elt) rng inputs v :
  count_negative (rs_new_shape self) = 0 ->
  Reshape_compute_value self rng inputs = Ok v ->
  Reshape_shape self inputs = Ok (shape_of v).
Proof.
  intros Hc Hv. unfold Reshape_compute_value in Hv. inv_bind Hv.
  unfold Reshape_shape. f_equal. symmetry.
  eapply np_reshape_explicit; eassumption.
Qed.

Lemma Concatenate_shape_value (self : Concatenate Rng Inputs Elt) rng inputs v :
  shape_matches_value (ct_A self) rng inputs ->
  shape_matches_value (ct_B self) rng inputs ->
  Concatenate_compute_value self rng inputs = Ok v ->
  Concatenate_shape self inputs = Ok (shape_of v).
Proof.
  intros HA HB Hv. unfold Concatenate_compute_value in Hv.
  inv_bind Hv. rename x into a. inv_bind Hv. rename x into b.
  unfold Concatenate_shape. rewrite (HA a Hx), (HB b Hx0). simpl.
  destruct (np_concatenate_shape _ _ _ _ Hv) as [ax [Hax [Hn Hvs]]].
  rewrite (py_index_shape_of a _ ax Hax). simpl.
  rewrite (py_index_shape_of b _ ax) by (rewrite Hn; assumption). simpl.
  unfold py_setitem. rewrite shape_of_length, Hax. simpl.
  unfold shape_of. rewrite Hvs, map_set_nth, Nat2Z.inj_add. reflexivity.
Qed.

(** C4, as the code has it: [shape(inputs)] reads only the operands'
    declared shapes (it is unchanged when the operands' values cannot be
    evaluated), and whenever the forward value of a node is computed, on
    operands whose declared shapes agree with their values, the declared
    shape of the node is the shape of that value: for MatMult with a
    2-dimensional [A] and a [B] of 1 or 2 dimensions, for MatSum over all
    elements and for MatSum over one axis of an operand that has at least
    one dimension, for MatAdd, Transpose and Concatenate, and for Reshape
    when the stored target shape has no negative entry to be inferred. *)
Theorem shape_agrees_with_computed_value :
  (forall (self : MatMult Rng Inputs Elt) rng inputs a b v,
     shape_matches_value (mm_A self) rng inputs ->
     shape_matches_value (mm_B self) rng inputs ->
     value (mm_A self) rng inputs = Ok a ->
     value (mm_B self) rng inputs = Ok b ->
     ndim a = 2 -> (ndim b = 1 \/ ndim b = 2) ->
     MatMult_compute_value self rng inputs = Ok v ->
     MatMult_shape self inputs = Ok (shape_of v))
  /\
  (forall (self : MatSum Rng Inputs Elt) rng inputs v,
     shape_matches_value (ms_A self) rng inputs ->
     (ms_axis self <> None ->
      forall a, value (ms_A self) rng inputs = Ok a -> ndim a <> 0) ->
     MatSum_compute_value self rng inputs = Ok v ->
     MatSum_shape self inputs = Ok (shape_of v))
  /\
  (forall (self : MatAdd Rng Inputs Elt) rng inputs v,
     shape_matches_value (ma_A self) rng inputs ->
     shape_matches_value (ma_B self) rng inputs ->
     MatAdd_compute_value self rng inputs = Ok v ->
     MatAdd_shape self inputs = Ok (shape_of v))
  /\
  (forall (self : Transpose Rng Inputs Elt) rng inputs v,
     shape_matches_value (tr_A self) rng inputs ->
     Transpose_compute_value self rng inputs = Ok v ->
     Transpose_shape self inputs = Ok (shape_of v))
  /\
  (forall (self : Reshape Rng Inputs Elt) rng inputs v,
     count_negative (rs_new_shape self) = 0 ->
     Reshape_compute_value self rng inputs = Ok v ->
     Reshape_shape self inputs = Ok (shape_of v))
  /\
  (forall (self : Concatenate Rng Inputs Elt) rng inputs v,
     shape_matches_value (ct_A self) rng inputs ->
     shape_matches_value (ct_B self) rng inputs ->
     Concatenate_compute_value self rng inputs = Ok v ->
     Concatenate_shape self inputs = Ok (shape_of v))
  /\
  (forall id (A B : Differentiable Rng Inputs Elt) (axis : option Z) (k : Z) (axes : option (list Z))
          (new_shape : list Z) inputs,
     MatMult_shape (mk_MatMult id (without_value A) (without_value B)) inputs
       = MatMult_shape (mk_MatMult id A B) inputs /\
     MatSum_shape (mk_MatSum id (without_value A) axis) inputs
       = MatSum_shape (mk_MatSum id A axis) inputs /\
     MatAdd_shape (mk_MatAdd id (without_value A) (without_value B)) inputs
       = MatAdd_shape (mk_MatAdd id A B) inputs /\
     Transpose_shape (mk_Transpose id (without_value A) axes) inputs
       = Transpose_shape (mk_Transpose id A axes) inputs /\
     Reshape_shape (mk_Reshape id (without_value A) new_shape) inputs
       = Reshape_shape (mk_Reshape id A new_shape) inputs /\
     Concatenate_shape (mk_Concatenate id (without_value A) (without_value B) k) inputs
       = Concatenate_shape (mk_Concatenate id A B k) inputs).
Proof.
  split; [exact MatMult_shape_value|].
  split; [exact MatSum_shape_value|].
  split; [exact MatAdd_shape_value|].
  split; [exact Transpose_shape_value|].
  split; [exact Reshape_shape_value|].
  split; [exact Concatenate_shape_value|].
  intros. repeat split; reflexivity.
Qed.

(* ------------------------------------------------------------------ *)
(** *** The shape of the local gradient *)

Lemma MatMult_local_grad_shape id (A B : Differentiable Rng Inputs Elt) args (self : MatMult Rng Inputs Elt) d a b :
  MatMult_init id A B args = Ok self ->
  (same_node (mm_A self) (mm_B self) = true -> mm_B self = mm_A self) ->
  value (mm_A self) None None = Ok a -> value (mm_B self) None None = Ok b ->
  shape (mm_A self) None = Ok (shape_of a) ->
  shape (mm_B self) None = Ok (shape_of b) ->
  ndim a = 2 -> ndim b <= 2 ->
  wf b -> wf d ->
  MatMult_shape self None = Ok (shape_of d) ->
  exists gA gB,
    MatMult_local_grad self (mm_A self) d = Ok gA /\ shape_of gA = shape_of a /\
    MatMult_local_grad self (mm_B self) d = Ok gB /\ shape_of gB = shape_of b.
Proof.
  intros Hinit Hsame Hva Hvb Hsa Hsb Hra Hrb Hwb Hwd Hshape.
  destruct (MatMult_init_ok _ _ _ _ _ Hinit) as [_ [sa [sb [Hsa' [Hsb' [_ [Hlb Hin]]]]]]].
  rewrite Hsa in Hsa'. injection Hsa' as <-.
  rewrite Hsb in Hsb'. injection Hsb' as <-.
  unfold ndim in *. rewrite shape_of_length in Hlb. unfold ndim in Hlb.
  unfold MatMult_shape in Hshape. rewrite Hsa, Hsb in Hshape. simpl in Hshape.
  rewrite shape_of_length in Hshape. unfold ndim in Hshape.
  unfold shape_of in Hin, Hshape.
  destruct (same_node (mm_A self) (mm_B self)) eqn:Hdist.
  - (* one node on both sides: a square matrix *)
    specialize (Hsame eq_refl).
    assert (Hab : b = a).
    { rewrite Hsame, Hva in Hvb. injection Hvb as <-. reflexivity. }
    subst b.
    destruct (nd_shape a) as [|m [|k [|z s]]] eqn:Ea; try discriminate.
    simpl in Hin. assert (k = m) by lia. subst k.
    simpl in Hshape. unfold py_index in Hshape. simpl in Hshape.
    injection Hshape as Hshape.
    assert (Hd : nd_shape d = [m; m]).
    { symmetry. apply (map_of_nat_inj [m; m]). assumption. }
    destruct (np_T_matrix a m m Ea) as [HTa _].
    destruct (np_dot_matrix_matrix d (np_T a) m m m Hd HTa) as [g [Hg [_ [Hgs _]]]].
    assert (HgA : MatMult_local_grad self (mm_A self) d = Ok g).
    { rewrite (MatMult_local_grad_A self d _ Hsb).
      replace (length (shape_of a) =? 1) with false
        by (unfold shape_of; rewrite length_map, Ea; reflexivity).
      rewrite Hvb. exact Hg. }
    exists g, g. rewrite Hsame.
    unfold shape_of. rewrite Hgs, Ea. repeat split; assumption.
  - destruct (nd_shape a) as [|m [|k [|z s]]] eqn:Ea; try discriminate.
    destruct (nd_shape b) as [|k' [|n [|z s]]] eqn:Eb; simpl in Hlb, Hrb; try lia.
    + simpl in Hin. assert (k' = k) by lia. subst k'.
      simpl in Hshape. unfold py_index in Hshape. simpl in Hshape.
      injection Hshape as Hshape.
      assert (Hd : nd_shape d = [m]).
      { symmetry. apply (map_of_nat_inj [m]). assumption. }
      destruct (MatMult_local_grad_vector self d (shape_of a) a b m k)
        as [gA [gB [HgA [HgB [HAs [HBs _]]]]]]; try assumption.
      * unfold shape_of. rewrite length_map, Ea. simpl. lia.
      * exists gA, gB. unfold shape_of. rewrite HAs, HBs, Ea, Eb.
        repeat split; assumption.
    + simpl in Hin. assert (k' = k) by lia. subst k'.
      simpl in Hshape. unfold py_index in Hshape. simpl in Hshape.
      injection Hshape as Hshape.
      assert (Hd : nd_shape d = [m; n]).
      { symmetry. apply (map_of_nat_inj [m; n]). assumption. }
      destruct (MatMult_local_grad_matrix self d (shape_of a) a b m k n)
        as [gA [gB [HgA [HgB [HAs [HBs _]]]]]]; try assumption.
      * unfold shape_of. rewrite length_map, Ea. simpl. lia.
      * exists gA, gB. unfold shape_of. rewrite HAs, HBs, Ea, Eb.
        repeat split; assumption.
Qed.

Lemma Forall2_repeat_1 s :
  Forall2 (fun x y => x = 1 \/ x = y) (repeat 1 (length s)) s.
Proof. induction s; simpl; constructor; auto. Qed.

Lemma Forall2_set_nth_1 s : forall k,
  Forall2 (fun x y => x = 1 \/ x = y) (set_nth k 1 s) s.
Proof.
  induction s as [|x s IH]; intros [|k]; simpl; constructor; auto.
  - clear IH. induction s; constructor; auto.
Qed.

Lemma map_of_nat_repeat n : map Z.of_nat (repeat 1 n) = repeat 1%Z n.
Proof. induction n; simpl; [reflexivity | f_equal; assumption]. Qed.

Lemma MatSum_local_grad_shape (self : MatSum Rng Inputs Elt) (d : ndarray Elt) s :
  shape (ms_A self) None = Ok (map Z.of_nat s) ->
  MatSum_shape self None = Ok (shape_of d) ->
  exists g, MatSum_local_grad self (ms_A self) d = Ok g /\
            shape_of g = map Z.of_nat s.
Proof.
  intros HA Hshape. unfold MatSum_local_grad.
  rewrite same_node_refl, HA. simpl. rewrite to_shape_of_nat_ones.
  assert (Hd : Forall2 (fun x y => x = 1 \/ x = y) (nd_shape d) s).
  { unfold MatSum_shape in Hshape. rewrite HA in Hshape.
    destruct (ms_axis self) as [axis|]; simpl in Hshape.
    - unfold py_setitem in Hshape. inv_bind Hshape. injection Hshape as Hshape.
      change 1%Z with (Z.of_nat 1) in Hshape. rewrite <- map_set_nth in Hshape.
      apply map_of_nat_inj in Hshape. rewrite <- Hshape. apply Forall2_set_nth_1.
    - injection Hshape as Hshape. rewrite length_map in Hshape.
      rewrite <- map_of_nat_repeat in Hshape.
      apply map_of_nat_inj in Hshape. rewrite <- Hshape. apply Forall2_repeat_1. }
  unfold np_mul, np_binop. simpl.
  rewrite (np_broadcast_shape_onto _ _ Hd).
  eexists. split; reflexivity.
Qed.

Lemma gather_perm_inverse n s p :
  length s = n -> is_perm n p = true ->
  gather (gather s p) (inv_perm p) = s.
Proof.
  intros Hs Hp.
  destruct (is_perm_spec _ _ (inv_perm_is_perm _ _ Hp)) as [_ [_ Hinq]].
  destruct (is_perm_spec _ _ Hp) as [Hlen _].
  rewrite gather_gather by (intros i Hi; apply Hinq in Hi; lia).
  rewrite (gather_inv_perm _ _ Hp), <- Hs. apply gather_seq.
Qed.

Lemma Transpose_local_grad_shape (self : Transpose Rng Inputs Elt) (parent : Differentiable Rng Inputs Elt) d s :
  shape (tr_A self) None = Ok (map Z.of_nat s) ->
  match tr_axes self with
  | None => True
  | Some axes => explicit_perm (length s) axes = true
  end ->
  Transpose_shape self None = Ok (shape_of d) ->
  exists g, Transpose_local_grad self parent d = Ok g /\
            shape_of g = map Z.of_nat s.
Proof.
  intros HA Hax Hshape. unfold Transpose_shape in Hshape. rewrite HA in Hshape.
  unfold Transpose_local_grad.
  destruct (tr_axes self) as [axes|]; simpl in Hshape.
  - destruct (explicit_perm_spec _ _ Hax) as [Heq Hp].
    set (p := map Z.to_nat axes) in *.
    destruct (is_perm_spec _ _ Hp) as [Hlen [_ Hin]].
    rewrite Heq in Hshape.
    rewrite (map_result_py_index_gather s (map Z.of_nat p) p) in Hshape
      by (apply map_result_py_pos_nat; intros x Hx; apply Hin; assumption).
    injection Hshape as Hshape. apply map_of_nat_inj in Hshape.
    assert (Hnd : ndim d = length s).
    { unfold ndim. rewrite <- Hshape, length_gather. assumption. }
    rewrite Heq, (np_argsort_perm _ _ Hp).
    rewrite np_transpose_perm by (rewrite Hnd; apply inv_perm_is_perm; assumption).
    eexists. split; [reflexivity|].
    unfold shape_of. simpl. rewrite <- Hshape.
    rewrite (gather_perm_inverse (length s)); auto.
  - injection Hshape as Hshape. rewrite <- map_rev in Hshape.
    apply map_of_nat_inj in Hshape.
    eexists. split; [reflexivity|].
    unfold shape_of, ndim. simpl. rewrite gather_rev_seq, <- Hshape, rev_involutive.
    reflexivity.
Qed.

Lemma Reshape_local_grad_shape (self : Reshape Rng Inputs Elt) (parent : Differentiable Rng Inputs Elt) d s :
  shape (rs_A self) None = Ok (map Z.of_nat s) ->
  wf d ->
  Reshape_shape self None = Ok (shape_of d) ->
  size_of (nd_shape d) = size_of s ->
  exists g, Reshape_local_grad self parent d = Ok g /\
            shape_of g = map Z.of_nat s.
Proof.
  intros HA Hwf _ Hsize. unfold Reshape_local_grad. rewrite HA. simpl.
  rewrite np_reshape_to by (rewrite <- Hsize; exact Hwf).
  eexists. split; reflexivity.
Qed.

Lemma Concatenate_local_grad_shape (self : Concatenate Rng Inputs Elt) d sa sb ax :
  same_node (ct_A self) (ct_B self) = false ->
  shape (ct_A self) None = Ok (map Z.of_nat sa) ->
  shape (ct_B self) None = Ok (map Z.of_nat sb) ->
  py_pos IndexError (length sa) (ct_axis self) = Ok ax ->
  length sb = length sa ->
  (forall i, i <> ax -> nth i sb 0 = nth i sa 0) ->
  wf d ->
  Concatenate_shape self None = Ok (shape_of d) ->
  exists gA gB,
    Concatenate_local_grad self (ct_A self) d = Ok gA /\
    shape_of gA = map Z.of_nat sa /\
    Concatenate_local_grad self (ct_B self) d = Ok gB /\
    shape_of gB = map Z.of_nat sb.
Proof.
  intros Hdist HA HB Hax Hlen Hoff Hwf Hshape.
  destruct (Concatenate_shape_inv _ _ _ _ HA HB Hshape)
    as [ax' [b' [Hax' [Hlt [Hb' Hd]]]]].
  assert (Hnd : ndim d = length sa).
  { unfold ndim. rewrite Hd, length_set_nth. reflexivity. }
  rewrite Hnd, Hax in Hax'. injection Hax' as <-.
  destruct (Concatenate_local_grad_distinct self d sa sb Hdist HA HB Hwf Hshape)
    as [ax2 [b [gA [gB [Hax2 [Hb [HgA [HgB [HsA [HsB _]]]]]]]]]].
  rewrite Hnd, Hax in Hax2. injection Hax2 as <-.
  assert (Hbk : b = nth ax sb 0).
  { unfold py_index in Hb. rewrite length_map, Hlen, Hax in Hb. simpl in Hb.
    injection Hb as Hb. change 0%Z with (Z.of_nat 0) in Hb. rewrite map_nth in Hb.
    lia. }
  exists gA, gB. split; [assumption|]. split; [|split; [assumption|]].
  - unfold shape_of. rewrite HsA, Hd, set_nth_twice, set_nth_nth. reflexivity.
  - unfold shape_of. rewrite HsB, Hd, set_nth_twice. f_equal.
    apply nth_ext with (d := 0) (d' := 0).
    + rewrite length_set_nth. symmetry. assumption.
    + intros i Hi. destruct (Nat.eq_dec ax i) as [<-|Hne].
      * rewrite nth_set_nth_same by assumption. assumption.
      * rewrite nth_set_nth_other by assumption. symmetry. apply Hoff. lia.
Qed.

(** C3, as the code has it: with [d] shaped as the node's output,
    [local_grad(P, d)] returns an array of the shape of the operand [P]
    - for a constructed MatMult with a 2-dimensional [A] and a [B] of at
      most 2 dimensions, whose values are available with the declared
      shapes (the two operands may be one node: two handles of one
      identity are then the same node);
    - for MatSum in both modes;
    - for MatAdd with distinct operands;
    - for Transpose with the default reversal or with axes that list the
      numbers 0..n-1 of the operand's axes in some order (no negative axis
      number);
    - for Reshape when the target shape has as many elements as the
      operand;
    - for Concatenate with distinct operands whose shapes agree off the
      concatenation axis. *)
Theorem local_grad_has_operand_shape :
  (forall id (A B : Differentiable Rng Inputs Elt) args (self : MatMult Rng Inputs Elt) d a b,
     MatMult_init id A B args = Ok self ->
     (same_node (mm_A self) (mm_B self) = true -> mm_B self = mm_A self) ->
     value (mm_A self) None None = Ok a -> value (mm_B self) None None = Ok b ->
     shape (mm_A self) None = Ok (shape_of a) ->
     shape (mm_B self) None = Ok (shape_of b) ->
     ndim a = 2 -> ndim b <= 2 ->
     wf b -> wf d ->
     MatMult_shape self None = Ok (shape_of d) ->
     exists gA gB,
       MatMult_local_grad self (mm_A self) d = Ok gA /\ shape_of gA = shape_of a /\
       MatMult_local_grad self (mm_B self) d = Ok gB /\ shape_of gB = shape_of b)
  /\
  (forall (self : MatSum Rng Inputs Elt) d s,
     shape (ms_A self) None = Ok (map Z.of_nat s) ->
     MatSum_shape self None = Ok (shape_of d) ->
     exists g, MatSum_local_grad self (ms_A self) d = Ok g /\
               shape_of g = map Z.of_nat s)
  /\
  (forall (self : MatAdd Rng Inputs Elt) (P : Differentiable Rng Inputs Elt) d sa sb p,
     same_node (ma_A self) (ma_B self) = false ->
     shape (ma_A self) None = Ok (map Z.of_nat sa) ->
     shape (ma_B self) None = Ok (map Z.of_nat sb) ->
     P = ma_A self \/ P = ma_B self ->
     shape P None = Ok (map Z.of_nat p) ->
     wf d ->
     MatAdd_shape self None = Ok (shape_of d) ->
     exists g, MatAdd_local_grad self P d = Ok g /\
               shape_of g = map Z.of_nat p)
  /\
  (forall (self : Transpose Rng Inputs Elt) d s,
     shape (tr_A self) None = Ok (map Z.of_nat s) ->
     match tr_axes self with
     | None => True
     | Some axes => explicit_perm (length s) axes = true
     end ->
     Transpose_shape self None = Ok (shape_of d) ->
     exists g, Transpose_local_grad self (tr_A self) d = Ok g /\
               shape_of g = map Z.of_nat s)
  /\
  (forall (self : Reshape Rng Inputs Elt) d s,
     shape (rs_A self) None = Ok (map Z.of_nat s) ->
     wf d ->
     Reshape_shape self None = Ok (shape_of d) ->
     size_of (nd_shape d) = size_of s ->
     exists g, Reshape_local_grad self (rs_A self) d = Ok g /\
               shape_of g = map Z.of_nat s)
  /\
  (forall (self : Concatenate Rng Inputs Elt) d sa sb ax,
     same_node (ct_A self) (ct_B self) = false ->
     shape (ct_A self) None = Ok (map Z.of_nat sa) ->
     shape (ct_B self) None = Ok (map Z.of_nat sb) ->
     py_pos IndexError (length sa) (ct_axis self) = Ok ax ->
     length sb = length sa ->
     (forall i, i <> ax -> nth i sb 0 = nth i sa 0) ->
     wf d ->
     Concatenate_shape self None = Ok (shape_of d) ->
     exists gA gB,
       Concatenate_local_grad self (ct_A self) d = Ok gA /\
       shape_of gA = map Z.of_nat sa /\
       Concatenate_local_grad self (ct_B self) d = Ok gB /\
       shape_of gB = map Z.of_nat sb).
Proof.
  split; [exact MatMult_local_grad_shape|].
  split; [exact MatSum_local_grad_shape|].
  split.
  { intros self P d sa sb p Hdist HA HB HP HPs Hwf Hshape.
    pose proof (MatAdd_shape_inv _ _ _ _ HA HB Hshape) as Hb.
    destruct (np_broadcast_shape_compat _ _ _ Hb) as [Hca Hcb].
    assert (Hbc : broadcasts_to p (nd_shape d)).
    { destruct HP as [-> | ->].
      - rewrite HA in HPs. injection HPs as HPs. apply map_of_nat_inj in HPs.
        subst. assumption.
      - rewrite HB in HPs. injection HPs as HPs. apply map_of_nat_inj in HPs.
        subst. assumption. }
    destruct (MatAdd_local_grad_spec self P d p Hdist HPs Hwf Hbc)
      as [g [Hg [_ [Hgs _]]]].
    exists g. split; [assumption|]. unfold shape_of. rewrite Hgs. reflexivity. }
  split; [intros self; apply Transpose_local_grad_shape|].
  split; [intros self; apply Reshape_local_grad_shape|].
  exact Concatenate_local_grad_shape.
Qed.

(* ------------------------------------------------------------------ *)
(** *** What the constructors and [local_grad] do not check *)

(** The outcome of the constructor of MatMult from the declared shapes. *)
Lemma MatMult_check_cases id (A B : Differentiable Rng Inputs Elt) sa sb :
  shape A None = Ok sa -> shape B None = Ok sb ->
  MatMult_check id A B =
    if length sa <? 2 then Raise IndexError
    else if length sb <? 1 then Raise IndexError
    else if (nth 1 sa 0 =? nth 0 sb 0)%Z then Ok (mk_MatMult id A B)
    else Raise (CannotMultiply sa sb).
Proof.
  intros HA HB. unfold MatMult_check. rewrite HA. simpl.
  destruct (Nat.ltb_spec (length sa) 2) as [Ha|Ha].
  - unfold py_index, py_pos.
    replace ((- Z.of_nat (length sa) <=? 1)%Z && (1 <? Z.of_nat (length sa))%Z)
      with false; [reflexivity|].
    symmetry. apply andb_false_iff. right. apply Z.ltb_ge. lia.
  - assert (E1 : py_index sa 1 = Ok (nth 1 sa 0%Z))
      by (apply (py_index_nat sa 1); lia).
    rewrite E1. simpl. rewrite HB. simpl.
    destruct (Nat.ltb_spec (length sb) 1) as [Hb|Hb].
    + unfold py_index, py_pos.
      replace ((- Z.of_nat (length sb) <=? 0)%Z && (0 <? Z.of_nat (length sb))%Z)
        with false; [reflexivity|].
      symmetry. apply andb_false_iff. right. apply Z.ltb_ge. lia.
    + assert (E0 : py_index sb 0 = Ok (nth 0 sb 0%Z))
        by (apply (py_index_nat sb 0); lia).
      rewrite E0. simpl. destruct (nth 1 sa 0 =? nth 0 sb 0)%Z; reflexivity.
Qed.

(** The constructors of Concatenate, Transpose and Reshape never fail. *)
Lemma Concatenate_init_total id axis (A B : Differentiable Rng Inputs Elt) args :
  exists self, Concatenate_init id axis A B args = Ok self.
Proof.
  revert id A B. induction args as [|C args IH]; intros id A B; simpl.
  - eexists. reflexivity.
  - destruct (IH (S id) B C) as [inner ->]. simpl. eexists. reflexivity.
Qed.

(** [local_grad] of Transpose and of Reshape does not look at [parent]. *)
Lemma Transpose_local_grad_any_parent (self : Transpose Rng Inputs Elt)
    (parent parent' : Differentiable Rng Inputs Elt) d :
  Transpose_local_grad self parent d = Transpose_local_grad self parent' d.
Proof. reflexivity. Qed.

Lemma Reshape_local_grad_any_parent (self : Reshape Rng Inputs Elt)
    (parent parent' : Differentiable Rng Inputs Elt) d :
  Reshape_local_grad self parent d = Reshape_local_grad self parent' d.
Proof. reflexivity. Qed.

(** The classes that do check: a node that is neither operand is refused. *)
Lemma MatMult_local_grad_not_a_parent (self : MatMult Rng Inputs Elt)
    (parent : Differentiable Rng Inputs Elt) d :
  same_node parent (mm_A self) = false -> same_node parent (mm_B self) = false ->
  MatMult_local_grad self parent d = Raise NotAParentOfMe.
Proof. intros HA HB. unfold MatMult_local_grad. rewrite HA, HB. reflexivity. Qed.

Lemma MatSum_local_grad_not_a_parent (self : MatSum Rng Inputs Elt)
    (parent : Differentiable Rng Inputs Elt) d :
  same_node parent (ms_A self) = false ->
  MatSum_local_grad self parent d = Raise AssertionError.
Proof. intros HA. unfold MatSum_local_grad. rewrite HA. reflexivity. Qed.

End NodeProperties.

(* ================================================================== *)
(** ** Further properties of MatMult *)

Section MatMultChains.

Variables Rng Inputs Elt : Type.

Context {D : Dtype Elt}.

Lemma MatMult_shape_matrices (self : MatMult Rng Inputs Elt) inputs rA cA rB cB :
  shape (mm_A self) inputs = Ok [rA; cA]%Z ->
  shape (mm_B self) inputs = Ok [rB; cB]%Z ->
  MatMult_shape self inputs = Ok [rA; cB]%Z.
Proof.
  intros HA HB. unfold MatMult_shape. rewrite HB. simpl. rewrite HA. reflexivity.
Qed.

Lemma MatMult_check_matrices id (A B : Differentiable Rng Inputs Elt) rA cA rB cB :
  shape A None = Ok [rA; cA]%Z ->
  shape B None = Ok [rB; cB]%Z ->
  MatMult_check id A B =
    if (cA =? rB)%Z then Ok (mk_MatMult id A B)
    else Raise (CannotMultiply [rA; cA]%Z [rB; cB]%Z).
Proof.
  intros HA HB. rewrite (MatMult_check_cases Rng Inputs Elt id A B _ _ HA HB). reflexivity.
Qed.

Lemma MatMult_init_chain args : forall id (A B : Differentiable Rng Inputs Elt)
    rA cA rB cB dims,
  shape A None = Ok [rA; cA]%Z ->
  shape B None = Ok [rB; cB]%Z ->
  Forall2 (fun (N : Differentiable Rng Inputs Elt) rc =>
             shape N None = Ok [fst rc; snd rc]%Z) args dims ->
  if chain_ok cA ((rB, cB) :: dims)
  then exists self,
         MatMult_init id A B args = Ok self /\
         mm_id self = id /\ mm_A self = A /\
         MatMult_shape self None = Ok [rA; last_cols cB dims]%Z
  else exists s1 s2, MatMult_init id A B args = Raise (CannotMultiply s1 s2).
Proof.
  induction args as [|C args IH]; intros id A B rA cA rB cB dims HA HB Hd;
    inversion Hd as [|? [rC cC] ? dims' HC Hrest]; subst.
  - simpl. rewrite andb_true_r.
    rewrite (MatMult_check_matrices id A B rA cA rB cB HA HB).
    destruct (cA =? rB)%Z.
    + eexists. split; [reflexivity|]. split; [reflexivity|]. split; [reflexivity|].
      apply (MatMult_shape_matrices _ None rA cA rB cB); assumption.
    + eexists; eexists; reflexivity.
  - simpl in HC.
    specialize (IH (S id) B C rB cB rC cC dims' HB HC Hrest).
    cbn [MatMult_init chain_ok last_cols].
    cbn [chain_ok] in IH.
    destruct ((cB =? rC)%Z && chain_ok cC dims') eqn:Einner.
    + destruct IH as [inner [Hinner [_ [_ Hshape]]]].
      rewrite Hinner. cbn [bind].
      assert (HN : shape (MatMult_node inner) None
                   = Ok [rB; last_cols cC dims']%Z) by exact Hshape.
      rewrite (MatMult_check_matrices id A (MatMult_node inner) rA cA rB _ HA HN).
      destruct (cA =? rB)%Z; simpl.
      * eexists. split; [reflexivity|]. split; [reflexivity|]. split; [reflexivity|].
        apply (MatMult_shape_matrices _ None rA cA rB (last_cols cC dims'));
          assumption.
      * eexists; eexists; reflexivity.
    + destruct IH as [s1 [s2 Hinner]]. rewrite Hinner. cbn [bind].
      rewrite andb_false_r. exists s1, s2. reflexivity.
Qed.

(** X1: [MatMult(A, B, *args)] over operands that declare matrix shapes is
    constructed exactly when each matrix has as many columns as the next
    one has rows; the node then has [A] as its left operand and declares
    the shape (rows of [A], columns of the last operand); otherwise the
    constructor raises the exception that names two shapes. *)
Theorem MatMult_init_chain_of_matrices
    (id : nat) (A B : Differentiable Rng Inputs Elt) (args : list (Differentiable Rng Inputs Elt))
    (rA cA rB cB : Z) (dims : list (Z * Z)) :
  shape A None = Ok [rA; cA]%Z ->
  shape B None = Ok [rB; cB]%Z ->
  Forall2 (fun (N : Differentiable Rng Inputs Elt) rc =>
             shape N None = Ok [fst rc; snd rc]%Z) args dims ->
  (is_ok (MatMult_init id A B args) = chain_ok cA ((rB, cB) :: dims)) /\
  (forall self, MatMult_init id A B args = Ok self ->
     mm_A self = A /\
     MatMult_shape self None = Ok [rA; last_cols cB dims]%Z) /\
  (chain_ok cA ((rB, cB) :: dims) = false ->
     exists s1 s2, MatMult_init id A B args = Raise (CannotMultiply s1 s2)).
Proof.
  intros HA HB Hd.
  pose proof (MatMult_init_chain args id A B rA cA rB cB dims HA HB Hd) as H.
  destruct (chain_ok cA ((rB, cB) :: dims)) eqn:E.
  - destruct H as [self [Hinit [_ [HAs Hshape]]]].
    split; [rewrite Hinit; reflexivity|]. split; [|discriminate].
    intros self' Hself'. rewrite Hinit in Hself'. injection Hself' as <-.
    split; assumption.
  - destruct H as [s1 [s2 Hinit]].
    split; [rewrite Hinit; reflexivity|]. split.
    + intros self Hself. rewrite Hinit in Hself. discriminate.
    + intros _. exists s1, s2. assumption.
Qed.

(** X2: a MatMult node that passed construction computes its value
    without raising when its operands' values are a matrix [a] and a
    matrix or a vector [b] of the declared shapes, and the value is
    numpy's product in the arithmetic of the element type: in shape (m,n)
    for a matrix [b], the entry (i,j) being the sum of products of row
    [i] of [a] and column [j] of [b]; in shape (m,) for a vector [b], the
    entry [i] being the sum of products of row [i] of [a] and [b]. *)
Theorem MatMult_accepted_computes_product
    (id : nat) (A B : Differentiable Rng Inputs Elt) (args : list (Differentiable Rng Inputs Elt))
    (self : MatMult Rng Inputs Elt) (rng : option Rng) (a b : ndarray Elt) (m k : nat) :
  MatMult_init id A B args = Ok self ->
  value (mm_A self) rng None = Ok a ->
  value (mm_B self) rng None = Ok b ->
  shape (mm_A self) None = Ok (shape_of a) ->
  shape (mm_B self) None = Ok (shape_of b) ->
  nd_shape a = [m; k] ->
  (ndim b = 1 \/ ndim b = 2) ->
  exists v,
    MatMult_compute_value self rng None = Ok v /\
    MatMult_shape self None = Ok (shape_of v) /\
    nth 0 (nd_shape b) 0 = k /\
    (ndim b = 2 ->
       nd_shape v = [m; nth 1 (nd_shape b) 0] /\
       forall i j, i < m -> j < nth 1 (nd_shape b) 0 ->
         get v [i; j] = e_dot (map (fun l => get a [i; l]) (seq 0 k))
                              (map (fun l => get b [l; j]) (seq 0 k))) /\
    (ndim b = 1 ->
       nd_shape v = [m] /\
       forall i, i < m ->
         get v [i] = e_dot (map (fun l => get a [i; l]) (seq 0 k))
                           (map (fun l => get b [l]) (seq 0 k))).
Proof.
  intros Hinit Hva Hvb Hsa Hsb Ha Hb.
  destruct (MatMult_init_ok Rng Inputs Elt _ _ _ _ _ Hinit)
    as [_ [sa [sb [Hsa' [Hsb' [_ [_ Hin]]]]]]].
  rewrite Hsa in Hsa'. injection Hsa' as <-.
  rewrite Hsb in Hsb'. injection Hsb' as <-.
  unfold shape_of in Hin. rewrite Ha in Hin. simpl in Hin.
  assert (Hk : nth 0 (nd_shape b) 0 = k).
  { unfold ndim in Hb. destruct (nd_shape b) as [|x s]; simpl in *; [lia|]. lia. }
  assert (Hcomp : MatMult_compute_value self rng None = np_dot a b).
  { unfold MatMult_compute_value. rewrite Hva, Hvb. reflexivity. }
  assert (Hshape : forall v, np_dot a b = Ok v -> MatMult_shape self None = Ok (shape_of v)).
  { intros v Hv.
    apply (MatMult_shape_value Rng Inputs Elt self rng None a b v); try assumption.
    - intros x Hx. rewrite Hva in Hx. injection Hx as <-. assumption.
    - intros x Hx. rewrite Hvb in Hx. injection Hx as <-. assumption.
    - unfold ndim. rewrite Ha. reflexivity.
    - rewrite Hcomp. assumption. }
  unfold ndim in Hb.
  destruct (nd_shape b) as [|k' [|n [|z s]]] eqn:Eb; simpl in Hb, Hk; try lia.
  - subst k'.
    destruct (np_dot_matrix_vector a b m k Ha Eb) as [v [Hv [_ [Hvs Hvg]]]].
    exists v. rewrite Hcomp. split; [assumption|]. split; [apply Hshape; assumption|].
    split; [reflexivity|]. unfold ndim. rewrite Eb. simpl. split.
    + intros H; discriminate.
    + intros _. split; assumption.
  - subst k'.
    destruct (np_dot_matrix_matrix a b m k n Ha Eb) as [v [Hv [_ [Hvs Hvg]]]].
    exists v. rewrite Hcomp. split; [assumption|]. split; [apply Hshape; assumption|].
    split; [reflexivity|]. unfold ndim. rewrite Eb. simpl. split.
    + intros _. split; assumption.
    + intros H; discriminate.
Qed.

End MatMultChains.

(* ================================================================== *)
(** ** Sums over one axis *)

Lemma unravel_cons d s i r :
  r < size_of s -> unravel (d :: s) (i * size_of s + r) = i :: unravel s r.
Proof.
  intros Hr. simpl. assert (size_of s <> 0) by lia.
  f_equal.
  - rewrite Nat.div_add_l by assumption. rewrite Nat.div_small by assumption. lia.
  - f_equal. rewrite Nat.add_comm, Nat.Div0.mod_add. apply Nat.mod_small. assumption.
Qed.

Lemma unravel_eqb_ravel s r idx :
  r < size_of s -> valid_index s idx ->
  list_eqb Nat.eqb (unravel s r) idx = (r =? ravel s idx).
Proof.
  intros Hr Hidx. destruct (Nat.eqb_spec r (ravel s idx)) as [->|Hne].
  - rewrite unravel_ravel by assumption. apply list_eqb_nat_eq. reflexivity.
  - destruct (list_eqb Nat.eqb (unravel s r) idx) eqn:Heq; [|reflexivity].
    apply list_eqb_nat_eq in Heq. exfalso. apply Hne. rewrite <- Heq.
    symmetry. apply ravel_unravel. assumption.
Qed.

(** The flat positions of a shape (d, s...) block by block. *)
Lemma seq_blocks d S :
  seq 0 (d * S) = flat_map (fun i => map (fun r => i * S + r) (seq 0 S)) (seq 0 d).
Proof.
  induction d as [|d IH]; [reflexivity|].
  replace (Datatypes.S d * S) with (d * S + S) by lia.
  rewrite seq_app, IH, seq_S, flat_map_app. cbn [flat_map Nat.add].
  rewrite app_nil_r. f_equal.
  clear IH. generalize (d * S) as a. intros a.
  revert a. induction S as [|S IHS]; intros a; [reflexivity|].
  rewrite !seq_S, map_app, IHS. cbn [map Nat.add]. reflexivity.
Qed.

Lemma filter_flat_map {T U : Type} (f : U -> bool) (g : T -> list U) l :
  filter f (flat_map g l) = flat_map (fun x => filter f (g x)) l.
Proof.
  induction l as [|x l IH]; [reflexivity|].
  cbn [flat_map]. rewrite filter_app, IH. reflexivity.
Qed.

Lemma filter_seq_single n k0 :
  k0 < n -> filter (fun k => k =? k0) (seq 0 n) = [k0].
Proof.
  intros Hk.
  assert (H : forall len start,
            filter (fun k => k =? k0) (seq start len) =
            if (start <=? k0) && (k0 <? start + len) then [k0] else []).
  { induction len as [|len IH]; intros start; cbn [seq filter].
    - destruct (Nat.leb_spec start k0); destruct (Nat.ltb_spec k0 (start + 0));
        simpl; try reflexivity; lia.
    - rewrite IH. destruct (Nat.eqb_spec start k0) as [->|Hne].
      + replace (Datatypes.S k0 <=? k0) with false by (symmetry; apply Nat.leb_gt; lia).
        rewrite Nat.leb_refl.
        replace (k0 <? k0 + Datatypes.S len) with true
          by (symmetry; apply Nat.ltb_lt; lia).
        reflexivity.
      + destruct (Nat.leb_spec (Datatypes.S start) k0);
          destruct (Nat.leb_spec start k0);
          destruct (Nat.ltb_spec k0 (Datatypes.S start + len));
          destruct (Nat.ltb_spec k0 (start + Datatypes.S len));
          simpl; try reflexivity; lia. }
  rewrite H. simpl. replace (k0 <? n) with true by (symmetry; apply Nat.ltb_lt; lia).
  reflexivity.
Qed.

Lemma flat_map_seq_single {U : Type} (g : nat -> list U) n k0 :
  k0 < n -> (forall k, k < n -> k <> k0 -> g k = []) ->
  flat_map g (seq 0 n) = g k0.
Proof.
  intros Hk Hg.
  assert (H : forall len start, start + len <= n ->
            flat_map g (seq start len) =
            if (start <=? k0) && (k0 <? start + len) then g k0 else []).
  { induction len as [|len IH]; intros start Hle; cbn [seq flat_map].
    - destruct (Nat.leb_spec start k0); destruct (Nat.ltb_spec k0 (start + 0));
        simpl; try reflexivity; lia.
    - rewrite IH by lia. destruct (Nat.eq_dec start k0) as [->|Hne].
      + replace (Datatypes.S k0 <=? k0) with false by (symmetry; apply Nat.leb_gt; lia).
        rewrite Nat.leb_refl.
        replace (k0 <? k0 + Datatypes.S len) with true
          by (symmetry; apply Nat.ltb_lt; lia).
        simpl. apply app_nil_r.
      + rewrite (Hg start) by lia. cbn [app].
        destruct (Nat.leb_spec (Datatypes.S start) k0);
          destruct (Nat.leb_spec start k0);
          destruct (Nat.ltb_spec k0 (Datatypes.S start + len));
          destruct (Nat.ltb_spec k0 (start + Datatypes.S len));
          simpl; try reflexivity; lia. }
  rewrite (H n 0) by lia. simpl.
  replace (k0 <? n) with true by (symmetry; apply Nat.ltb_lt; lia). reflexivity.
Qed.

(** Among the positions of an array of shape [s], those that agree with
    [idx] off the axis [ax] are, in increasing order, the ones reached by
    moving along [ax]. *)
Lemma positions_along_axis s : forall ax idx,
  ax < length s -> valid_index (set_nth ax 1 s) idx ->
  filter (fun k => list_eqb Nat.eqb (remove_at ax (unravel s k)) (remove_at ax idx))
         (seq 0 (size_of s)) =
  map (fun j => ravel s (set_nth ax j idx)) (seq 0 (nth ax s 0)).
Proof.
  induction s as [|d s IH]; intros ax idx Hax Hidx; simpl in Hax; [lia|].
  change (size_of (d :: s)) with (d * size_of s).
  rewrite seq_blocks, filter_flat_map.
  destruct ax as [|ax]; simpl in Hidx;
    inversion Hidx as [|i0 ? idx' ? Hi0 Hidx']; subst.
  - cbn [nth]. rewrite <- (flat_map_ext (fun i => [i * size_of s + ravel s idx'])).
    + clear. induction (seq 0 d) as [|i l IHl]; [reflexivity|].
      cbn [flat_map map app set_nth ravel]. f_equal; exact IHl.
    + intros i. symmetry. rewrite filter_map_swap.
      rewrite (filter_ext_in _ (fun r => r =? ravel s idx')).
      * rewrite filter_seq_single by (apply ravel_lt; assumption). reflexivity.
      * intros r Hr. apply in_seq in Hr.
        rewrite unravel_cons by lia. cbn [remove_at].
        apply unravel_eqb_ravel; [lia | assumption].
  - cbn [nth].
    rewrite (flat_map_seq_single _ d i0 Hi0).
    + rewrite filter_map_swap.
      rewrite (filter_ext_in _
                 (fun r => list_eqb Nat.eqb (remove_at ax (unravel s r))
                                            (remove_at ax idx'))).
      * rewrite (IH ax idx') by (try lia; assumption).
        rewrite map_map. reflexivity.
      * intros r Hr. apply in_seq in Hr.
        rewrite unravel_cons by lia. cbn [remove_at list_eqb].
        rewrite Nat.eqb_refl. reflexivity.
    + intros i Hi Hne. rewrite filter_map_swap.
      rewrite (filter_ext_in _ (fun _ => false)).
      * clear. induction (seq 0 (size_of s)); [reflexivity | assumption].
      * intros r Hr. apply in_seq in Hr.
        rewrite unravel_cons by lia. cbn [remove_at list_eqb].
        replace (i =? i0) with false by (symmetry; apply Nat.eqb_neq; assumption).
        reflexivity.
Qed.

Lemma drop_axes_from_above ax l : forall pos,
  ax < pos -> drop_axes_from pos [ax] l = l.
Proof.
  induction l as [|x l IH]; intros pos Hp; simpl; [reflexivity|].
  destruct (Nat.eqb_spec pos ax); [lia|]. simpl. f_equal. apply IH. lia.
Qed.

Lemma drop_axes_from_remove_at l : forall pos k,
  drop_axes_from pos [pos + k] l = remove_at k l.
Proof.
  induction l as [|x l IH]; intros pos k; simpl.
  - destruct k; reflexivity.
  - destruct k as [|k].
    + rewrite Nat.add_0_r, Nat.eqb_refl. simpl. apply drop_axes_from_above. lia.
    + destruct (Nat.eqb_spec pos (pos + S k)); [lia|]. simpl. f_equal.
      replace (pos + S k) with (S pos + k) by lia. apply IH.
Qed.

Lemma drop_axes_remove_at ax l : drop_axes [ax] l = remove_at ax l.
Proof. unfold drop_axes. apply (drop_axes_from_remove_at l 0 ax). Qed.

Lemma size_of_remove_at s : forall ax,
  ax < length s -> size_of (remove_at ax s) = size_of (set_nth ax 1 s).
Proof.
  induction s as [|d s IH]; intros ax Hax; simpl in Hax; [lia|].
  destruct ax as [|ax]; simpl.
  - change (fold_right Nat.mul 1 s) with (size_of s). lia.
  - change (fold_right Nat.mul 1 (remove_at ax s)) with (size_of (remove_at ax s)).
    change (fold_right Nat.mul 1 (set_nth ax 1 s)) with (size_of (set_nth ax 1 s)).
    rewrite IH by lia. reflexivity.
Qed.

Lemma remove_at_valid s : forall ax idx,
  ax < length s -> valid_index (set_nth ax 1 s) idx ->
  valid_index (remove_at ax s) (remove_at ax idx) /\
  ravel (remove_at ax s) (remove_at ax idx) = ravel (set_nth ax 1 s) idx.
Proof.
  induction s as [|d s IH]; intros ax idx Hax Hidx; simpl in Hax; [lia|].
  destruct ax as [|ax]; simpl in Hidx;
    inversion Hidx as [|i0 ? idx' ? Hi0 Hidx']; subst; simpl.
  - split; [assumption|]. assert (i0 = 0) by lia. subst. lia.
  - destruct (IH ax idx' ltac:(lia) Hidx') as [Hv Hr]. split.
    + constructor; assumption.
    + rewrite Hr.
      change (fold_right Nat.mul 1 (remove_at ax s)) with (size_of (remove_at ax s)).
      change (fold_right Nat.mul 1 (set_nth ax 1 s)) with (size_of (set_nth ax 1 s)).
      rewrite size_of_remove_at by lia. reflexivity.
Qed.

Lemma py_pos_out e n i :
  ~ (- Z.of_nat n <= i < Z.of_nat n)%Z -> py_pos e n i = Raise e.
Proof.
  intros H. unfold py_pos.
  destruct (- Z.of_nat n <=? i)%Z eqn:H1; simpl; [|reflexivity].
  destruct (i <? Z.of_nat n)%Z eqn:H2; simpl; [|reflexivity].
  apply Z.leb_le in H1. apply Z.ltb_lt in H2. lia.
Qed.

Lemma py_pos_in e n i :
  (- Z.of_nat n <= i < Z.of_nat n)%Z ->
  py_pos e n i = Ok (Z.to_nat (if (i <? 0)%Z then i + Z.of_nat n else i)%Z).
Proof.
  intros H. unfold py_pos.
  replace (- Z.of_nat n <=? i)%Z with true by (symmetry; apply Z.leb_le; lia).
  replace (i <? Z.of_nat n)%Z with true by (symmetry; apply Z.ltb_lt; lia).
  reflexivity.
Qed.

Section AxisSums.

Context {Elt : Type} {D : Dtype Elt}.

(** The entries of a sum over one axis: numpy's sum of the entries along
    the axis, in their order. *)
Lemma sum_over_single_get (a : ndarray Elt) ax idx :
  ax < ndim a -> valid_index (set_nth ax 1 (nd_shape a)) idx ->
  nth (ravel (set_nth ax 1 (nd_shape a)) idx) (nd_data (sum_over a [ax])) dflt =
  e_sum (map (fun j => get a (set_nth ax j idx)) (seq 0 (nth ax (nd_shape a) 0))).
Proof.
  intros Hax Hidx. unfold ndim in Hax.
  destruct (remove_at_valid _ _ _ Hax Hidx) as [Hv Hr].
  unfold sum_over, build. cbn [nd_data]. rewrite drop_axes_remove_at.
  rewrite <- Hr.
  pose proof (ravel_lt _ _ Hv) as Hlt.
  match goal with |- nth _ (map ?F _) _ = _ =>
    rewrite nth_indep with (d' := F 0) by (rewrite length_map, length_seq; assumption);
    rewrite (map_nth F)
  end.
  rewrite seq_nth by assumption. cbn [Nat.add].
  rewrite unravel_ravel by assumption.
  f_equal. unfold summed_positions.
  rewrite (filter_ext (fun k => list_eqb Nat.eqb
                         (drop_axes [ax] (unravel (nd_shape a) k)) (remove_at ax idx))
                      (fun k => list_eqb Nat.eqb
                         (remove_at ax (unravel (nd_shape a) k)) (remove_at ax idx)))
    by (intros k; rewrite drop_axes_remove_at; reflexivity).
  rewrite (positions_along_axis (nd_shape a) ax idx Hax Hidx).
  rewrite map_map. reflexivity.
Qed.

(** Summing over an axis in range and putting the axis back succeeds. *)
Lemma np_sum_axis_expand_dims_in_range (a : ndarray Elt) axis ax :
  py_pos ValueError (ndim a) axis = Ok ax ->
  (s <- np_sum_axis a axis ;; np_expand_dims s axis) =
  Ok (mk_ndarray (set_nth ax 1 (nd_shape a)) (nd_data (sum_over a [ax]))).
Proof.
  intros Hax.
  destruct (py_pos_ok _ _ _ _ Hax) as [Hlt [Hr Heq]].
  rewrite np_sum_axis_rank by lia.
  unfold np_sum_axes. cbn [map_result].
  rewrite Hax. cbn [bind nodupb mem_nat existsb negb andb].
  unfold ndim in *.
  unfold np_expand_dims, zlen. cbn [nd_shape sum_over build nd_data].
  rewrite drop_axes_single by assumption.
  assert (Hlen : length (firstn ax (nd_shape a) ++ skipn (S ax) (nd_shape a))
                 = length (nd_shape a) - 1).
  { rewrite length_app, length_firstn, length_skipn. lia. }
  rewrite Hlen.
  set (pos := (if (axis <? 0)%Z
               then (axis + Z.of_nat (length (nd_shape a) - 1) + 1)%Z else axis)).
  assert (Hpos : pos = Z.of_nat ax).
  { unfold pos. destruct (axis <? 0)%Z; lia. }
  rewrite Hpos.
  replace ((0 <=? Z.of_nat ax)%Z && (Z.of_nat ax <=? Z.of_nat (length (nd_shape a) - 1))%Z)
    with true
    by (symmetry; apply andb_true_iff; split; apply Z.leb_le; lia).
  rewrite Nat2Z.id. f_equal. f_equal.
  rewrite set_nth_firstn_skipn by assumption.
  rewrite firstn_app, firstn_firstn, Nat.min_id, length_firstn.
  replace (ax - Nat.min ax (length (nd_shape a))) with 0 by lia.
  rewrite firstn_O, app_nil_r.
  rewrite skipn_app, length_firstn.
  rewrite skipn_all2 by (rewrite length_firstn; lia).
  replace (ax - Nat.min ax (length (nd_shape a))) with 0 by lia.
  reflexivity.
Qed.

End AxisSums.

Lemma py_pos_error_irrelevant e1 e2 n i k :
  py_pos e1 n i = Ok k -> py_pos e2 n i = Ok k.
Proof.
  unfold py_pos. destruct (_ && _); [|discriminate]. intros H. exact H.
Qed.

Lemma bc_index_same_length s idx :
  length idx = length s ->
  bc_index s idx = map (fun di => if fst di =? 1 then 0 else snd di) (combine s idx).
Proof. intros H. unfold bc_index. rewrite H, Nat.sub_diag. reflexivity. Qed.

(** Reading an array whose axis [ax] has length 1 at a position of the
    full shape reads it at entry 0 of that axis. *)
Lemma bc_index_set_nth_1 s : forall ax idx,
  valid_index s idx -> bc_index (set_nth ax 1 s) idx = set_nth ax 0 idx.
Proof.
  intros ax idx H.
  rewrite bc_index_same_length
    by (rewrite length_set_nth; apply valid_index_length; assumption).
  revert ax. induction H as [|i d idx s Hi Hv IH]; intros ax.
  - destruct ax; reflexivity.
  - destruct ax as [|ax]; simpl.
    + f_equal. pose proof (bc_index_valid _ _ Hv) as E.
      rewrite bc_index_same_length in E by (apply valid_index_length; assumption).
      exact E.
    + rewrite IH. f_equal. destruct (Nat.eqb_spec d 1); [lia | reflexivity].
Qed.

Lemma bc_index_repeat_1 idx :
  bc_index (repeat 1 (length idx)) idx = repeat 0 (length idx).
Proof.
  rewrite bc_index_same_length by (rewrite repeat_length; reflexivity).
  induction idx as [|i idx IH]; simpl; [reflexivity|]. f_equal. exact IH.
Qed.

Lemma ravel_repeat_zero n : ravel (repeat 1 n) (repeat 0 n) = 0.
Proof. induction n as [|n IH]; simpl; [reflexivity|]. rewrite IH. reflexivity. Qed.

Lemma valid_index_repeat_1 n idx :
  valid_index (repeat 1 n) idx -> idx = repeat 0 n.
Proof.
  revert idx. induction n as [|n IH]; intros idx H; simpl in H;
    inversion H as [|i ? idx' ? Hi Hv]; subst; [reflexivity|].
  simpl. f_equal; [lia|]. apply IH. assumption.
Qed.

Lemma size_of_repeat_1 n : size_of (repeat 1 n) = 1.
Proof.
  induction n as [|n IH]; [reflexivity|].
  change (size_of (repeat 1 (S n))) with (1 * size_of (repeat 1 n)). lia.
Qed.

(** The reshape of a sum over all elements to a shape of ones. *)
Lemma np_reshape_sum_all {Elt : Type} {D : Dtype Elt} (a : ndarray Elt) n :
  np_reshape (np_sum_all a) (repeat 1%Z n) =
  Ok (mk_ndarray (repeat 1 n) [e_sum (nd_data a)]).
Proof.
  rewrite <- map_of_nat_repeat. rewrite np_reshape_to; [reflexivity|].
  unfold np_sum_all. cbn [nd_data length]. symmetry. apply size_of_repeat_1.
Qed.

Section MatSumProperties.

Variables Rng Inputs Elt : Type.

Context {D : Dtype Elt}.

(** ** X3: the axis of a [MatSum] is looked at only when it is used *)

(** X3 (``MatSum.__init__``, ``shape``, ``compute_value``): the
    constructor accepts every int as axis, whatever the rank of the
    operand.  For an operand of rank [n], the shape and the value exist
    when the axis lies in [-n, n).  For every other axis ``shape`` raises
    IndexError (the assignment ``A_shape[self.axis] = 1``);
    ``compute_value`` then raises the axis error of ``np.sum``, except
    over an operand without axes with the axis 0 or -1, which ``np.sum``
    accepts: there the value exists and has the shape (1,). *)
Theorem MatSum_axis_checked_on_use (id : nat) (A : Differentiable Rng Inputs Elt)
    (k : Z) rng inputs (a : ndarray Elt) :
  value A rng inputs = Ok a ->
  shape A inputs = Ok (shape_of a) ->
  exists self, MatSum_init id A (AxisInt k) = Ok self /\
    ms_A self = A /\ ms_axis self = Some k /\
    ((- Z.of_nat (ndim a) <= k < Z.of_nat (ndim a))%Z ->
       is_ok (MatSum_shape self inputs) = true /\
       is_ok (MatSum_compute_value self rng inputs) = true) /\
    (~ (- Z.of_nat (ndim a) <= k < Z.of_nat (ndim a))%Z ->
       MatSum_shape self inputs = Raise IndexError /\
       (ndim a <> 0 \/ (k <> 0 /\ k <> -1)%Z ->
          MatSum_compute_value self rng inputs = Raise ValueError) /\
       (ndim a = 0 -> (k = 0 \/ k = -1)%Z ->
          exists v, MatSum_compute_value self rng inputs = Ok v /\
                    nd_shape v = [1])).
Proof.
  intros Hv Hs. eexists. split; [reflexivity|].
  split; [reflexivity|]. split; [reflexivity|].
  unfold MatSum_shape, MatSum_compute_value. cbn [ms_axis ms_A].
  rewrite Hv, Hs. cbn [bind]. unfold py_setitem. rewrite shape_of_length.
  split; intros Hk.
  - rewrite (py_pos_in IndexError _ _ Hk). cbn [bind is_ok]. split; [reflexivity|].
    rewrite (np_sum_axis_expand_dims_in_range a k _ (py_pos_in ValueError _ _ Hk)).
    reflexivity.
  - rewrite (py_pos_out IndexError _ _ Hk). split; [reflexivity|]. split.
    + intros Hcase. unfold np_sum_axis.
      replace ((ndim a =? 0) && ((k =? 0) || (k =? -1))%Z) with false.
      * unfold np_sum_axes. cbn [map_result].
        rewrite (py_pos_out ValueError _ _ Hk). reflexivity.
      * symmetry. apply andb_false_iff.
        destruct Hcase as [Hn | [H0 H1]].
        -- left. apply Nat.eqb_neq. exact Hn.
        -- right. apply orb_false_iff. split; apply Z.eqb_neq; assumption.
    + intros Hn Hcase. unfold np_sum_axis. rewrite Hn. cbn [Nat.eqb andb].
      replace ((k =? 0) || (k =? -1))%Z with true
        by (symmetry; apply orb_true_iff;
            destruct Hcase as [-> | ->]; [left | right]; reflexivity).
      cbn [bind]. unfold np_expand_dims, zlen, sum_over. cbn [nd_shape build].
      unfold ndim in Hn. apply length_zero_iff_nil in Hn. rewrite Hn.
      destruct Hcase as [-> | ->]; eexists; split; reflexivity.
Qed.

(** ** X4: a negative axis counts from the last axis *)

(** X4 (``MatSum.shape``, ``MatSum.compute_value``): over an operand of
    rank [n], the axis [k] with [-n <= k < 0] gives the same declared
    shape and the same value as the axis [k + n], through the list
    assignment, ``np.sum`` and ``np.expand_dims`` alike. *)
Theorem MatSum_negative_axis (id id' : nat) (A : Differentiable Rng Inputs Elt)
    (k : Z) rng inputs (a : ndarray Elt) :
  value A rng inputs = Ok a ->
  shape A inputs = Ok (shape_of a) ->
  (- Z.of_nat (ndim a) <= k < 0)%Z ->
  MatSum_shape (mk_MatSum id A (Some k)) inputs =
    MatSum_shape (mk_MatSum id' A (Some (k + Z.of_nat (ndim a))%Z)) inputs /\
  MatSum_compute_value (mk_MatSum id A (Some k)) rng inputs =
    MatSum_compute_value (mk_MatSum id' A (Some (k + Z.of_nat (ndim a))%Z)) rng inputs.
Proof.
  intros Hv Hs Hk.
  assert (H1 : forall e, py_pos e (ndim a) k = Ok (Z.to_nat (k + Z.of_nat (ndim a)))).
  { intros e. rewrite py_pos_in by lia.
    replace (k <? 0)%Z with true by (symmetry; apply Z.ltb_lt; lia). reflexivity. }
  assert (H2 : forall e, py_pos e (ndim a) (k + Z.of_nat (ndim a))
                         = Ok (Z.to_nat (k + Z.of_nat (ndim a)))).
  { intros e. rewrite py_pos_in by lia.
    replace (k + Z.of_nat (ndim a) <? 0)%Z with false
      by (symmetry; apply Z.ltb_ge; lia).
    reflexivity. }
  unfold MatSum_shape, MatSum_compute_value. cbn [ms_axis ms_A].
  rewrite Hv, Hs. cbn [bind]. unfold py_setitem. rewrite shape_of_length.
  rewrite (H1 IndexError), (H2 IndexError). split; [reflexivity|].
  rewrite (np_sum_axis_expand_dims_in_range a _ _ (H1 ValueError)).
  rewrite (np_sum_axis_expand_dims_in_range a _ _ (H2 ValueError)).
  reflexivity.
Qed.

(** ** X5: the entries of a sum over one axis *)

(** X5 (``MatSum.compute_value``, axis given): for an axis in range, the
    value keeps the operand's shape with the summed axis of length 1, and
    its entry at [idx] is numpy's sum, in the arithmetic of the element
    type, of the operand's entries along that axis taken in their order,
    the other coordinates being those of [idx]. *)
Theorem MatSum_compute_value_axis_entries (self : MatSum Rng Inputs Elt)
    (axis : Z) rng inputs (a : ndarray Elt) ax :
  ms_axis self = Some axis ->
  value (ms_A self) rng inputs = Ok a ->
  py_pos ValueError (ndim a) axis = Ok ax ->
  exists v, MatSum_compute_value self rng inputs = Ok v /\
    wf v /\
    nd_shape v = set_nth ax 1 (nd_shape a) /\
    forall idx, valid_index (nd_shape v) idx ->
      get v idx =
      e_sum (map (fun j => get a (set_nth ax j idx)) (seq 0 (nth ax (nd_shape a) 0))).
Proof.
  intros Haxis Hv Hax. unfold MatSum_compute_value. rewrite Haxis, Hv. cbn [bind].
  rewrite (np_sum_axis_expand_dims_in_range a axis ax Hax).
  destruct (py_pos_ok _ _ _ _ Hax) as [Hlt _].
  eexists. split; [reflexivity|]. split; [|split; [reflexivity|]].
  - unfold wf. cbn [nd_shape nd_data]. rewrite <- size_of_remove_at by exact Hlt.
    rewrite <- drop_axes_remove_at.
    apply (build_wf (drop_axes [ax] (nd_shape a))).
  - cbn [nd_shape]. intros idx Hidx. unfold get at 1. cbn [nd_shape nd_data].
    apply sum_over_single_get; assumption.
Qed.

(** ** X6: the sum over all elements *)

(** X6 (``MatSum.compute_value``, no axis): the reshape to
    ``[1] * len(A_val.shape)`` always succeeds; the value has one entry,
    numpy's sum of all elements of the operand in the arithmetic of the
    element type, in a shape of as many ones as the operand has axes. *)
Theorem MatSum_compute_value_all (self : MatSum Rng Inputs Elt) rng inputs
    (a : ndarray Elt) :
  ms_axis self = None ->
  value (ms_A self) rng inputs = Ok a ->
  MatSum_compute_value self rng inputs =
    Ok (mk_ndarray (repeat 1 (ndim a)) [e_sum (nd_data a)]) /\
  forall idx, valid_index (repeat 1 (ndim a)) idx ->
    get (mk_ndarray (repeat 1 (ndim a)) [e_sum (nd_data a)]) idx = e_sum (nd_data a).
Proof.
  intros Haxis Hv. split.
  - unfold MatSum_compute_value. rewrite Haxis, Hv. cbn [bind].
    rewrite shape_of_length. apply np_reshape_sum_all.
  - intros idx Hidx. rewrite (valid_index_repeat_1 _ _ Hidx).
    unfold get. cbn [nd_shape nd_data]. rewrite ravel_repeat_zero. reflexivity.
Qed.

Lemma MatSum_local_grad_axis (self : MatSum Rng Inputs Elt) (d : ndarray Elt) s ax :
  shape (ms_A self) None = Ok (map Z.of_nat s) ->
  nd_shape d = set_nth ax 1 s ->
  exists g, MatSum_local_grad self (ms_A self) d = Ok g /\
    nd_shape g = s /\
    forall idx, valid_index s idx ->
      get g idx = e_mul (get d (set_nth ax 0 idx)) e_one.
Proof.
  intros HA Hd. unfold MatSum_local_grad.
  rewrite same_node_refl, HA. cbn [negb bind]. rewrite to_shape_of_nat_ones.
  cbn [bind]. unfold np_mul, np_binop. cbn [nd_shape build]. rewrite Hd.
  rewrite (np_broadcast_shape_onto _ _ (Forall2_set_nth_1 s ax)).
  eexists. split; [reflexivity|]. split; [reflexivity|].
  intros idx Hidx. rewrite get_build by assumption.
  change (mk_ndarray s (map (fun k => e_one) (seq 0 (size_of s))))
    with (build s (fun _ : list nat => e_one)).
  rewrite (bc_index_valid _ _ Hidx), get_build by assumption.
  rewrite bc_index_set_nth_1 by assumption. reflexivity.
Qed.

Lemma MatSum_local_grad_none (self : MatSum Rng Inputs Elt) (d : ndarray Elt) s :
  shape (ms_A self) None = Ok (map Z.of_nat s) ->
  nd_shape d = repeat 1 (length s) ->
  exists g, MatSum_local_grad self (ms_A self) d = Ok g /\
    nd_shape g = s /\
    forall idx, valid_index s idx ->
      get g idx = e_mul (nth 0 (nd_data d) dflt) e_one.
Proof.
  intros HA Hd. unfold MatSum_local_grad.
  rewrite same_node_refl, HA. cbn [negb bind]. rewrite to_shape_of_nat_ones.
  cbn [bind]. unfold np_mul, np_binop. cbn [nd_shape build]. rewrite Hd.
  rewrite (np_broadcast_shape_onto _ _ (Forall2_repeat_1 s)).
  eexists. split; [reflexivity|]. split; [reflexivity|].
  intros idx Hidx. rewrite get_build by assumption.
  change (mk_ndarray s (map (fun k => e_one) (seq 0 (size_of s))))
    with (build s (fun _ : list nat => e_one)).
  rewrite (bc_index_valid _ _ Hidx), get_build by assumption.
  rewrite <- (valid_index_length _ _ Hidx), bc_index_repeat_1.
  unfold get. rewrite Hd, <- (valid_index_length _ _ Hidx).
  rewrite ravel_repeat_zero. reflexivity.
Qed.

(** What a declared shape of the node says about an array of that shape. *)
Lemma MatSum_shape_inv (self : MatSum Rng Inputs Elt) (d : ndarray Elt) s :
  shape (ms_A self) None = Ok (map Z.of_nat s) ->
  MatSum_shape self None = Ok (shape_of d) ->
  match ms_axis self with
  | None => nd_shape d = repeat 1 (length s)
  | Some axis =>
      exists ax, py_pos IndexError (length s) axis = Ok ax /\
                 nd_shape d = set_nth ax 1 s
  end.
Proof.
  intros HA Hshape.
  unfold MatSum_shape in Hshape. rewrite HA in Hshape. cbn [bind] in Hshape.
  destruct (ms_axis self) as [axis|].
  - unfold py_setitem in Hshape. rewrite length_map in Hshape.
    destruct (py_pos IndexError (length s) axis) as [ax|] eqn:Hax;
      cbn [bind] in Hshape; [|discriminate].
    injection Hshape as Hshape.
    change 1%Z with (Z.of_nat 1) in Hshape. rewrite <- map_set_nth in Hshape.
    apply map_of_nat_inj in Hshape. exists ax. split; [reflexivity|].
    symmetry. exact Hshape.
  - injection Hshape as Hshape. rewrite length_map in Hshape.
    rewrite <- map_of_nat_repeat in Hshape.
    apply map_of_nat_inj in Hshape. symmetry. exact Hshape.
Qed.

(** ** X7: the entries of the gradient of a sum *)

(** X7 (``MatSum.local_grad``): for an incoming gradient of the node's
    declared shape, the gradient for the operand has the operand's shape;
    each of its entries is numpy's product, in the arithmetic of the
    element type, of the incoming entry at the same position with the
    summed axis at 0 and the entry 1 of ``np.ones``, and for the sum over
    all elements the product of the one incoming entry and that 1. *)
Theorem MatSum_local_grad_entries (self : MatSum Rng Inputs Elt) (d : ndarray Elt) s :
  shape (ms_A self) None = Ok (map Z.of_nat s) ->
  MatSum_shape self None = Ok (shape_of d) ->
  exists g, MatSum_local_grad self (ms_A self) d = Ok g /\
    nd_shape g = s /\
    match ms_axis self with
    | None => forall idx, valid_index s idx ->
        get g idx = e_mul (nth 0 (nd_data d) dflt) e_one
    | Some axis =>
        exists ax, py_pos IndexError (length s) axis = Ok ax /\
          forall idx, valid_index s idx ->
            get g idx = e_mul (get d (set_nth ax 0 idx)) e_one
    end.
Proof.
  intros HA Hshape.
  pose proof (MatSum_shape_inv self d s HA Hshape) as Hd.
  destruct (ms_axis self) as [axis|].
  - destruct Hd as [ax [Hax Hd]].
    destruct (MatSum_local_grad_axis self d s ax HA Hd) as [g [Hg [Hs Hget]]].
    exists g. split; [exact Hg|]. split; [exact Hs|].
    exists ax. split; [exact Hax | exact Hget].
  - destruct (MatSum_local_grad_none self d s HA Hd) as [g [Hg [Hs Hget]]].
    exists g. split; [exact Hg|]. split; [exact Hs | exact Hget].
Qed.

End MatSumProperties.

(* ================================================================== *)
(** ** Joining, then splitting *)

Lemma same_except_eq ax sa sb :
  same_except ax sa sb = true -> set_nth ax (nth ax sb 0) sa = sb.
Proof.
  unfold same_except. intros H. apply list_eqb_nat_eq in H.
  rewrite <- (set_nth_twice ax (nth ax sb 0) 0 sa), H, set_nth_twice.
  apply set_nth_nth.
Qed.

Section JoinThenSplit.

Context {Elt : Type} {DE : Default Elt}.

(** Splitting a concatenation at the extent of its first part gives the
    two parts back. *)
Lemma np_split_concatenate (a b : ndarray Elt) axis v :
  wf a -> wf b ->
  np_concatenate a b axis = Ok v ->
  exists ax, py_pos IndexError (ndim a) axis = Ok ax /\
    np_split v (Z.of_nat (nth ax (nd_shape a) 0)) axis = Ok (a, b).
Proof.
  intros Hwa Hwb. unfold np_concatenate.
  destruct (Nat.eqb_spec (ndim a) (ndim b)) as [Hn|Hn]; cbn [negb]; [|discriminate].
  destruct (py_pos ValueError (ndim a) axis) as [ax|] eqn:Hax; cbn [bind]; [|discriminate].
  destruct (same_except ax (nd_shape a) (nd_shape b)) eqn:Hse; [|discriminate].
  intros Hv. injection Hv as Hv.
  destruct (py_pos_ok _ _ _ _ Hax) as [Hlt _]. unfold ndim in Hlt, Hn.
  exists ax. split; [exact (py_pos_error_irrelevant _ IndexError _ _ _ Hax)|].
  set (na := nth ax (nd_shape a) 0) in *.
  set (nb := nth ax (nd_shape b) 0) in *.
  assert (Hsv : nd_shape v = set_nth ax (na + nb) (nd_shape a)).
  { rewrite <- Hv. reflexivity. }
  assert (Hget : forall idx, valid_index (nd_shape v) idx ->
            get v idx = if nth ax idx 0 <? na then get a idx
                        else get b (set_nth ax (nth ax idx 0 - na) idx)).
  { intros idx Hidx. rewrite Hsv in Hidx. rewrite <- Hv.
    rewrite get_build by assumption. reflexivity. }
  clear Hv.
  unfold np_split, ndim. rewrite Hsv, length_set_nth.
  fold (ndim a). rewrite (py_pos_error_irrelevant _ IndexError _ _ _ Hax). cbn [bind].
  rewrite nth_set_nth_same by assumption.
  rewrite slice_bound_nat.
  replace (Nat.min na (na + nb)) with na by lia.
  replace (na + nb - na) with nb by lia.
  rewrite !set_nth_twice.
  unfold na at 1. rewrite set_nth_nth.
  unfold nb at 1. rewrite (same_except_eq _ _ _ Hse).
  f_equal. f_equal.
  - transitivity (build (nd_shape a) (get a)); [|apply build_get; assumption].
    apply build_ext. intros idx Hidx.
    assert (Hi : nth ax idx 0 < na) by (apply valid_index_nth; assumption).
    rewrite Hget.
    + replace (nth ax idx 0 <? na) with true by (symmetry; apply Nat.ltb_lt; lia).
      reflexivity.
    + rewrite Hsv.
      rewrite <- (set_nth_nth ax 0 idx).
      apply (valid_index_set_nth _ idx ax na (nth ax idx 0)).
      * rewrite length_set_nth. assumption.
      * rewrite set_nth_twice. unfold na. rewrite set_nth_nth. assumption.
      * rewrite nth_set_nth_same by assumption. lia.
  - transitivity (build (nd_shape b) (get b)); [|apply build_get; assumption].
    apply build_ext. intros idx Hidx.
    assert (Hi : nth ax idx 0 < nb) by (apply valid_index_nth; [assumption | lia]).
    assert (Hli : ax < length idx)
      by (rewrite (valid_index_length _ _ Hidx); lia).
    rewrite Hget.
    + rewrite nth_set_nth_same by assumption.
      replace (nth ax idx 0 + na <? na) with false by (symmetry; apply Nat.ltb_ge; lia).
      replace (nth ax idx 0 + na - na) with (nth ax idx 0) by lia.
      rewrite set_nth_twice, set_nth_nth. reflexivity.
    + rewrite Hsv.
      apply (valid_index_set_nth _ idx ax nb (nth ax idx 0 + na)).
      * rewrite length_set_nth. assumption.
      * rewrite set_nth_twice. unfold nb. rewrite (same_except_eq _ _ _ Hse).
        assumption.
      * rewrite nth_set_nth_same by assumption. lia.
Qed.

Lemma np_reshape_same_data (a a' : ndarray Elt) t :
  nd_data a = nd_data a' -> np_reshape a t = np_reshape a' t.
Proof. intros H. unfold np_reshape. rewrite H. reflexivity. Qed.

End JoinThenSplit.

Lemma size_of_app s t : size_of (s ++ t) = size_of s * size_of t.
Proof.
  unfold size_of. induction s as [|d s IH]; simpl; [lia|]. rewrite IH. lia.
Qed.

(** The size of a target shape whose one placeholder is filled in. *)
Lemma size_of_inferred (t : list Z) (q : nat) :
  count_negative t = 1 ->
  size_of (map (fun d => if (d <? 0)%Z then q else Z.to_nat d) t) =
  q * size_of (map Z.to_nat (filter (fun d => negb (d <? 0)%Z) t)).
Proof.
  unfold count_negative.
  induction t as [|d t IH]; cbn [filter map length]; [discriminate|].
  destruct (d <? 0)%Z eqn:E; cbn [negb length map]; intros H.
  - injection H as H.
    assert (Hrest : forall u : list Z,
              length (filter (fun d => (d <? 0)%Z) u) = 0 ->
              map (fun d => if (d <? 0)%Z then q else Z.to_nat d) u = map Z.to_nat u /\
              filter (fun d => negb (d <? 0)%Z) u = u).
    { clear. induction u as [|x u IHu]; cbn [filter map length]; [auto|].
      destruct (x <? 0)%Z; cbn [negb length]; [discriminate|].
      intros H. destruct (IHu H) as [-> ->]. auto. }
    destruct (Hrest t H) as [-> ->]. reflexivity.
  - change (size_of (?x :: ?l)) with (x * size_of l).
    rewrite (IH H). lia.
Qed.

Section ShapeOps.

Variables Rng Inputs Elt : Type.

Context {D : Dtype Elt}.

(** ** X8: transposing back *)

(** X8 (``Transpose.compute_value``, ``Transpose.shape``): for inner
    axes that list the numbers 0..n-1 in some order, none of them written
    as a negative number, a Transpose node over a Transpose node, the
    outer one with the argsort of the inner one's axes (or both with the
    default reversal), has the value and the declared shape of the inner
    operand. *)
Theorem Transpose_of_Transpose (id1 id2 : nat) (A : Differentiable Rng Inputs Elt)
    (axes : option (list Z)) rng inputs (X : ndarray Elt) :
  shape_matches_value A rng inputs ->
  value A rng inputs = Ok X ->
  wf X ->
  match axes with
  | None => True
  | Some ax => explicit_perm (ndim X) ax = true
  end ->
  let inner := mk_Transpose id1 A axes in
  let outer := mk_Transpose id2 (Transpose_node inner) (option_map np_argsort axes) in
  Transpose_compute_value outer rng inputs = Ok X /\
  Transpose_shape outer inputs = Ok (shape_of X).
Proof.
  intros HA HX Hwf Hax inner outer.
  destruct (Transpose_round_trip Rng Inputs Elt inner A X Hwf Hax) as [Y [HY Hback]].
  assert (Hinner : Transpose_compute_value inner rng inputs = Ok Y).
  { unfold Transpose_compute_value. cbn [tr_A inner]. rewrite HX. exact HY. }
  assert (Houter : Transpose_compute_value outer rng inputs = Ok X).
  { unfold Transpose_compute_value. cbn [tr_A outer Transpose_node value].
    rewrite Hinner. cbn [bind tr_axes].
    unfold Transpose_local_grad in Hback. cbn [tr_axes inner] in Hback.
    destruct axes as [ax|]; exact Hback. }
  split; [exact Houter|].
  apply (Transpose_shape_value Rng Inputs Elt outer rng inputs X); [|exact Houter].
  intros v Hv. cbn [tr_A outer Transpose_node value shape] in *.
  apply (Transpose_shape_value Rng Inputs Elt inner rng inputs v); [exact HA | exact Hv].
Qed.

(** ** X9: a reshape of a reshape *)

(** X9 (``Reshape.compute_value``): when the inner reshape succeeds, a
    Reshape node over a Reshape node gives what the outer reshape gives
    on the inner operand directly, the same array or the same error. *)
Theorem Reshape_of_Reshape (id1 id2 id3 : nat) (A : Differentiable Rng Inputs Elt)
    (s1 s2 : list Z) rng inputs Y :
  Reshape_compute_value (mk_Reshape id1 A s1) rng inputs = Ok Y ->
  Reshape_compute_value (mk_Reshape id2 (Reshape_node (mk_Reshape id1 A s1)) s2)
      rng inputs =
  Reshape_compute_value (mk_Reshape id3 A s2) rng inputs.
Proof.
  intros HY.
  unfold Reshape_compute_value at 1. cbn [rs_A rs_new_shape Reshape_node value].
  rewrite HY. cbn [bind].
  unfold Reshape_compute_value in *. cbn [rs_A rs_new_shape] in *.
  inv_bind HY. rewrite Hx. cbn [bind].
  apply np_reshape_same_data. eapply np_reshape_data. eassumption.
Qed.

(** ** X10: what a reshape returns *)

(** X10 (``Reshape.compute_value``): whenever the forward pass returns,
    the returned array holds the operand's elements in the same order, has
    as many elements as its shape asks for, and its shape is the stored
    target with a negative entry, if there is one, replaced by the
    operand's element count divided by the product of the other entries. *)
Theorem Reshape_compute_value_keeps_data (self : Reshape Rng Inputs Elt) rng inputs
    (X v : ndarray Elt) :
  value (rs_A self) rng inputs = Ok X ->
  Reshape_compute_value self rng inputs = Ok v ->
  nd_data v = nd_data X /\
  wf v /\
  shape_of v =
    map (fun d => if (d <? 0)%Z
                  then Z.of_nat (length (nd_data X) /
                         size_of (map Z.to_nat
                           (filter (fun d => negb (d <? 0)%Z) (rs_new_shape self))))
                  else d) (rs_new_shape self).
Proof.
  intros HX Hv. unfold Reshape_compute_value in Hv. rewrite HX in Hv. cbn [bind] in Hv.
  split; [eapply np_reshape_data; eassumption|].
  unfold np_reshape in Hv.
  destruct (count_negative (rs_new_shape self)) as [|[|c]] eqn:Hc; [| |discriminate].
  - destruct (to_shape (rs_new_shape self)) as [s|] eqn:Es; cbn [bind] in Hv;
      [|discriminate].
    destruct (Nat.eqb_spec (size_of s) (length (nd_data X))) as [Hsz|]; [|discriminate].
    injection Hv as <-. split; [unfold wf; cbn [nd_shape nd_data]; lia|].
    unfold shape_of. cbn [nd_shape]. rewrite <- (to_shape_ok _ _ Es).
    rewrite <- (map_id (rs_new_shape self)) at 1.
    apply map_ext_in. intros d Hd.
    destruct (Z.ltb_spec d 0) as [Hneg|]; [|reflexivity].
    exfalso. unfold count_negative in Hc.
    assert (Hin : In d (filter (fun d => (d <? 0)%Z) (rs_new_shape self)))
      by (apply filter_In; split; [assumption | apply Z.ltb_lt; assumption]).
    destruct (filter _ (rs_new_shape self)); [destruct Hin | discriminate].
  - set (ks := map Z.to_nat (filter (fun d => negb (d <? 0)%Z) (rs_new_shape self))) in *.
    destruct (Nat.eqb_spec (size_of ks) 0) as [|Hk0]; cbn [orb] in Hv; [discriminate|].
    destruct (Nat.eqb_spec (length (nd_data X) mod size_of ks) 0) as [Hmod|];
      cbn [negb] in Hv; [|discriminate].
    injection Hv as <-. split.
    + unfold wf. cbn [nd_shape nd_data].
      rewrite (size_of_inferred _ _ Hc). fold ks.
      pose proof (Nat.div_mod_eq (length (nd_data X)) (size_of ks)). lia.
    + unfold shape_of. cbn [nd_shape]. rewrite map_map.
      apply map_ext_in. intros d Hd.
      destruct (Z.ltb_spec d 0) as [Hneg|Hpos]; [reflexivity|].
      apply Z2Nat.id. assumption.
Qed.

(** ** X11: the backward pass of a concatenation undoes the forward pass *)

(** X11 (``Concatenate.compute_value``, ``Concatenate.local_grad``): for
    two distinct operands, splitting the concatenated value gives the
    operands' values back: ``local_grad`` applied to the forward value
    returns the value of [A] for the parent [A] and the value of [B] for
    the parent [B]. *)
Theorem Concatenate_local_grad_of_value (self : Concatenate Rng Inputs Elt) rng
    (a b v : ndarray Elt) :
  same_node (ct_A self) (ct_B self) = false ->
  value (ct_A self) rng None = Ok a ->
  value (ct_B self) rng None = Ok b ->
  shape (ct_A self) None = Ok (shape_of a) ->
  wf a -> wf b ->
  Concatenate_compute_value self rng None = Ok v ->
  Concatenate_local_grad self (ct_A self) v = Ok a /\
  Concatenate_local_grad self (ct_B self) v = Ok b.
Proof.
  intros Hab Ha Hb Hsa Hwa Hwb Hv.
  unfold Concatenate_compute_value in Hv. rewrite Ha, Hb in Hv. cbn [bind] in Hv.
  destruct (np_split_concatenate a b (ct_axis self) v Hwa Hwb Hv) as [ax [Hax Hsplit]].
  unfold Concatenate_local_grad. rewrite Hab, Hsa. cbn [bind].
  rewrite (py_index_shape_of Elt a _ ax Hax). cbn [bind].
  rewrite Hsplit. cbn [bind].
  rewrite !same_node_refl.
  rewrite (same_node_sym Rng Inputs Elt (ct_B self) (ct_A self)), Hab.
  split; reflexivity.
Qed.

(** ** X18: the declared shape of a transposition by any axes *)

(** X18 (``Transpose.shape``, ``Transpose.compute_value``): ``shape``
    only indexes the operand's shape by the stored axes.  For axes that
    are all in range it returns a shape, of as many dimensions as there
    are axes, whether or not the axes name every axis once; when they do
    not, ``compute_value`` raises the ValueError of ``np.transpose``. *)
Theorem Transpose_shape_for_any_axes (self : Transpose Rng Inputs Elt)
    (axes : list Z) rng inputs (a : ndarray Elt) p :
  tr_axes self = Some axes ->
  value (tr_A self) rng inputs = Ok a ->
  shape (tr_A self) inputs = Ok (shape_of a) ->
  map_result (py_pos ValueError (ndim a)) axes = Ok p ->
  Transpose_shape self inputs = Ok (map Z.of_nat (gather (nd_shape a) p)) /\
  length (gather (nd_shape a) p) = length axes /\
  (is_perm (ndim a) p = false ->
   Transpose_compute_value self rng inputs = Raise ValueError).
Proof.
  intros Hax Hv Hs Hp. split; [|split].
  - unfold Transpose_shape. rewrite Hax, Hs. cbn [bind].
    apply map_result_py_index_gather. exact Hp.
  - rewrite length_gather. clear - Hp. revert p Hp.
    induction axes as [|x axes IH]; intros p Hp; cbn [map_result] in Hp.
    + injection Hp as <-. reflexivity.
    + inv_bind Hp. inv_bind Hp. injection Hp as <-. cbn [length].
      f_equal. apply IH. assumption.
  - intros Hnp. unfold Transpose_compute_value. rewrite Hv. cbn [bind].
    unfold np_transpose. rewrite Hax, Hp. cbn [bind]. rewrite Hnp. reflexivity.
Qed.

End ShapeOps.

Section NaryNodes.

Variables Rng Inputs Elt : Type.

Context {D : Dtype Elt}.

Lemma Concatenate_shape_of_nat (self : Concatenate Rng Inputs Elt) sa sb ax :
  shape (ct_A self) None = Ok (map Z.of_nat sa) ->
  shape (ct_B self) None = Ok (map Z.of_nat sb) ->
  length sb = length sa ->
  py_pos IndexError (length sa) (ct_axis self) = Ok ax ->
  Concatenate_shape self None =
    Ok (map Z.of_nat (set_nth ax (nth ax sa 0 + nth ax sb 0) sa)).
Proof.
  intros HA HB Hlen Hax. unfold Concatenate_shape. rewrite HA, HB. cbn [bind].
  unfold py_index, py_setitem. rewrite !length_map, Hlen, Hax. cbn [bind].
  f_equal. rewrite map_set_nth, Nat2Z.inj_add.
  change 0%Z with (Z.of_nat 0). rewrite !map_nth. reflexivity.
Qed.

Lemma MatAdd_check_ok id (A B : Differentiable Rng Inputs Elt) self :
  MatAdd_check id A B = Ok self ->
  ma_A self = A /\ ma_B self = B /\
  exists sa sb s, shape A None = Ok sa /\ shape B None = Ok sb /\
                  broadcast sa sb = Some s.
Proof.
  unfold MatAdd_check. intros H. inv_bind H. rename x into sa.
  inv_bind H. rename x into sb.
  destruct (broadcast sa sb) as [s|] eqn:E; [|discriminate].
  injection H as <-. cbn [ma_A ma_B]. split; [reflexivity|]. split; [reflexivity|].
  exists sa, sb, s. auto.
Qed.

Lemma MatAdd_init_ok id (A B : Differentiable Rng Inputs Elt) args self :
  MatAdd_init id A B args = Ok self ->
  ma_A self = A /\
  exists sa sb s, shape A None = Ok sa /\ shape (ma_B self) None = Ok sb /\
                  broadcast sa sb = Some s.
Proof.
  destruct args as [|C args]; cbn [MatAdd_init]; intros H.
  - destruct (MatAdd_check_ok _ _ _ _ H) as [HA [HB Hs]]. rewrite HB. auto.
  - inv_bind H. destruct (MatAdd_check_ok _ _ _ _ H) as [HA [HB Hs]].
    rewrite HB. auto.
Qed.

(** ** X12: the declared shape of a concatenation of several operands *)

(** X12 (``Concatenate.__init__``, ``Concatenate.shape``): the
    constructor nests the operands to the right and accepts them without
    a check.  For operands of one rank and an axis in range, the declared
    shape is the first operand's shape with the extent of the axis
    replaced by the sum of all the operands' extents there; the other
    dimensions are only ever read from the first operand. *)
Theorem Concatenate_init_shape (axis : Z) (n ax : nat) :
  py_pos IndexError n axis = Ok ax ->
  forall (args : list (Differentiable Rng Inputs Elt)) (ss : list (list nat))
         (id : nat) (A B : Differentiable Rng Inputs Elt) (sA sB : list nat),
  shape A None = Ok (map Z.of_nat sA) -> length sA = n ->
  shape B None = Ok (map Z.of_nat sB) -> length sB = n ->
  Forall2 (fun N s => shape N None = Ok (map Z.of_nat s) /\ length s = n) args ss ->
  exists self, Concatenate_init id axis A B args = Ok self /\
    ct_A self = A /\ ct_axis self = axis /\
    Concatenate_shape self None =
      Ok (map Z.of_nat
            (set_nth ax (nat_sum (map (fun s => nth ax s 0) (sA :: sB :: ss))) sA)).
Proof.
  intros Hax args.
  induction args as [|C args IH]; intros ss id A B sA sB HA HlA HB HlB Hargs.
  - destruct ss as [|sC ss']; [|inversion Hargs].
    eexists. split; [reflexivity|]. split; [reflexivity|]. split; [reflexivity|].
    rewrite (Concatenate_shape_of_nat _ sA sB ax); cbn [ct_A ct_B ct_axis];
      try assumption; try congruence.
    cbn [map nat_sum fold_right]. rewrite Nat.add_0_r. reflexivity.
  - destruct ss as [|sC ss']; [inversion Hargs|].
    apply Forall2_cons_iff in Hargs. destruct Hargs as [[HC HlC] Hrest].
    destruct (IH ss' (S id) B C sB sC HB HlB HC HlC Hrest)
      as [inner [Hinner [_ [Hiax Hishape]]]].
    cbn [Concatenate_init]. rewrite Hinner. cbn [bind].
    eexists. split; [reflexivity|]. split; [reflexivity|]. split; [reflexivity|].
    destruct (py_pos_ok _ _ _ _ Hax) as [Hlt _].
    rewrite (Concatenate_shape_of_nat
               (mk_Concatenate id A (Concatenate_node inner) axis) sA
               (set_nth ax (nat_sum (map (fun s => nth ax s 0) (sB :: sC :: ss'))) sB)
               ax);
      cbn [ct_A ct_B ct_axis Concatenate_node shape];
      [ | assumption | assumption | rewrite length_set_nth; congruence | congruence ].
    rewrite nth_set_nth_same by lia. reflexivity.
Qed.

(** ** X13: an accepted sum of arrays can be computed *)

(** X13 (``MatAdd.__init__``, ``MatAdd.compute_value``, ``MatAdd.shape``):
    when the constructor accepts the operands, with ``broadcast`` as the
    specification describes it, and the operands' values have their
    declared shapes, the addition does not raise: the value has the
    declared shape, and each entry is numpy's sum, in the arithmetic of
    the element type, of the two operands' entries read at the broadcast
    position. *)
Theorem MatAdd_accepted_computes_sum (id : nat) (A B : Differentiable Rng Inputs Elt)
    (args : list (Differentiable Rng Inputs Elt)) (self : MatAdd Rng Inputs Elt) rng
    (a b : ndarray Elt) :
  MatAdd_init id A B args = Ok self ->
  value (ma_A self) rng None = Ok a ->
  value (ma_B self) rng None = Ok b ->
  shape (ma_A self) None = Ok (shape_of a) ->
  shape (ma_B self) None = Ok (shape_of b) ->
  exists v, MatAdd_compute_value self rng None = Ok v /\
    MatAdd_shape self None = Ok (shape_of v) /\
    wf v /\
    forall idx, valid_index (nd_shape v) idx ->
      get v idx = e_add (get a (bc_index (nd_shape a) idx))
                        (get b (bc_index (nd_shape b) idx)).
Proof.
  intros Hinit Ha Hb Hsa Hsb.
  destruct (MatAdd_init_ok _ _ _ _ _ Hinit) as [HA [sa [sb [s [HsA [HsB Hbc]]]]]].
  rewrite <- HA in HsA. rewrite Hsa in HsA. rewrite Hsb in HsB.
  injection HsA as <-. injection HsB as <-.
  unfold shape_of in Hbc. rewrite broadcast_of_nat in Hbc.
  destruct (np_broadcast_shape (nd_shape a) (nd_shape b)) as [s'|] eqn:E;
    [|discriminate].
  cbn [option_map] in Hbc. injection Hbc as <-.
  unfold MatAdd_compute_value. rewrite Ha, Hb. cbn [bind].
  unfold np_add, np_binop. rewrite E.
  eexists. split; [reflexivity|]. split; [|split].
  - unfold MatAdd_shape. rewrite Hsa, Hsb. cbn [bind].
    unfold shape_of at 1 2. rewrite broadcast_of_nat, E. reflexivity.
  - apply build_wf.
  - intros idx Hidx. cbn [nd_shape build] in Hidx.
    rewrite get_build by assumption. reflexivity.
Qed.

End NaryNodes.

(* ================================================================== *)
(** ** The MNIST file parsers *)

Lemma byte_val_range b : (0 <= byte_val b < 256)%Z.
Proof.
  unfold byte_val. pose proof (Byte.to_N_bounded b). lia.
Qed.

Lemma be_uint_nonneg bs : (0 <= be_uint bs)%Z.
Proof.
  unfold be_uint.
  assert (H : forall acc, (0 <= acc)%Z ->
            (0 <= fold_left (fun acc b => acc * 256 + byte_val b) bs acc)%Z).
  { induction bs as [|b bs IH]; intros acc Hacc; simpl; [assumption|].
    apply IH. pose proof (byte_val_range b). lia. }
  apply H. lia.
Qed.

Lemma firstn_app_exact {T : Type} n (l l' : list T) :
  length l = n -> firstn n (l ++ l') = l.
Proof.
  intros <-. rewrite firstn_app, Nat.sub_diag, firstn_O, app_nil_r.
  apply firstn_all.
Qed.

Lemma skipn_app_exact {T : Type} n (l l' : list T) :
  length l = n -> skipn n (l ++ l') = l'.
Proof.
  intros <-. rewrite skipn_app, Nat.sub_diag, skipn_all. reflexivity.
Qed.

Section MnistParsers.

#[local] Existing Instance uint8_default.

Lemma get_uint8_array s k :
  k < length s -> get (uint8_array s) [k] = byte_val (nth k s Byte.x00).
Proof.
  intros Hk. unfold get, uint8_array. cbn [nd_shape nd_data ravel size_of fold_right].
  replace (k * 1 + 0) with k by lia.
  rewrite nth_indep with (d' := byte_val Byte.x00) by (rewrite length_map; assumption).
  apply map_nth.
Qed.

(** X14 (``parse_labels``): a stream shorter than the 8 header bytes
    makes ``struct.unpack`` raise; any longer stream is accepted, whatever
    its header says: neither the magic number nor the announced count is
    compared with anything.  The result is the one-dimensional array of
    the bytes after the header, each between 0 and 255. *)
Theorem parse_labels_reads_past_header (fh : list Byte.byte) :
  (length fh < 8 -> parse_labels fh = Failed struct_error) /\
  (8 <= length fh ->
   exists v, parse_labels fh = Parsed v /\
     wf v /\
     nd_shape v = [length fh - 8] /\
     forall k, k < length fh - 8 ->
       get v [k] = byte_val (nth (8 + k) fh Byte.x00) /\
       (0 <= get v [k] < 256)%Z).
Proof.
  unfold parse_labels, read, struct_unpack. rewrite length_firstn. split; intros Hlen.
  - replace (Nat.min 8 (length fh) =? 4 * 2) with false
      by (symmetry; apply Nat.eqb_neq; lia).
    reflexivity.
  - replace (Nat.min 8 (length fh) =? 4 * 2) with true
      by (symmetry; apply Nat.eqb_eq; lia).
    cbn [unpack_fields]. eexists. split; [reflexivity|].
    assert (Hrest : length (skipn 8 fh) = length fh - 8) by apply length_skipn.
    split; [|split].
    + unfold wf, uint8_array. cbn [nd_shape nd_data size_of fold_right].
      rewrite length_map. lia.
    + unfold uint8_array. cbn [nd_shape]. rewrite Hrest. reflexivity.
    + intros k Hk. rewrite get_uint8_array by lia.
      rewrite nth_skipn. split; [reflexivity | apply byte_val_range].
Qed.

(** X15 (``parse_images``): after the magic number, three big-endian
    fields give the number of images, of rows and of columns.  The parser
    returns exactly when their product is the number of bytes after the
    16 header bytes; the pixel [(y, x)] of image [i] is then the byte at
    offset [(i * rows + y) * cols + x] after the header.  With any other
    count of bytes ``np.reshape`` raises ValueError.  The magic number is
    not looked at. *)
Theorem parse_images_layout (magic wn wr wc rest : list Byte.byte) :
  length magic = 4 -> length wn = 4 -> length wr = 4 -> length wc = 4 ->
  let n := Z.to_nat (be_uint wn) in
  let r := Z.to_nat (be_uint wr) in
  let c := Z.to_nat (be_uint wc) in
  let fh := magic ++ wn ++ wr ++ wc ++ rest in
  (n * r * c = length rest ->
   exists v, parse_images fh = Parsed v /\
     wf v /\
     nd_shape v = [n; r; c] /\
     forall i y x, i < n -> y < r -> x < c ->
       get v [i; y; x] = byte_val (nth ((i * r + y) * c + x) rest Byte.x00)) /\
  (n * r * c <> length rest -> parse_images fh = Failed (numpy_error ValueError)).
Proof.
  intros Hm Hn Hr Hc n r c fh.
  assert (Hparse : parse_images fh =
            match np_reshape (uint8_array rest) (map Z.of_nat [n; r; c]) with
            | Ok v => Parsed v
            | Raise e => Failed (numpy_error e)
            end).
  { unfold parse_images, read, fh.
    replace (magic ++ wn ++ wr ++ wc ++ rest)
      with ((magic ++ wn ++ wr ++ wc) ++ rest) by (rewrite <- !app_assoc; reflexivity).
    rewrite firstn_app_exact, skipn_app_exact by (rewrite !length_app; lia).
    unfold struct_unpack.
    replace (length (magic ++ wn ++ wr ++ wc) =? 4 * 4) with true
      by (symmetry; apply Nat.eqb_eq; rewrite !length_app; lia).
    cbn [unpack_fields].
    rewrite (skipn_app_exact 4 magic _ Hm).
    rewrite (firstn_app_exact 4 wn _ Hn), (skipn_app_exact 4 wn _ Hn).
    rewrite (firstn_app_exact 4 wr _ Hr), (skipn_app_exact 4 wr _ Hr).
    rewrite firstn_all2 by lia.
    cbn [map]. unfold n, r, c.
    rewrite !Z2Nat.id by apply be_uint_nonneg.
    reflexivity. }
  rewrite Hparse. split; intros Hsz.
  - rewrite np_reshape_to
      by (unfold uint8_array; cbn [nd_data size_of fold_right];
          rewrite length_map; lia).
    eexists. split; [reflexivity|]. split; [|split; [reflexivity|]].
    + unfold wf, uint8_array. cbn [nd_shape nd_data size_of fold_right].
      rewrite length_map. lia.
    + intros i y x Hi Hy Hx. unfold get, uint8_array.
      cbn [nd_shape nd_data ravel size_of fold_right].
      replace (i * (r * (c * 1)) + (y * (c * 1) + (x * 1 + 0)))
        with ((i * r + y) * c + x) by lia.
      assert (Hk : (i * r + y) * c + x < length rest).
      { rewrite <- Hsz.
        assert (H1 : (i * r + y) * c + x < (i * r + y + 1) * c) by lia.
        assert (H2 : i * r + y + 1 <= n * r) by nia.
        assert (H3 : (i * r + y + 1) * c <= n * r * c)
          by (apply Nat.mul_le_mono_r; assumption).
        lia. }
      rewrite nth_indep with (d' := byte_val Byte.x00)
        by (rewrite length_map; assumption).
      apply map_nth.
  - unfold np_reshape. rewrite count_negative_of_nat, to_shape_of_nat.
    cbn [bind]. unfold uint8_array. cbn [nd_data size_of fold_right].
    rewrite length_map.
    replace (n * (r * (c * 1)) =? length rest) with false
      by (symmetry; apply Nat.eqb_neq; lia).
    reflexivity.
Qed.

(** X16 (``parse_images``): a stream shorter than the 16 header bytes
    makes ``struct.unpack`` raise before anything else is read. *)
Theorem parse_images_short_header (fh : list Byte.byte) :
  length fh < 16 -> parse_images fh = Failed struct_error.
Proof.
  intros Hlen. unfold parse_images, read, struct_unpack. rewrite length_firstn.
  replace (Nat.min 16 (length fh) =? 4 * 4) with false
    by (symmetry; apply Nat.eqb_neq; lia).
  reflexivity.
Qed.

End MnistParsers.

(* ================================================================== *)
(** ** The axes picked by [axes_for_sum] *)

(** X17 (``MatAdd.axes_for_sum``): for an operand shape [p] and an output
    shape [ds] of any two lengths, the result lists, in increasing order
    and each once, the axes [i] of the output whose position counted from
    the end lies past the operand's shape, or meets a dimension 1 of the
    operand there. *)
Theorem axes_for_sum_in_increasing_order (p ds : list nat) :
  axes_for_sum (map Z.of_nat p) (map Z.of_nat ds) =
  map Z.of_nat
    (filter (fun i => summed_from_end p (length ds - i - 1)) (seq 0 (length ds))).
Proof.
  unfold axes_for_sum, zlen. rewrite length_map.
  rewrite <- !map_rev.
  pose proof (axes_for_sum_loop_spec p (length ds) (map Z.of_nat (rev ds)) 0 []) as H.
  simpl in H. rewrite length_map, length_rev in H.
  rewrite H by reflexivity. clear H.
  rewrite <- (map_map (fun j => length ds - j - 1) Z.of_nat).
  rewrite <- map_rev. f_equal.
  apply rev_map_filter_seq.
Qed.

(* ================================================================== *)
(** ** The element type of the examples *)

#[local] Existing Instance scalar_dtype.

(** On int64 elements the sums and the sums of products are the
    mathematical ones, taken modulo 2^64. *)

Lemma wrap64_add_l a b : wrap64 (wrap64 a + b) = wrap64 (a + b).
Proof.
  unfold wrap64.
  assert (Hm : (2 ^ 64 <> 0)%Z) by (intros H; vm_compute in H; discriminate H).
  revert Hm. generalize (2 ^ 64)%Z (2 ^ 63)%Z. intros m h Hm. f_equal.
  replace ((a + h) mod m - h + b + h)%Z with ((a + h) mod m + b)%Z by lia.
  rewrite Z.add_mod_idemp_l by assumption.
  f_equal. lia.
Qed.

Lemma wrap64_add_r a b : wrap64 (a + wrap64 b) = wrap64 (a + b).
Proof. rewrite Z.add_comm, wrap64_add_l. f_equal. apply Z.add_comm. Qed.

Lemma wrap64_idem a : wrap64 (wrap64 a) = wrap64 a.
Proof.
  transitivity (wrap64 (wrap64 a + 0)).
  - f_equal. symmetry. apply Z.add_0_r.
  - rewrite wrap64_add_l. f_equal. apply Z.add_0_r.
Qed.

Lemma scalar_sum_int64 (l : list Z) :
  Forall (fun z => wrap64 z = z) l ->
  scalar_sum (map I64 l) = I64 (wrap64 (fold_right Z.add 0%Z l)).
Proof.
  destruct l as [|x l]; [reflexivity|].
  intros H. apply Forall_cons_iff in H. destruct H as [Hx _].
  cbn [map scalar_sum fold_right]. revert x Hx.
  induction l as [|y l IH]; intros x Hx; cbn [map fold_left fold_right scalar_op].
  - rewrite Z.add_0_r, Hx. reflexivity.
  - rewrite (IH (wrap64 (x + y))) by apply wrap64_idem.
    rewrite wrap64_add_l. f_equal. f_equal. apply eq_sym, Z.add_assoc.
Qed.

Lemma scalar_dot_int64 (r c : list Z) :
  scalar_dot (map I64 r) (map I64 c) =
  I64 (wrap64 (fold_right Z.add 0%Z
                 (map (fun xy => (fst xy * snd xy)%Z) (combine r c)))).
Proof.
  unfold scalar_dot.
  assert (H : map (fun xy => scalar_op Z.mul (fst xy) (snd xy))
                  (combine (map I64 r) (map I64 c)) =
              map I64 (map (fun xy => wrap64 (fst xy * snd xy)) (combine r c))).
  { revert c. induction r as [|x r IH]; intros [|y c]; try reflexivity.
    cbn [map combine fst snd scalar_op]. rewrite IH. reflexivity. }
  rewrite H, scalar_sum_int64.
  - clear H. f_equal. induction (combine r c) as [|xy l IH]; [reflexivity|].
    cbn [map fold_right].
    rewrite wrap64_add_l, <- wrap64_add_r, IH, wrap64_add_r. reflexivity.
  - apply Forall_forall. intros z Hz. apply in_map_iff in Hz.
    destruct Hz as [xy [<- _]]. apply wrap64_idem.
Qed.

(* ================================================================== *)
(** ** Concrete nodes *)

(** C1 fails when the two operands are one node: for [MatMult(A, A)] with
    [A = [[0,1],[0,0]]] and [d = [[1,2],[3,4]]], [local_grad(B, d)] is
    [d . A^T = [[2,0],[4,0]]], not [A^T . d = [[0,0],[1,2]]].  And the
    products are those of the element type: for int64 operands
    [A = [[1,1]]], [B = [[2,2],[0,0]]] and [d = [[2^62, 2^62]]] the
    gradient for [A] is [[0,0]], the entry [2^62 * 2 + 2^62 * 2] of the
    mathematical product [d . B^T] being [2^64]. *)
Lemma MatMult_of_one_node_grad_B_is_grad_A :
  (exists self,
    MatMult_init 5 (leaf 0 [2; 2] [0; 1; 0; 0]%Z) (leaf 0 [2; 2] [0; 1; 0; 0]%Z) []
      = Ok self /\
    shape (mm_A self) None = Ok [2; 2]%Z /\
    MatMult_local_grad self (mm_B self) (arr [2; 2] [1; 2; 3; 4]%Z)
      = Ok (arr [2; 2] [2; 0; 4; 0]%Z) /\
    (a <- value (mm_A self) None None ;;
     np_dot (np_T a) (arr [2; 2] [1; 2; 3; 4]%Z))
      = Ok (arr [2; 2] [0; 0; 1; 2]%Z) /\
    MatMult_local_grad self (mm_B self) (arr [2; 2] [1; 2; 3; 4]%Z)
      <> (a <- value (mm_A self) None None ;;
          np_dot (np_T a) (arr [2; 2] [1; 2; 3; 4]%Z))) /\
  (exists self,
    MatMult_init 5 (leaf 0 [1; 2] [1; 1]%Z) (leaf 1 [2; 2] [2; 2; 0; 0]%Z) []
      = Ok self /\
    MatMult_shape self None = Ok (shape_of (arr [1; 2] [2 ^ 62; 2 ^ 62]%Z)) /\
    MatMult_local_grad self (mm_A self) (arr [1; 2] [2 ^ 62; 2 ^ 62]%Z)
      = Ok (arr [1; 2] [0; 0]%Z) /\
    (2 ^ 62 * 2 + 2 ^ 62 * 2 = 2 ^ 64)%Z).
Proof.
  split.
  - eexists. split; [reflexivity|]. split; [reflexivity|].
    split; [reflexivity|]. split; [reflexivity|]. vm_compute. discriminate.
  - eexists. split; [reflexivity|]. split; [reflexivity|].
    split; [vm_compute; reflexivity | reflexivity].
Qed.

(** C10 fails on its last part when the two operands are one node: the
    node [MatMult(A, A)] with [A = [[1,2],[3,4]]] is accepted, and for
    [d = [[1,0],[0,0]]] [local_grad(B, d)] is [[1,3],[0,0]] while
    [A^T . d] is [[1,0],[2,0]]. *)
Lemma MatMult_square_grad_B_not_At_d :
  exists self,
    MatMult_init 7 (leaf 3 [2; 2] [1; 2; 3; 4]%Z) (leaf 3 [2; 2] [1; 2; 3; 4]%Z) []
      = Ok self /\
    MatMult_local_grad self (mm_B self) (arr [2; 2] [1; 0; 0; 0]%Z)
      = Ok (arr [2; 2] [1; 3; 0; 0]%Z) /\
    (a <- value (mm_A self) None None ;;
     np_dot (np_T a) (arr [2; 2] [1; 0; 0; 0]%Z))
      = Ok (arr [2; 2] [1; 0; 2; 0]%Z) /\
    MatMult_local_grad self (mm_B self) (arr [2; 2] [1; 0; 0; 0]%Z)
      <> (a <- value (mm_A self) None None ;;
          np_dot (np_T a) (arr [2; 2] [1; 0; 0; 0]%Z)).
Proof.
  eexists. split; [reflexivity|]. split; [reflexivity|]. split; [reflexivity|].
  vm_compute. discriminate.
Qed.

(** C2 fails when the two operands are one node: [MatAdd(A, A)] is
    constructed, and for [d] of [A]'s shape [local_grad(A, d)] raises
    instead of returning [d].  And the sums are those of the element
    type, not the mathematical ones: for [A] of shape (2,) and [B] of
    shape (1,), the gradient for [B] of the int64 array
    [d = [2^62, 2^62]] is [[-2^63]], and the one of the float64 array
    [d = [2^53, 1]] is [[2^53]]. *)
Lemma MatAdd_of_one_node_local_grad_raises :
  (exists self,
    MatAdd_init 5 (leaf 0 [2; 2] [1; 2; 3; 4]%Z) (leaf 0 [2; 2] [1; 2; 3; 4]%Z) []
      = Ok self /\
    MatAdd_shape self None = Ok [2; 2]%Z /\
    shape (ma_A self) None = Ok (shape_of (ones [2; 2])) /\
    MatAdd_local_grad self (ma_A self) (ones [2; 2]) = Raise AssertionError /\
    MatAdd_local_grad self (ma_A self) (ones [2; 2]) <> Ok (ones [2; 2])) /\
  (exists self,
    MatAdd_init 5 (leaf 0 [2] [0; 0]%Z) (leaf 1 [1] [0]%Z) [] = Ok self /\
    MatAdd_shape self None = Ok [2]%Z /\
    MatAdd_local_grad self (ma_B self) (arr [2] [2 ^ 62; 2 ^ 62]%Z)
      = Ok (arr [1] [- 2 ^ 63]%Z) /\
    MatAdd_local_grad self (ma_B self) (mk_ndarray [2] [F64 (2 ^ 53); F64 1])
      = Ok (mk_ndarray [1] [F64 (2 ^ 53)]) /\
    (2 ^ 62 + 2 ^ 62 <> - 2 ^ 63)%Z /\ (2 ^ 53 + 1 <> 2 ^ 53)%Z).
Proof.
  split.
  - eexists. split; [reflexivity|]. split; [reflexivity|]. split; [reflexivity|].
    split; [reflexivity | vm_compute; discriminate].
  - eexists. split; [reflexivity|]. split; [reflexivity|].
    split; [vm_compute; reflexivity|]. split; [vm_compute; reflexivity|].
    split; discriminate.
Qed.

(** C3 fails when the two operands of a Concatenate are one node: the node
    is constructed, [d] has the node's output shape (4,3), and
    [local_grad(A, d)] raises instead of returning an array of [A]'s
    shape.  It also fails for a Transpose whose axes are written with a
    negative number: for [A] of shape (2,3) and the axes (-1,0) the node
    has the shape (3,2), and for [d] of that shape [local_grad(A, d)] has
    the shape (3,2) again, not (2,3). *)
Lemma Concatenate_of_one_node_and_Transpose_negative_axes :
  (exists self,
    Concatenate_init 5 0 (leaf 0 [2; 3] [1; 2; 3; 4; 5; 6]%Z)
                         (leaf 0 [2; 3] [1; 2; 3; 4; 5; 6]%Z) [] = Ok self /\
    Concatenate_shape self None = Ok (shape_of (ones [4; 3])) /\
    Concatenate_local_grad self (ct_A self) (ones [4; 3]) = Raise AssertionError /\
    (forall g, Concatenate_local_grad self (ct_A self) (ones [4; 3]) <> Ok g)) /\
  (exists self g,
    Transpose_init 5 (leaf 0 [2; 3] [1; 2; 3; 4; 5; 6]%Z) (Some [-1; 0]%Z) = Ok self /\
    shape (tr_A self) None = Ok [2; 3]%Z /\
    Transpose_shape self None = Ok (shape_of (ones [3; 2])) /\
    Transpose_local_grad self (tr_A self) (ones [3; 2]) = Ok g /\
    shape_of g = [3; 2]%Z /\
    shape (tr_A self) None <> Ok (shape_of g)).
Proof.
  split.
  - eexists. split; [reflexivity|]. split; [reflexivity|].
    split; [reflexivity | intros g; vm_compute; discriminate].
  - eexists. eexists. split; [reflexivity|]. split; [reflexivity|].
    split; [reflexivity|]. split; [reflexivity|]. split; [reflexivity|].
    vm_compute. discriminate.
Qed.

(** C4 fails for a Reshape whose target shape has an entry to be
    inferred: [Reshape(A, (-1,))] over [A] of shape (2,3) declares the
    shape (-1,) while its value has shape (6,), and [Reshape(A, (-2,3))]
    declares (-2,3) while its value has shape (2,3).  It also fails for a
    sum over axis 0 of an operand without axes: the value is computed and
    has the shape (1,), while [shape()] raises IndexError. *)
Lemma Reshape_and_MatSum_shape_differs_from_value :
  (exists self v,
    Reshape_init 5 (leaf 0 [2; 3] [1; 2; 3; 4; 5; 6]%Z) [-1]%Z = Ok self /\
    Reshape_shape self None = Ok [-1]%Z /\
    Reshape_compute_value self None None = Ok v /\
    shape_of v = [6]%Z /\
    Reshape_shape self None <> Ok (shape_of v)) /\
  (exists self v,
    Reshape_init 5 (leaf 0 [2; 3] [1; 2; 3; 4; 5; 6]%Z) [-2; 3]%Z = Ok self /\
    Reshape_shape self None = Ok [-2; 3]%Z /\
    Reshape_compute_value self None None = Ok v /\
    shape_of v = [2; 3]%Z /\
    Reshape_shape self None <> Ok (shape_of v)) /\
  (exists self v,
    MatSum_init 5 (leaf 0 [] [3]%Z) (AxisInt 0) = Ok self /\
    shape (ms_A self) None = Ok [] /\
    MatSum_compute_value self None None = Ok v /\
    v = arr [1] [3]%Z /\
    MatSum_shape self None = Raise IndexError /\
    MatSum_shape self None <> Ok (shape_of v)).
Proof.
  split; [|split].
  - eexists. eexists. split; [reflexivity|]. split; [reflexivity|].
    split; [reflexivity|]. split; [reflexivity|]. vm_compute. discriminate.
  - eexists. eexists. split; [reflexivity|]. split; [reflexivity|].
    split; [reflexivity|]. split; [reflexivity|]. vm_compute. discriminate.
  - eexists. eexists. split; [reflexivity|]. split; [reflexivity|].
    split; [reflexivity|]. split; [reflexivity|]. split; [reflexivity|].
    vm_compute. discriminate.
Qed.

(** C5 at its failing input: [Concatenate(1, A, B)] with [A] of shape (2,3)
    and [B] of shape (5,2) is constructed although the operands disagree
    on the dimension that is not concatenated; its value cannot be
    computed. *)
Lemma Concatenate_init_accepts_incompatible_shapes :
  exists self,
    Concatenate_init 5 1 (leaf 0 [2; 3] [1; 2; 3; 4; 5; 6]%Z)
                         (leaf 1 [5; 2] (repeat 0%Z 10)) [] = Ok self /\
    Concatenate_shape self None = Ok [2; 5]%Z /\
    Concatenate_compute_value self None None = Raise ValueError.
Proof.
  eexists. split; [reflexivity|]. split; reflexivity.
Qed.

(** C6 at its failing input: [Transpose(A).local_grad(C, d)] with [C] a
    node that is not the operand returns the transpose of [d]; in the same
    way Reshape returns the reshaped [d], and MatAdd returns [d] when [C]
    declares the shape of [d]. *)
Lemma Transpose_local_grad_accepts_any_parent :
  (exists self,
     Transpose_init 5 (leaf 0 [2; 3] [1; 2; 3; 4; 5; 6]%Z) None = Ok self /\
     same_node (leaf 9 [1] [0]%Z) (tr_A self) = false /\
     Transpose_local_grad self (leaf 9 [1] [0]%Z)
         (arr [3; 2] [1; 2; 3; 4; 5; 6]%Z)
       = Ok (arr [2; 3] [1; 3; 5; 2; 4; 6]%Z)) /\
  (exists self,
     Reshape_init 5 (leaf 0 [2; 3] [1; 2; 3; 4; 5; 6]%Z) [6]%Z = Ok self /\
     same_node (leaf 9 [1] [0]%Z) (rs_A self) = false /\
     Reshape_local_grad self (leaf 9 [1] [0]%Z) (arr [6] [1; 2; 3; 4; 5; 6]%Z)
       = Ok (arr [2; 3] [1; 2; 3; 4; 5; 6]%Z)) /\
  (exists self,
     MatAdd_init 5 (leaf 0 [2; 2] [1; 2; 3; 4]%Z) (leaf 1 [2] [5; 6]%Z) [] = Ok self /\
     same_node (leaf 9 [2; 2] [0; 0; 0; 0]%Z) (ma_A self) = false /\
     same_node (leaf 9 [2; 2] [0; 0; 0; 0]%Z) (ma_B self) = false /\
     MatAdd_local_grad self (leaf 9 [2; 2] [0; 0; 0; 0]%Z) (ones [2; 2])
       = Ok (ones [2; 2])).
Proof.
  split; [|split]; eexists.
  - split; [reflexivity|]. split; reflexivity.
  - split; [reflexivity|]. split; reflexivity.
  - split; [reflexivity|]. split; [reflexivity|]. split; reflexivity.
Qed.

(** C7 at its failing input: with [A] of shape (3,) and [B] of shape (3,4)
    the last dimension of [A] equals the first of [B], and construction
    raises IndexError.  The constructor reads the second dimension of [A]:
    with [A] of shape (2,3,5) it refuses [B] of shape (5,4) and accepts [B]
    of shape (3,4).  With shapes (2,3) and (4,5) it raises the exception
    that names both shapes. *)
Lemma MatMult_init_rejects_vector_A :
  MatMult_init 5 (leaf 0 [3] [1; 2; 3]%Z) (leaf 1 [3; 4] (repeat 0%Z 12)) []
    = Raise IndexError /\
  MatMult_init 5 (leaf 0 [2; 3; 5] (repeat 0%Z 30)) (leaf 1 [5; 4] (repeat 0%Z 20)) []
    = Raise (CannotMultiply [2; 3; 5]%Z [5; 4]%Z) /\
  is_ok (MatMult_init 5 (leaf 0 [2; 3; 5] (repeat 0%Z 30))
                        (leaf 1 [3; 4] (repeat 0%Z 12)) []) = true /\
  MatMult_init 5 (leaf 0 [2; 3] (repeat 0%Z 6)) (leaf 1 [4; 5] (repeat 0%Z 20)) []
    = Raise (CannotMultiply [2; 3]%Z [4; 5]%Z).
Proof. repeat split; reflexivity. Qed.

(** C9 fails for a Transpose whose axes are written with a negative
    number, which [np.transpose] accepts: [np.argsort] of such a tuple is
    not the inverse permutation.  For [A = [[1,2,3],[4,5,6]]] and the axes
    (-1,0) the forward value is [[1,4],[2,5],[3,6]], and [local_grad]
    applied to it returns it as it is, not [A]. *)
Lemma Transpose_negative_axes_local_grad :
  exists self,
    Transpose_init 5 (leaf 0 [2; 3] [1; 2; 3; 4; 5; 6]%Z) (Some [-1; 0]%Z) = Ok self /\
    value (tr_A self) None None = Ok (arr [2; 3] [1; 2; 3; 4; 5; 6]%Z) /\
    np_transpose (arr [2; 3] [1; 2; 3; 4; 5; 6]%Z) (tr_axes self)
      = Ok (arr [3; 2] [1; 4; 2; 5; 3; 6]%Z) /\
    Transpose_compute_value self None None = Ok (arr [3; 2] [1; 4; 2; 5; 3; 6]%Z) /\
    Transpose_local_grad self (tr_A self) (arr [3; 2] [1; 4; 2; 5; 3; 6]%Z)
      = Ok (arr [3; 2] [1; 4; 2; 5; 3; 6]%Z) /\
    Transpose_local_grad self (tr_A self) (arr [3; 2] [1; 4; 2; 5; 3; 6]%Z)
      <> Ok (arr [2; 3] [1; 2; 3; 4; 5; 6]%Z).
Proof.
  eexists. split; [reflexivity|]. split; [reflexivity|]. split; [reflexivity|].
  split; [reflexivity|]. split; [reflexivity|]. vm_compute. discriminate.
Qed.

(* ================================================================== *)
(** ** The properties at concrete nodes *)

(** A matrix product node over [A] of shape (2,3) and [B] of shape (3,2). *)
Lemma MatMult_local_grad_products_witness :
  exists self,
    MatMult_init 5 (leaf 0 [2; 3] [1; 2; 3; 4; 5; 6]%Z)
                   (leaf 1 [3; 2] [1; 0; 0; 1; 1; 1]%Z) [] = Ok self /\
    same_node (mm_A self) (mm_B self) = false /\
    wf (arr [2; 2] [1; 2; 3; 4]%Z) /\
    MatMult_local_grad self (mm_A self) (arr [2; 2] [1; 2; 3; 4]%Z) =
      (b <- value (mm_B self) None None ;;
       np_dot (arr [2; 2] [1; 2; 3; 4]%Z) (np_T b)) /\
    MatMult_local_grad self (mm_B self) (arr [2; 2] [1; 2; 3; 4]%Z) =
      (a <- value (mm_A self) None None ;;
       np_dot (np_T a) (arr [2; 2] [1; 2; 3; 4]%Z)).
Proof.
  eexists. split; [reflexivity|]. split; [reflexivity|]. split; [reflexivity|].
  destruct (MatMult_local_grad_products unit unit scalar 5
              (leaf 0 [2; 3] [1; 2; 3; 4; 5; 6]%Z)
              (leaf 1 [3; 2] [1; 0; 0; 1; 1; 1]%Z) [] _
              (arr [2; 2] [1; 2; 3; 4]%Z) eq_refl eq_refl eq_refl)
    as [sa [sb [Hsa [Hsb [_ [HA [_ [HB _]]]]]]]].
  injection Hsa as <-. injection Hsb as <-.
  split; [apply HA | apply HB]; simpl; lia.
Defined.

(** The accepted node [MatMult(A, B)] with [A] of shape (2,3). *)
Lemma MatMult_accepted_A_has_rank_2_witness :
  exists self sa,
    MatMult_init 5 (leaf 0 [2; 3] [1; 2; 3; 4; 5; 6]%Z)
                   (leaf 1 [3; 2] [1; 0; 0; 1; 1; 1]%Z) [] = Ok self /\
    shape (mm_A self) None = Ok sa /\ 2 <= length sa.
Proof.
  eexists.
  destruct (MatMult_accepted_A_has_rank_2 unit unit scalar 5
              (leaf 0 [2; 3] [1; 2; 3; 4; 5; 6]%Z)
              (leaf 1 [3; 2] [1; 0; 0; 1; 1; 1]%Z) [] _ eq_refl)
    as [sa [Hsa [Hlen _]]].
  exists sa. split; [reflexivity|]. split; assumption.
Defined.

(** [MatAdd(A, B)] with [A] of shape (3,4) and [B] of shape (4,): the
    gradient for [B] has shape (4,) and adds up the rows of [d]. *)
Lemma MatAdd_local_grad_undoes_broadcast_witness :
  exists self,
    MatAdd_init 5 (leaf 0 [3; 4] (repeat 0%Z 12)) (leaf 1 [4] (repeat 0%Z 4)) []
      = Ok self /\
    same_node (ma_A self) (ma_B self) = false /\
    MatAdd_shape self None =
      Ok (shape_of (arr [3; 4] [1; 2; 3; 4; 5; 6; 7; 8; 9; 10; 11; 12]%Z)) /\
    MatAdd_local_grad self (ma_B self)
      (arr [3; 4] [1; 2; 3; 4; 5; 6; 7; 8; 9; 10; 11; 12]%Z)
      = Ok (arr [4] [15; 18; 21; 24]%Z) /\
    axes_for_sum [4]%Z [3; 4]%Z = [0]%Z.
Proof.
  eexists.
  destruct (MatAdd_local_grad_undoes_broadcast unit unit scalar
              (mk_MatAdd 5 (leaf 0 [3; 4] (repeat 0%Z 12)) (leaf 1 [4] (repeat 0%Z 4)))
              (leaf 1 [4] (repeat 0%Z 4))
              (arr [3; 4] [1; 2; 3; 4; 5; 6; 7; 8; 9; 10; 11; 12]%Z)
              [3; 4] [4] [4]
              eq_refl eq_refl eq_refl (or_intror eq_refl) eq_refl eq_refl eq_refl)
    as [g [Hg [Hs [_ [Hax _]]]]].
  split; [reflexivity|]. split; [reflexivity|]. split; [reflexivity|].
  split; [reflexivity | exact Hax].
Defined.

Lemma leaf_shape_matches_value id s v rng inputs :
  shape_matches_value (leaf id s v) rng inputs.
Proof. intros x H. injection H as <-. reflexivity. Qed.

(** Gradient shapes for a single-axis MatSum over a (3,4) operand, for a
    Transpose of a (2,3,2) operand by the axes (2,0,1), and for a
    Concatenate of (2,3) and (2,2) operands along axis 1. *)
Lemma local_grad_has_operand_shape_witness :
  (exists g,
     MatSum_local_grad (mk_MatSum 5 (leaf 0 [3; 4] (repeat 0%Z 12)) (Some (-1)%Z))
       (leaf 0 [3; 4] (repeat 0%Z 12)) (arr [3; 1] [1; 2; 3]%Z) = Ok g /\
     shape_of g = [3; 4]%Z) /\
  (exists g,
     Transpose_local_grad
       (mk_Transpose 5 (leaf 0 [2; 3; 2] (repeat 0%Z 12)) (Some [2; 0; 1]%Z))
       (leaf 0 [2; 3; 2] (repeat 0%Z 12)) (ones [2; 2; 3]) = Ok g /\
     shape_of g = [2; 3; 2]%Z) /\
  (exists gA gB,
     Concatenate_local_grad
       (mk_Concatenate 5 (leaf 0 [2; 3] (repeat 0%Z 6)) (leaf 1 [2; 2] (repeat 0%Z 4)) 1)
       (leaf 0 [2; 3] (repeat 0%Z 6)) (ones [2; 5]) = Ok gA /\
     shape_of gA = [2; 3]%Z /\
     Concatenate_local_grad
       (mk_Concatenate 5 (leaf 0 [2; 3] (repeat 0%Z 6)) (leaf 1 [2; 2] (repeat 0%Z 4)) 1)
       (leaf 1 [2; 2] (repeat 0%Z 4)) (ones [2; 5]) = Ok gB /\
     shape_of gB = [2; 2]%Z).
Proof.
  pose proof (local_grad_has_operand_shape unit unit scalar)
    as [_ [HSum [_ [HTr [_ HCat]]]]].
  split; [|split].
  - apply (HSum (mk_MatSum 5 (leaf 0 [3; 4] (repeat 0%Z 12)) (Some (-1)%Z))
             (arr [3; 1] [1; 2; 3]%Z) [3; 4]); reflexivity.
  - apply (HTr (mk_Transpose 5 (leaf 0 [2; 3; 2] (repeat 0%Z 12)) (Some [2; 0; 1]%Z))
             (ones [2; 2; 3]) [2; 3; 2]); reflexivity.
  - apply (HCat (mk_Concatenate 5 (leaf 0 [2; 3] (repeat 0%Z 6))
                   (leaf 1 [2; 2] (repeat 0%Z 4)) 1)
             (ones [2; 5]) [2; 3] [2; 2] 1); try reflexivity.
    intros [|[|i]] Hi; try reflexivity. lia.
Defined.

(** Declared and computed shapes for a full-reduction MatSum, for a sum
    over the axis 1 of a (3,4) operand, and for a Reshape with an explicit
    target shape. *)
Lemma shape_agrees_with_computed_value_witness :
  MatSum_shape (mk_MatSum 5 (leaf 0 [3; 4] (repeat 2%Z 12)) None) None =
    Ok (shape_of (arr [1; 1] [24]%Z)) /\
  MatSum_shape (mk_MatSum 5 (leaf 0 [3; 4] (repeat 2%Z 12)) (Some 1%Z)) None =
    Ok (shape_of (arr [3; 1] [8; 8; 8]%Z)) /\
  Reshape_shape (mk_Reshape 5 (leaf 0 [2; 3] [1; 2; 3; 4; 5; 6]%Z) [3; 2]%Z) None =
    Ok (shape_of (arr [3; 2] [1; 2; 3; 4; 5; 6]%Z)).
Proof.
  pose proof (shape_agrees_with_computed_value unit unit scalar)
    as [_ [HSum [_ [_ [HRe _]]]]].
  split; [|split].
  - apply (HSum (mk_MatSum 5 (leaf 0 [3; 4] (repeat 2%Z 12)) None) None None).
    + apply leaf_shape_matches_value.
    + intros H. exfalso. apply H. reflexivity.
    + reflexivity.
  - apply (HSum (mk_MatSum 5 (leaf 0 [3; 4] (repeat 2%Z 12)) (Some 1%Z)) None None).
    + apply leaf_shape_matches_value.
    + intros _ a Ha. injection Ha as <-. discriminate.
    + reflexivity.
  - apply (HRe (mk_Reshape 5 (leaf 0 [2; 3] [1; 2; 3; 4; 5; 6]%Z) [3; 2]%Z) None None);
      reflexivity.
Defined.

(** The split of the ones of shape (2,5) for operands of shapes (2,3) and
    (2,2) joined along axis 1. *)
Lemma Concatenate_local_grad_splits_at_A_extent_witness :
  exists gA gB,
    Concatenate_local_grad
      (mk_Concatenate 5 (leaf 0 [2; 3] (repeat 0%Z 6)) (leaf 1 [2; 2] (repeat 0%Z 4)) 1)
      (leaf 0 [2; 3] (repeat 0%Z 6)) (ones [2; 5]) = Ok gA /\
    Concatenate_local_grad
      (mk_Concatenate 5 (leaf 0 [2; 3] (repeat 0%Z 6)) (leaf 1 [2; 2] (repeat 0%Z 4)) 1)
      (leaf 1 [2; 2] (repeat 0%Z 4)) (ones [2; 5]) = Ok gB /\
    np_concatenate gA gB 1 = Ok (ones [2; 5]).
Proof.
  destruct (proj1 (Concatenate_local_grad_splits_at_A_extent unit unit scalar)
              (mk_Concatenate 5 (leaf 0 [2; 3] (repeat 0%Z 6))
                 (leaf 1 [2; 2] (repeat 0%Z 4)) 1)
              (ones [2; 5]) [2; 3] [2; 2] eq_refl eq_refl eq_refl eq_refl eq_refl)
    as [ax [b [gA [gB [_ [_ [HA [HB [_ [_ [_ [_ Hcat]]]]]]]]]]]].
  exists gA, gB. split; [exact HA|]. split; [exact HB | exact Hcat].
Defined.

(** A round trip through a Transpose by the axes (2,0,1) and through a
    Reshape of a (2,3) operand to (3,2). *)
Lemma local_grad_inverts_transpose_and_reshape_witness :
  (exists Y,
     np_transpose (arr [2; 3; 2] [1; 2; 3; 4; 5; 6; 7; 8; 9; 10; 11; 12]%Z)
       (Some [2; 0; 1]%Z) = Ok Y /\
     Transpose_local_grad
       (mk_Transpose 5 (leaf 0 [2; 3; 2] (repeat 0%Z 12)) (Some [2; 0; 1]%Z))
       (leaf 0 [2; 3; 2] (repeat 0%Z 12)) Y
     = Ok (arr [2; 3; 2] [1; 2; 3; 4; 5; 6; 7; 8; 9; 10; 11; 12]%Z)) /\
  Reshape_local_grad
    (mk_Reshape 5 (leaf 0 [2; 3] (repeat 0%Z 6)) [3; -1]%Z)
    (leaf 0 [2; 3] (repeat 0%Z 6))
    (arr [3; 2] [1; 2; 3; 4; 5; 6]%Z)
  = Ok (arr [2; 3] [1; 2; 3; 4; 5; 6]%Z).
Proof.
  pose proof (local_grad_inverts_transpose_and_reshape unit unit scalar) as [HTr HRe].
  split.
  - apply (HTr (mk_Transpose 5 (leaf 0 [2; 3; 2] (repeat 0%Z 12)) (Some [2; 0; 1]%Z))
             (leaf 0 [2; 3; 2] (repeat 0%Z 12))); reflexivity.
  - apply (HRe (mk_Reshape 5 (leaf 0 [2; 3] (repeat 0%Z 6)) [3; -1]%Z)
             (leaf 0 [2; 3] (repeat 0%Z 6))
             (arr [2; 3] [1; 2; 3; 4; 5; 6]%Z)); reflexivity.
Defined.

(* ================================================================== *)
(** ** Further properties at concrete nodes and files *)

#[local] Existing Instance uint8_default.

(** The chain (2,3) x (3,4) x (4,5) is accepted and declares (2,5). *)
Lemma MatMult_init_chain_of_matrices_witness :
  is_ok (MatMult_init 5 (leaf 0 [2; 3] (repeat 0%Z 6)) (leaf 1 [3; 4] (repeat 0%Z 12))
           [leaf 2 [4; 5] (repeat 0%Z 20)]) = true /\
  forall self,
    MatMult_init 5 (leaf 0 [2; 3] (repeat 0%Z 6)) (leaf 1 [3; 4] (repeat 0%Z 12))
      [leaf 2 [4; 5] (repeat 0%Z 20)] = Ok self ->
    MatMult_shape self None = Ok [2; 5]%Z.
Proof.
  destruct (MatMult_init_chain_of_matrices unit unit scalar 5
              (leaf 0 [2; 3] (repeat 0%Z 6)) (leaf 1 [3; 4] (repeat 0%Z 12))
              [leaf 2 [4; 5] (repeat 0%Z 20)] 2 3 3 4 [(4, 5)%Z]
              eq_refl eq_refl
              ltac:(constructor; [reflexivity | constructor]))
    as [H1 [H2 _]].
  split; [exact H1|]. intros self Hself. exact (proj2 (H2 self Hself)).
Defined.

(** The product of a (2,3) matrix and a (3,2) matrix. *)
Lemma MatMult_accepted_computes_product_witness :
  exists v,
    MatMult_compute_value
      (mk_MatMult 5 (leaf 0 [2; 3] [1; 2; 3; 4; 5; 6]%Z)
                    (leaf 1 [3; 2] [1; 0; 0; 1; 1; 1]%Z)) None None = Ok v /\
    nd_shape v = [2; 2] /\
    get v [1; 0] = I64 10.
Proof.
  destruct (MatMult_accepted_computes_product unit unit scalar 5
              (leaf 0 [2; 3] [1; 2; 3; 4; 5; 6]%Z)
              (leaf 1 [3; 2] [1; 0; 0; 1; 1; 1]%Z) []
              (mk_MatMult 5 (leaf 0 [2; 3] [1; 2; 3; 4; 5; 6]%Z)
                            (leaf 1 [3; 2] [1; 0; 0; 1; 1; 1]%Z))
              None
              (arr [2; 3] [1; 2; 3; 4; 5; 6]%Z)
              (arr [3; 2] [1; 0; 0; 1; 1; 1]%Z) 2 3
              eq_refl eq_refl eq_refl eq_refl eq_refl eq_refl (or_intror eq_refl))
    as [v [Hv [_ [_ [Hm _]]]]].
  destruct (Hm eq_refl) as [Hs Hg].
  exists v. split; [exact Hv|]. split; [exact Hs|].
  rewrite (Hg 1 0) by (simpl; lia). reflexivity.
Defined.

(** Axis 2 of a (3,4) operand: accepted by the constructor, refused by
    [shape] and by [compute_value].  Axis 0 of an operand without axes:
    refused by [shape], while the value has the shape (1,). *)
Lemma MatSum_axis_checked_on_use_witness :
  (exists self,
    MatSum_init 5 (leaf 0 [3; 4] (repeat 0%Z 12)) (AxisInt 2) = Ok self /\
    MatSum_shape self None = Raise IndexError /\
    MatSum_compute_value self None None = Raise ValueError) /\
  (exists self v,
    MatSum_init 5 (leaf 0 [] [3]%Z) (AxisInt 0) = Ok self /\
    MatSum_shape self None = Raise IndexError /\
    MatSum_compute_value self None None = Ok v /\
    nd_shape v = [1]).
Proof.
  split.
  - destruct (MatSum_axis_checked_on_use unit unit scalar 5
                (leaf 0 [3; 4] (repeat 0%Z 12)) 2 None None
                (arr [3; 4] (repeat 0%Z 12)) eq_refl eq_refl)
      as [self [Hinit [_ [_ [_ Hout]]]]].
    exists self. split; [exact Hinit|].
    destruct (Hout ltac:(unfold ndim; simpl; lia)) as [Hs [Hv _]].
    split; [exact Hs|]. apply Hv. left. discriminate.
  - destruct (MatSum_axis_checked_on_use unit unit scalar 5
                (leaf 0 [] [3]%Z) 0 None None
                (arr [] [3]%Z) eq_refl eq_refl)
      as [self [Hinit [_ [_ [_ Hout]]]]].
    destruct (Hout ltac:(unfold ndim; simpl; lia)) as [Hs [_ Hv]].
    destruct (Hv eq_refl (or_introl eq_refl)) as [v [Hval Hshape]].
    exists self, v. split; [exact Hinit|]. split; [exact Hs|].
    split; [exact Hval | exact Hshape].
Defined.

(** Axis -1 and axis 1 of a (3,4) operand. *)
Lemma MatSum_negative_axis_witness :
  MatSum_shape (mk_MatSum 5 (leaf 0 [3; 4] (repeat 1%Z 12)) (Some (-1)%Z)) None =
    MatSum_shape (mk_MatSum 6 (leaf 0 [3; 4] (repeat 1%Z 12)) (Some 1%Z)) None /\
  MatSum_compute_value (mk_MatSum 5 (leaf 0 [3; 4] (repeat 1%Z 12)) (Some (-1)%Z))
      None None =
    MatSum_compute_value (mk_MatSum 6 (leaf 0 [3; 4] (repeat 1%Z 12)) (Some 1%Z))
      None None.
Proof.
  apply (MatSum_negative_axis unit unit scalar 5 6 (leaf 0 [3; 4] (repeat 1%Z 12)) (-1)%Z
           None None (arr [3; 4] (repeat 1%Z 12)) eq_refl eq_refl).
  unfold ndim. simpl. lia.
Defined.

(** The sums of the rows of a (2,3) matrix. *)
Lemma MatSum_compute_value_axis_entries_witness :
  exists v,
    MatSum_compute_value
      (mk_MatSum 5 (leaf 0 [2; 3] [1; 2; 3; 4; 5; 6]%Z) (Some 1%Z)) None None = Ok v /\
    nd_shape v = [2; 1] /\
    get v [1; 0] = I64 15.
Proof.
  destruct (MatSum_compute_value_axis_entries unit unit scalar
              (mk_MatSum 5 (leaf 0 [2; 3] [1; 2; 3; 4; 5; 6]%Z) (Some 1%Z))
              1%Z None None (arr [2; 3] [1; 2; 3; 4; 5; 6]%Z) 1
              eq_refl eq_refl eq_refl)
    as [v [Hv [_ [Hs Hg]]]].
  exists v. split; [exact Hv|]. split; [exact Hs|].
  rewrite (Hg [1; 0]).
  - reflexivity.
  - rewrite Hs. repeat constructor.
Defined.

(** The sum of all elements of a (2,3) matrix. *)
Lemma MatSum_compute_value_all_witness :
  MatSum_compute_value
    (mk_MatSum 5 (leaf 0 [2; 3] [1; 2; 3; 4; 5; 6]%Z) None) None None =
  Ok (arr [1; 1] [21]%Z).
Proof.
  exact (proj1 (MatSum_compute_value_all unit unit scalar
                  (mk_MatSum 5 (leaf 0 [2; 3] [1; 2; 3; 4; 5; 6]%Z) None)
                  None None (arr [2; 3] [1; 2; 3; 4; 5; 6]%Z)
                  eq_refl eq_refl)).
Defined.

(** The gradient of the row sums of a (3,4) operand repeats each incoming
    entry along the row. *)
Lemma MatSum_local_grad_entries_witness :
  exists g,
    MatSum_local_grad (mk_MatSum 5 (leaf 0 [3; 4] (repeat 0%Z 12)) (Some (-1)%Z))
      (leaf 0 [3; 4] (repeat 0%Z 12)) (arr [3; 1] [7; 8; 9]%Z) = Ok g /\
    nd_shape g = [3; 4] /\
    get g [1; 2] = F64 8.
Proof.
  destruct (MatSum_local_grad_entries unit unit scalar
              (mk_MatSum 5 (leaf 0 [3; 4] (repeat 0%Z 12)) (Some (-1)%Z))
              (arr [3; 1] [7; 8; 9]%Z) [3; 4] eq_refl eq_refl)
    as [g [Hg [Hs [ax [Hax Hget]]]]].
  exists g. split; [exact Hg|]. split; [exact Hs|].
  injection Hax as <-.
  rewrite (Hget [1; 2]) by (repeat constructor). reflexivity.
Defined.

(** Transposing a (2,3) matrix by (1,0) and back. *)
Lemma Transpose_of_Transpose_witness :
  Transpose_compute_value
    (mk_Transpose 6
       (Transpose_node (mk_Transpose 5 (leaf 0 [2; 3] [1; 2; 3; 4; 5; 6]%Z)
                          (Some [1; 0]%Z)))
       (Some (np_argsort [1; 0]%Z))) None None =
  Ok (arr [2; 3] [1; 2; 3; 4; 5; 6]%Z).
Proof.
  exact (proj1 (Transpose_of_Transpose unit unit scalar 5 6
                  (leaf 0 [2; 3] [1; 2; 3; 4; 5; 6]%Z) (Some [1; 0]%Z) None None
                  (arr [2; 3] [1; 2; 3; 4; 5; 6]%Z)
                  (leaf_shape_matches_value 0 [2; 3] [1; 2; 3; 4; 5; 6]%Z None None)
                  eq_refl eq_refl eq_refl)).
Defined.

(** A (2,3) operand reshaped to (3,2) and then to (6,). *)
Lemma Reshape_of_Reshape_witness :
  Reshape_compute_value
    (mk_Reshape 6
       (Reshape_node (mk_Reshape 5 (leaf 0 [2; 3] [1; 2; 3; 4; 5; 6]%Z) [3; 2]%Z))
       [6]%Z) None None =
  Reshape_compute_value
    (mk_Reshape 7 (leaf 0 [2; 3] [1; 2; 3; 4; 5; 6]%Z) [6]%Z) None None.
Proof.
  exact (Reshape_of_Reshape unit unit scalar 5 6 7
           (leaf 0 [2; 3] [1; 2; 3; 4; 5; 6]%Z) [3; 2]%Z [6]%Z None None
           (arr [3; 2] [1; 2; 3; 4; 5; 6]%Z) eq_refl).
Defined.

(** A (2,3) operand reshaped to (3,-1). *)
Lemma Reshape_compute_value_keeps_data_witness :
  Reshape_compute_value
    (mk_Reshape 5 (leaf 0 [2; 3] [1; 2; 3; 4; 5; 6]%Z) [3; -1]%Z) None None =
    Ok (arr [3; 2] [1; 2; 3; 4; 5; 6]%Z) /\
  wf (arr [3; 2] [1; 2; 3; 4; 5; 6]%Z) /\
  shape_of (arr [3; 2] [1; 2; 3; 4; 5; 6]%Z) = [3; 2]%Z.
Proof.
  destruct (Reshape_compute_value_keeps_data unit unit scalar
              (mk_Reshape 5 (leaf 0 [2; 3] [1; 2; 3; 4; 5; 6]%Z) [3; -1]%Z)
              None None
              (arr [2; 3] [1; 2; 3; 4; 5; 6]%Z)
              (arr [3; 2] [1; 2; 3; 4; 5; 6]%Z) eq_refl eq_refl)
    as [_ [Hwf Hs]].
  split; [reflexivity|]. split; [exact Hwf | exact Hs].
Defined.

(** A (2,1) and a (2,2) operand joined along axis 1. *)
Lemma Concatenate_local_grad_of_value_witness :
  Concatenate_compute_value
    (mk_Concatenate 5 (leaf 0 [2; 1] [1; 2]%Z) (leaf 1 [2; 2] [3; 4; 5; 6]%Z) 1%Z)
    None None = Ok (arr [2; 3] [1; 3; 4; 2; 5; 6]%Z) /\
  Concatenate_local_grad
    (mk_Concatenate 5 (leaf 0 [2; 1] [1; 2]%Z) (leaf 1 [2; 2] [3; 4; 5; 6]%Z) 1%Z)
    (leaf 0 [2; 1] [1; 2]%Z) (arr [2; 3] [1; 3; 4; 2; 5; 6]%Z) =
    Ok (arr [2; 1] [1; 2]%Z) /\
  Concatenate_local_grad
    (mk_Concatenate 5 (leaf 0 [2; 1] [1; 2]%Z) (leaf 1 [2; 2] [3; 4; 5; 6]%Z) 1%Z)
    (leaf 1 [2; 2] [3; 4; 5; 6]%Z) (arr [2; 3] [1; 3; 4; 2; 5; 6]%Z) =
    Ok (arr [2; 2] [3; 4; 5; 6]%Z).
Proof.
  split; [reflexivity|].
  exact (Concatenate_local_grad_of_value unit unit scalar
           (mk_Concatenate 5 (leaf 0 [2; 1] [1; 2]%Z) (leaf 1 [2; 2] [3; 4; 5; 6]%Z) 1%Z)
           None
           (arr [2; 1] [1; 2]%Z) (arr [2; 2] [3; 4; 5; 6]%Z)
           (arr [2; 3] [1; 3; 4; 2; 5; 6]%Z)
           eq_refl eq_refl eq_refl eq_refl eq_refl eq_refl eq_refl).
Defined.

(** Operands of shapes (2,1), (2,2) and (2,4) joined along axis 1. *)
Lemma Concatenate_init_shape_witness :
  exists self,
    Concatenate_init 5 1 (leaf 0 [2; 1] (repeat 0%Z 2)) (leaf 1 [2; 2] (repeat 0%Z 4))
      [leaf 2 [2; 4] (repeat 0%Z 8)] = Ok self /\
    Concatenate_shape self None = Ok [2; 7]%Z.
Proof.
  destruct (Concatenate_init_shape unit unit scalar 1 2 1 eq_refl
              [leaf 2 [2; 4] (repeat 0%Z 8)] [[2; 4]] 5
              (leaf 0 [2; 1] (repeat 0%Z 2)) (leaf 1 [2; 2] (repeat 0%Z 4))
              [2; 1] [2; 2] eq_refl eq_refl eq_refl eq_refl
              ltac:(constructor; [split; reflexivity | constructor]))
    as [self [Hinit [_ [_ Hs]]]].
  exists self. split; [exact Hinit | exact Hs].
Defined.

(** A (3,4) operand plus a (4,) operand. *)
Lemma MatAdd_accepted_computes_sum_witness :
  exists v,
    MatAdd_compute_value
      (mk_MatAdd 5 (leaf 0 [3; 4] (repeat 1%Z 12)) (leaf 1 [4] [1; 2; 3; 4]%Z))
      None None = Ok v /\
    MatAdd_shape
      (mk_MatAdd 5 (leaf 0 [3; 4] (repeat 1%Z 12)) (leaf 1 [4] [1; 2; 3; 4]%Z))
      None = Ok (shape_of v) /\
    wf v.
Proof.
  destruct (MatAdd_accepted_computes_sum unit unit scalar 5
              (leaf 0 [3; 4] (repeat 1%Z 12)) (leaf 1 [4] [1; 2; 3; 4]%Z) []
              (mk_MatAdd 5 (leaf 0 [3; 4] (repeat 1%Z 12)) (leaf 1 [4] [1; 2; 3; 4]%Z))
              None
              (arr [3; 4] (repeat 1%Z 12)) (arr [4] [1; 2; 3; 4]%Z)
              eq_refl eq_refl eq_refl eq_refl eq_refl)
    as [v [Hv [Hs [Hwf _]]]].
  exists v. split; [exact Hv|]. split; [exact Hs | exact Hwf].
Defined.

(** A label file of two labels whose header announces none. *)
Lemma parse_labels_reads_past_header_witness :
  exists v,
    parse_labels [Byte.x00; Byte.x00; Byte.x08; Byte.x01;
                  Byte.x00; Byte.x00; Byte.x00; Byte.x00;
                  Byte.x07; Byte.x02] = Parsed v /\
    nd_shape v = [2] /\
    get v [1] = 2%Z.
Proof.
  destruct (parse_labels_reads_past_header
              [Byte.x00; Byte.x00; Byte.x08; Byte.x01;
               Byte.x00; Byte.x00; Byte.x00; Byte.x00;
               Byte.x07; Byte.x02]) as [_ Hlong].
  destruct (Hlong ltac:(simpl; lia)) as [v [Hv [_ [Hs Hg]]]].
  exists v. split; [exact Hv|]. split; [exact Hs|].
  destruct (Hg 1 ltac:(simpl; lia)) as [Hget _]. rewrite Hget. reflexivity.
Defined.

(** An image file of one image of two rows and two columns. *)
Lemma parse_images_layout_witness :
  exists v,
    parse_images ([Byte.x00; Byte.x00; Byte.x08; Byte.x03] ++
                  [Byte.x00; Byte.x00; Byte.x00; Byte.x01] ++
                  [Byte.x00; Byte.x00; Byte.x00; Byte.x02] ++
                  [Byte.x00; Byte.x00; Byte.x00; Byte.x02] ++
                  [Byte.x01; Byte.x02; Byte.x03; Byte.xff]) = Parsed v /\
    nd_shape v = [1; 2; 2] /\
    get v [0; 1; 1] = 255%Z.
Proof.
  destruct (parse_images_layout
              [Byte.x00; Byte.x00; Byte.x08; Byte.x03]
              [Byte.x00; Byte.x00; Byte.x00; Byte.x01]
              [Byte.x00; Byte.x00; Byte.x00; Byte.x02]
              [Byte.x00; Byte.x00; Byte.x00; Byte.x02]
              [Byte.x01; Byte.x02; Byte.x03; Byte.xff]
              eq_refl eq_refl eq_refl eq_refl) as [Hok _].
  destruct (Hok eq_refl) as [v [Hv [_ [Hs Hg]]]].
  exists v. split; [exact Hv|]. split; [exact Hs|].
  rewrite (Hg 0 1 1) by (simpl; lia). reflexivity.
Defined.

(** A file of two bytes. *)
Lemma parse_images_short_header_witness :
  parse_images [Byte.x00; Byte.x00] = Failed struct_error.
Proof.
  apply parse_images_short_header. simpl. lia.
Defined.

(** The axes (0,0) over a (2,3) operand: a declared shape, and no value. *)
Lemma Transpose_shape_for_any_axes_witness :
  Transpose_shape
    (mk_Transpose 5 (leaf 0 [2; 3] [1; 2; 3; 4; 5; 6]%Z) (Some [0; 0]%Z)) None =
    Ok [2; 2]%Z /\
  Transpose_compute_value
    (mk_Transpose 5 (leaf 0 [2; 3] [1; 2; 3; 4; 5; 6]%Z) (Some [0; 0]%Z)) None None =
    Raise ValueError.
Proof.
  destruct (Transpose_shape_for_any_axes unit unit scalar
              (mk_Transpose 5 (leaf 0 [2; 3] [1; 2; 3; 4; 5; 6]%Z) (Some [0; 0]%Z))
              [0; 0]%Z None None (arr [2; 3] [1; 2; 3; 4; 5; 6]%Z) [0; 0]
              eq_refl eq_refl eq_refl eq_refl)
    as [Hs [_ Hv]].
  split; [exact Hs | exact (Hv eq_refl)].
Defined.
